(** * ocp-tessellate: conversion engine, instance cache, bounding volumes
      and the tessellation orchestrator

    Shallow embedding of [ocp_tessellate/ocp_utils.py] and
    [ocp_tessellate/convert.py].

    Conventions of the embedding:
    - Python floats are rationals ([Q]); rounding and NaN are not modelled.
    - A Python function that can raise returns a [result]; a method that
      mutates its object, prints, or appends to the converter's instance
      table runs in the state-and-exception monad [M].
    - The OpenCascade geometry kernel and the Python packages the two
      modules import ([quaternion], [hashlib]) are the fields of the class
      [Kernel]; the modules of the package that the two files import
      ([utils], [defaults], [cad_objects], [tessellator]) are the fields of
      the class [Package]. *)

From Stdlib Require Import QArith Qminmax Qabs Lia Lqa.
From stdpp Require Import base list strings option.

#[local] Set Warnings "-register-all".
Local Open Scope Q_scope.

(** ** Exceptions and results *)

Inductive exception : Type :=
| ValueError (msg : string)
| TypeError (msg : string)
| IndexError (msg : string)
| KeyError (key : string)
| AttributeError (msg : string).

Inductive result (A : Type) : Type :=
| Ok (a : A)
| Raise (e : exception).
Arguments Ok {A} a.
Arguments Raise {A} e.

(** ** Python's two-argument [min] and [max], and [max] over a sequence

    [min(a, b)] returns [a] unless [b < a]; [max(a, b)] returns [a] unless
    [b > a]. *)

Definition py_min (a b : Q) : Q := match b ?= a with Lt => b | _ => a end.
Definition py_max (a b : Q) : Q := match b ?= a with Gt => b | _ => a end.

Definition py_max_list (x : Q) (xs : list Q) : Q := foldl py_max x xs.

(** [lower, upper = (max, min) if minimize else (min, max)] *)
Definition lower (minimize : bool) : Q → Q → Q := if minimize then py_max else py_min.
Definition upper (minimize : bool) : Q → Q → Q := if minimize then py_min else py_max.

(** ** The geometry kernel and the imported Python packages *)

Inductive TopAbs_ShapeEnum : Type :=
| TopAbs_COMPOUND | TopAbs_COMPSOLID | TopAbs_SOLID | TopAbs_SHELL
| TopAbs_FACE | TopAbs_WIRE | TopAbs_EDGE | TopAbs_VERTEX.

Global Instance TopAbs_eq_dec : EqDecision TopAbs_ShapeEnum.
Proof. solve_decision. Defined.

Definition vec3 : Type := Q * Q * Q.
(** A quaternion in the order of [loc_to_tq]: [(x, y, z, w)]. *)
Definition quat : Type := Q * Q * Q * Q.
(** [Bnd_Box.Get()]: [(xmin, ymin, zmin, xmax, ymax, zmax)]. *)
Definition bnd_values : Type := Q * Q * Q * Q * Q * Q.

Class Kernel : Type := {
  (** [TopoDS_Shape] and [TopLoc_Location] *)
  Shape : Type;
  Location : Type;
  (** [a == b] on shapes *)
  shape_eqb : Shape → Shape → bool;
  ShapeType : Shape → TopAbs_ShapeEnum;
  (** [TopoDS.Vertex_s], ..., [TopoDS.Compound_s], by shape type *)
  downcast_LUT : TopAbs_ShapeEnum → Shape → Shape;
  (** [obj.Location()], [obj.Moved(loc)], [loc.Inverted()], [a * b] *)
  Shape_Location : Shape → Location;
  Moved : Shape → Location → Shape;
  Inverted : Location → Location;
  Multiplied : Location → Location → Location;
  (** [TopLoc_Location(gp_Trsf())] *)
  TopLoc_identity : Location;
  (** translation part and rotation quaternion of [loc.Transformation()] *)
  Location_tq : Location → vec3 * quat;
  (** a fresh [TopoDS_Compound] after [MakeCompound], and [builder.Add] *)
  empty_compound : Shape;
  Builder_Add : Shape → Shape → Shape;
  (** the direct children of a compound *)
  list_topods_compound : Shape → list Shape;
  (** the items a [TopExp_Explorer(shape, topo)] visits, in order *)
  TopExp_Explorer : Shape → TopAbs_ShapeEnum → list Shape;
  get_compound_type : Shape → string;
  (** [BRepBndLib.Add_s] / [AddOptimal_s] into a fresh [Bnd_Box]:
      [None] when the box [IsVoid], else its [Get()] *)
  BRepBndLib_Add : bool → Shape → option bnd_values;
  (** [BRepGProp.VolumeProperties_s] then [CentreOfMass] *)
  CentreOfMass : Shape → vec3;
  HashCode : Shape → Z;
  (** [BinTools.Write_s] *)
  BinTools_Write : Shape → string;
  sha256_hexdigest : string → string;
  (** [quaternion.rotate_vectors] for one rotor given as [(w, x, y, z)] *)
  rotate_vectors : Q * Q * Q * Q → vec3 → vec3;
}.

(** ** Bounding boxes ([ocp_utils.BoundingBox]) *)

(** The dictionary form of a box, as written by [np_bbox] and [to_dict]. *)
Record bbox_dict : Type := BBoxDict {
  d_xmin : Q; d_xmax : Q; d_ymin : Q; d_ymax : Q; d_zmin : Q; d_zmax : Q;
}.

Record BoundingBox : Type := mkBoundingBox {
  optimal : bool;
  xmin : Q; xmax : Q; ymin : Q; ymax : Q; zmin : Q; zmax : Q;
  xsize : Q; ysize : Q; zsize : Q;
  center : vec3;
  bb_max : Q;   (* the attribute [max] *)
}.

(** The six extents of a box. *)
Definition extents (b : BoundingBox) : bnd_values :=
  (xmin b, xmax b, ymin b, ymax b, zmin b, zmax b).

Definition _calc (self : BoundingBox) : BoundingBox :=
  let xs := xmax self - xmin self in
  let ys := ymax self - ymin self in
  let zs := zmax self - zmin self in
  {| optimal := optimal self;
     xmin := xmin self; xmax := xmax self;
     ymin := ymin self; ymax := ymax self;
     zmin := zmin self; zmax := zmax self;
     xsize := xs; ysize := ys; zsize := zs;
     center := (xmin self + xs / 2, ymin self + ys / 2, zmin self + zs / 2);
     bb_max := py_max_list (Qabs (xmin self))
                 [Qabs (xmax self); Qabs (ymin self); Qabs (ymax self);
                  Qabs (zmin self); Qabs (zmax self)] |}.

(** Assignment of the six extents (the derived attributes are recomputed
    by [_calc], which every caller runs next). *)
Definition set_extents (self : BoundingBox) (v : bnd_values) : BoundingBox :=
  let '(x0, x1, y0, y1, z0, z1) := v in
  {| optimal := optimal self;
     xmin := x0; xmax := x1; ymin := y0; ymax := y1; zmin := z0; zmax := z1;
     xsize := xsize self; ysize := ysize self; zsize := zsize self;
     center := center self; bb_max := bb_max self |}.

(** The value handed to [update]: a [BoundingBox], a [dict], or anything
    else ([None] in particular). *)
Inductive bb_arg : Type :=
| ArgBox (bb : BoundingBox)
| ArgDict (bb : bbox_dict)
| ArgOther.

(** [raise "Wrong bounding box param"]: raising a [str] is itself a
    [TypeError] in Python 3. *)
Definition wrong_bounding_box_param : exception :=
  TypeError "exceptions must derive from BaseException".

Definition update (self : BoundingBox) (bb : bb_arg) (minimize : bool)
  : result BoundingBox :=
  let lo := lower minimize in
  let up := upper minimize in
  match bb with
  | ArgBox bb =>
      Ok (_calc (set_extents self
            (lo (xmin bb) (xmin self), up (xmax bb) (xmax self),
             lo (ymin bb) (ymin self), up (ymax bb) (ymax self),
             lo (zmin bb) (zmin self), up (zmax bb) (zmax self))))
  | ArgDict bb =>
      Ok (_calc (set_extents self
            (lo (d_xmin bb) (xmin self), up (d_xmax bb) (xmax self),
             lo (d_ymin bb) (ymin self), up (d_ymax bb) (ymax self),
             lo (d_zmin bb) (zmin self), up (d_zmax bb) (zmax self))))
  | ArgOther => Raise wrong_bounding_box_param
  end.

Definition to_dict (self : BoundingBox) : bbox_dict :=
  BBoxDict (xmin self) (xmax self) (ymin self) (ymax self) (zmin self) (zmax self).

(** The constructor's branches [BoundingBox()] and [BoundingBox(dict)], with
    the default [optimal=False]. *)
Definition blank_box (opt : bool) : BoundingBox :=
  mkBoundingBox opt 0 0 0 0 0 0 0 0 0 (0, 0, 0) 0.

Definition BoundingBox_empty : BoundingBox :=
  _calc (set_extents (blank_box false) (0, 0, 0, 0, 0, 0)).

Definition BoundingBox_of_dict (obj : bbox_dict) : BoundingBox :=
  _calc (set_extents (blank_box false)
           (d_xmin obj, d_xmax obj, d_ymin obj, d_ymax obj, d_zmin obj, d_zmax obj)).

Global Instance result_ret : MRet result := λ A a, Ok a.
Global Instance result_bind : MBind result := λ A B f r,
  match r with Ok a => f a | Raise e => Raise e end.
Global Instance result_fmap : FMap result := λ A B f r,
  match r with Ok a => Ok (f a) | Raise e => Raise e end.

(** ** Data model of the scene tree ([cad_objects], [utils]) *)

(** Modelled from the spec: the colour of an [Object] is an RGBA value;
    [utils.Color] is not in the two files, its constructor and its
    [percentage] attribute are fields of [Package] below. *)
Record Color : Type := mkColor { red : Q; green : Q; blue : Q; a : Q }.

Definition set_a (c : Color) (alpha : Q) : Color :=
  mkColor (red c) (green c) (blue c) alpha.

(** What a caller may pass as a colour. *)
Inductive color_value : Type :=
| ColorName (name : string)
| ColorTuple3 (r g b : Q)
| ColorTuple4 (r g b alpha : Q)
| ColorObj (c : Color)
| ColorOcp (r g b alpha : Q).   (* a [Quantity_ColorRGBA], bare or wrapped *)

(** The tuple [(r, g, b, a)] returned by [get_rgba]. *)
Definition rgba : Type := Q * Q * Q * Q.

Definition rgba_value (c : rgba) : color_value :=
  let '(r, g, b, al) := c in ColorTuple4 r g b al.

Section DataModel.
Context {K : Kernel}.

(** A value that is a kernel shape or a Python list of such values. *)
Inductive geom : Type :=
| GShape (s : Shape)
| GList (l : list geom).

(** The [loc] attribute of a node.  [get_location] returns [obj.wrapped]
    for any wrapped object, so the slot can also hold a shape. *)
Inductive pyloc : Type :=
| LocLocation (l : Location)
| LocShape (s : Shape).

(** Modelled from the spec: an [Object] has a kind, either a [ref] into the
    instance table or an inline payload [obj], a name, a location, a colour,
    a stroke width and a cache id; every keyword the constructor is not
    given is [None]. *)
Record OcpObject : Type := mkOcpObject {
  kind : string;
  obj : option geom;
  ref : option nat;
  name : string;
  loc : option pyloc;
  color : option Color;
  width : option nat;
  cache_id : option string;
}.

(** Modelled from the spec: a scene node is a [Group] (name, location,
    ordered children) or an [Object]. *)
Inductive OcpNode : Type :=
| OcpGroup (gname : string) (gloc : option pyloc) (objects : list OcpNode)
| OcpLeaf (o : OcpObject).

(** [group.add(node)] appends a child. *)
Definition add (group node : OcpNode) : OcpNode :=
  match group with
  | OcpGroup n l objs => OcpGroup n l (objs ++ [node])
  | OcpLeaf o => OcpLeaf o
  end.

Definition node_loc (n : OcpNode) : option pyloc :=
  match n with OcpGroup _ l _ => l | OcpLeaf o => loc o end.

Definition set_node_loc (n : OcpNode) (l : option pyloc) : OcpNode :=
  match n with
  | OcpGroup gn _ objs => OcpGroup gn l objs
  | OcpLeaf o =>
      OcpLeaf (mkOcpObject (kind o) (obj o) (ref o) (name o) l (color o)
                 (width o) (cache_id o))
  end.

(** ** Input values of the converter

    The universe of Python values the embedding covers:
    - [PyScalar]: an [enum.Enum], an OCP colour, an [int], [float], [bool],
      [str], [np.number] or [np.ndarray];
    - [PyOpaque]: an object with none of the capabilities the filter tests;
    - [PyList]: a [list] or [tuple] that is not a [ShapeList];
    - [PyDict]: a [dict] with string keys;
    - [PyTopoDS]: a [TopoDS_Shape];
    - [PyB123d]: a build123d shape: it has [wrapped], [children], [label]
      and [color], and is iterable when it is a build123d [Compound];
    - [PyOther]: a value that passes the filter and that no branch of the
      dispatch chain recognises (a [set], a CadQuery assembly).
    CadQuery workplanes and sketches, build123d builders, shape lists,
    locations, planes and axes are outside this universe, and so are mixed
    compounds and [unroll_compounds=True]: a compound here is not mixed. *)
Inductive pyobj : Type :=
| PyScalar (ty : string)
| PyOpaque (ty : string)
| PyList (xs : list pyobj)
| PyDict (items : list (string * pyobj))
| PyTopoDS (s : Shape)
| PyB123d (label : option string) (col : option color_value) (wrapped : Shape)
          (iterable : bool) (children : list pyobj)
| PyOther (ty : string).

(** An entry of the list [instances] that [to_assembly] hands to
    [tessellate_group]: [{"obj": ..., "cache_id": ...}]. *)
Record instance : Type := mkInstance { i_obj : Shape; i_cache_id : string }.

(** ** The shapes dictionary walked by [_add_bb] and [combined_bb]

    A node with a ["parts"] entry is a group; any other node is a leaf with
    ["type"], ["loc"] (a pair [[t, q]] or [None]), for the type ["shapes"] a
    ["shape"]["ref"], and possibly a ["bb"] entry ([None] or a dict). *)
Record shapes_leaf : Type := mkLeaf {
  l_type : string;
  l_ref : nat;
  l_loc : option (option vec3 * option quat);
  l_bb : option (option bbox_dict);
}.

Inductive shapes : Type :=
| ShapesGroup (parts : list shapes)
| ShapesLeaf (l : shapes_leaf).

(** ** Process state and the monad of effects *)

Inductive printed : Type :=
| Text (s : string)
| VoidBoundingBox (bb : bnd_values).   (* [print("\nVoid Bounding Box", bb)] *)

(** Key of the memo table of [bounding_box]: the hash codes of the shapes
    and [loc_to_tq(loc)]; [optimal] is not part of the key. *)
Definition cache_key : Type := list Z * option (vec3 * quat).

Record state : Type := mkState {
  instances : list (Shape * string);           (* [self.instances] *)
  progress : bool;                             (* [self.progress is not None] *)
  stdout : list printed;
  cache : list (cache_key * BoundingBox);      (* [ocp_utils.cache] *)
}.

Definition M (A : Type) : Type := state → result A * state.

Global Instance M_ret : MRet M := λ A x st, (Ok x, st).
Global Instance M_bind : MBind M := λ A B f m st,
  match m st with
  | (Ok x, st') => f x st'
  | (Raise e, st') => (Raise e, st')
  end.

Global Instance M_fmap : FMap M := λ A B f m st,
  match m st with
  | (Ok x, st') => (Ok (f x), st')
  | (Raise e, st') => (Raise e, st')
  end.

Definition raise {A} (e : exception) : M A := λ st, (Raise e, st).
Definition lift {A} (r : result A) : M A := λ st, (r, st).
Definition get_state : M state := λ st, (Ok st, st).

Definition print (p : printed) : M unit := λ st,
  (Ok tt, mkState (instances st) (progress st) (stdout st ++ [p]) (cache st)).

Definition set_instances (l : list (Shape * string)) : M unit := λ st,
  (Ok tt, mkState l (progress st) (stdout st) (cache st)).

Definition set_cache (c : list (cache_key * BoundingBox)) : M unit := λ st,
  (Ok tt, mkState (instances st) (progress st) (stdout st) c).

(** [OcpConverter(progress)]: a fresh converter in the current process. *)
Definition OcpConverter_init (with_progress : bool) (st : state) : state :=
  mkState [] with_progress (stdout st) (cache st).

(** ** The modules of the package that are imported but not shown *)

Class Package : Type := {
  (** [utils] *)
  Color_init : option color_value → Color;
  percentage : Color → Q * Q * Q;
  make_unique : list (option string) → list (option string);
  type_name : pyobj → string;
  (** [str(type(obj))] and [str(obj)] *)
  type_repr : pyobj → string;
  py_str : pyobj → string;
  (** [defaults] *)
  default_color : color_value;
  preset : string → option Q → Q;
  preset_flag : string → option bool → bool;
  (** [cad_objects] *)
  OcpGroup_default_name : string;
  make_unique_names : OcpNode → OcpNode;
  cleanup : OcpNode → OcpNode;
  repr_node : OcpNode → string;
  Mapping : Type;
  States : Type;
  collect : OcpNode → list instance → M (Mapping * shapes);
  to_state : OcpNode → States;
  (** [ocp_utils.mul_locations], used by [convert] and not in the file *)
  mul_locations : option pyloc → option pyloc → option pyloc;
  (** [tessellator] *)
  Mesh : Type;
  mesh_vertices : Mesh → list Q;
  compute_quality : BoundingBox → Q → Q;
  tessellate : Shape → string → Q → Q → Q → bool → result Mesh;
}.

End DataModel.

(** ** Bounding boxes of kernel shapes, [bounding_box], [np_bbox] *)

Section BoundingVolumes.
Context {K : Kernel} {P : Package}.

Definition _center_of_mass (obj : Shape) : vec3 := CentreOfMass obj.

(** The default of the parameter [tol]: [1e-6]. *)
Definition tol_default : Q := 1 # 1000000.

(** [BRepTools.Clean_s] only drops a cached triangulation inside the kernel
    and is not modelled. *)
Definition _bounding_box (opt : bool) (obj : Shape) (tol : Q) : M bnd_values :=
  match BRepBndLib_Add opt obj with
  | Some (v0, v1, v2, v3, v4, v5) => mret (v0, v3, v1, v4, v2, v5)
  | None =>
      let c := _center_of_mass obj in
      let bb := (c.1.1 - tol, c.1.1 + tol,
                 c.1.2 - tol, c.1.2 + tol,
                 c.2 - tol, c.2 + tol) in
      _ ← print (VoidBoundingBox bb);
      mret bb
  end.

(** The argument [obj] of [BoundingBox(obj, optimal)]. *)
Inductive box_source : Type :=
| FromNone
| FromBox (b : BoundingBox)
| FromDict (d : bbox_dict)
| FromShape (s : Shape).

Definition BoundingBox_init (obj : box_source) (opt : bool) : M BoundingBox :=
  match obj with
  | FromNone => mret (_calc (set_extents (blank_box opt) (0, 0, 0, 0, 0, 0)))
  | FromBox b => mret (_calc (set_extents (blank_box opt) (extents b)))
  | FromDict d =>
      mret (_calc (set_extents (blank_box opt)
              (d_xmin d, d_xmax d, d_ymin d, d_ymax d, d_zmin d, d_zmax d)))
  | FromShape s =>
      bbox ← _bounding_box opt s tol_default;
      mret (_calc (set_extents (blank_box opt) bbox))
  end.

Definition make_compound (objs : list Shape) : Shape :=
  foldl Builder_Add empty_compound objs.

Definition loc_to_tq (l : option Location) : option (vec3 * quat) :=
  Location_tq <$> l.

(** The first argument of [bounding_box]: one shape, or a list or tuple. *)
Inductive shape_arg : Type :=
| OneShape (s : Shape)
| ShapeSeq (l : list Shape).

Definition make_key (objs : shape_arg) (l : option Location) (opt : bool) : cache_key :=
  (match objs with
   | OneShape s => [HashCode s]
   | ShapeSeq ss => map HashCode ss
   end, loc_to_tq l).

Definition vec3_eqb (u v : vec3) : bool :=
  Qeq_bool u.1.1 v.1.1 && Qeq_bool u.1.2 v.1.2 && Qeq_bool u.2 v.2.

Definition quat_eqb (u v : quat) : bool :=
  Qeq_bool u.1.1.1 v.1.1.1 && Qeq_bool u.1.1.2 v.1.1.2
  && Qeq_bool u.1.2 v.1.2 && Qeq_bool u.2 v.2.

(** Equality of two keys, as Python compares the tuples. *)
Definition key_eqb (k1 k2 : cache_key) : bool :=
  bool_decide (k1.1 = k2.1)
  && match k1.2, k2.2 with
     | None, None => true
     | Some (t1, q1), Some (t2, q2) => vec3_eqb t1 t2 && quat_eqb q1 q2
     | _, _ => false
     end.

Fixpoint cache_lookup (k : cache_key) (c : list (cache_key * BoundingBox))
  : option BoundingBox :=
  match c with
  | [] => None
  | (k', v) :: rest => if key_eqb k' k then Some v else cache_lookup k rest
  end.

(** The function under the decorator [@cached(cache, key=make_key)]. *)
Definition bounding_box_uncached (objs : shape_arg) (l : option Location) (opt : bool)
  : M BoundingBox :=
  let compound :=
    match objs with
    | ShapeSeq ss => make_compound ss
    | OneShape s => s
    end in
  BoundingBox_init
    (FromShape (match l with None => compound | Some l => Moved compound l end)) opt.

(** [bounding_box]: a hit returns the stored box; a miss computes the box
    and stores it.  Eviction from the LRU cache, which only removes
    entries, is not modelled. *)
Definition bounding_box (objs : shape_arg) (l : option Location) (opt : bool)
  : M BoundingBox :=
  let k := make_key objs l opt in
  st ← get_state;
  match cache_lookup k (cache st) with
  | Some v => mret v
  | None =>
      v ← bounding_box_uncached objs l opt;
      st' ← get_state;
      _ ← set_cache ((k, v) :: cache st');
      mret v
  end.

(** [p.reshape(-1, 3)] on a flat buffer. *)
Fixpoint reshape3 (p : list Q) : option (list vec3) :=
  match p with
  | [] => Some []
  | x :: y :: z :: rest => cons (x, y, z) <$> reshape3 rest
  | _ => None
  end.

Definition vec3_add (u v : vec3) : vec3 := (u.1.1 + v.1.1, u.1.2 + v.1.2, u.2 + v.2).

(** [np.min(v, axis=0)] and [np.max(v, axis=0)] of a non-empty array. *)
Definition axis_min (f : vec3 → Q) (v0 : vec3) (vs : list vec3) : Q :=
  foldl Qmin (f v0) (f <$> vs).
Definition axis_max (f : vec3 → Q) (v0 : vec3) (vs : list vec3) : Q :=
  foldl Qmax (f v0) (f <$> vs).

Definition vx (v : vec3) : Q := v.1.1.
Definition vy (v : vec3) : Q := v.1.2.
Definition vz (v : vec3) : Q := v.2.

(** The vertices as placed by [t] and [q]. *)
Definition placed_vertices (n_p : list vec3) (t : option vec3) (q : option quat)
  : result (list vec3) :=
  match t, q with
  | None, None => Ok n_p
  | Some n_t, Some (qx, qy, qz, qw) =>
      Ok ((λ p, vec3_add (rotate_vectors (qw, qx, qy, qz) p) n_t) <$> n_p)
  | None, Some _ => Raise (TypeError "unsupported operand type(s) for +")
  | Some _, None => Raise (TypeError "'NoneType' object is not subscriptable")
  end.

Definition np_bbox (p : list Q) (t : option vec3) (q : option quat)
  : result (option bbox_dict) :=
  if (length p =? 0)%nat then Ok None
  else
    match reshape3 p with
    | None => Raise (ValueError "cannot reshape array into shape (3)")
    | Some n_p =>
        v ← placed_vertices n_p t q;
        match v with
        | [] => Raise (ValueError "zero-size array to reduction operation")
        | v0 :: vs =>
            Ok (Some (BBoxDict (axis_min vx v0 vs) (axis_max vx v0 vs)
                               (axis_min vy v0 vs) (axis_max vy v0 vs)
                               (axis_min vz v0 vs) (axis_max vz v0 vs)))
        end
    end.

(** The value [shape["bb"]] as an argument of [update]. *)
Definition bb_value_arg (bb : option bbox_dict) : bb_arg :=
  match bb with Some d => ArgDict d | None => ArgOther end.

Definition set_bb (lf : shapes_leaf) (bb : option (option bbox_dict)) : shapes_leaf :=
  mkLeaf (l_type lf) (l_ref lf) (l_loc lf) bb.

(** The leaf branch of [_add_bb], for a leaf of type ["shapes"]. *)
Definition add_bb_leaf (meshed_instances : list Mesh) (lf : shapes_leaf)
    (overall_bb : BoundingBox) : result (shapes_leaf * BoundingBox) :=
  match meshed_instances !! l_ref lf with
  | None => Raise (IndexError "list index out of range")
  | Some mesh =>
      match l_loc lf with
      | None => Raise (TypeError "argument after * must be an iterable")
      | Some (t, q) =>
          bb ← np_bbox (mesh_vertices mesh) t q;
          overall_bb' ← update overall_bb (bb_value_arg bb) false;
          Ok (set_bb lf (Some bb), overall_bb')
      end
  end.

(** The loop [for shape in shapes["parts"]] of [_add_bb]; [rec] is the
    recursive call on a nested group. *)
Definition _add_bb_loop (meshed_instances : list Mesh)
    (rec : shapes → BoundingBox → result (shapes * BoundingBox))
  : list shapes → list shapes → BoundingBox → result (shapes * BoundingBox) :=
  fix loop (todo seen : list shapes) (overall_bb : BoundingBox) {struct todo} :=
    match todo with
    | [] => Ok (ShapesGroup seen, overall_bb)
    | ShapesLeaf lf :: rest =>
        if String.eqb (l_type lf) "shapes" then
          r ← add_bb_leaf meshed_instances lf overall_bb;
          loop rest (seen ++ [ShapesLeaf r.1]) r.2
        else loop rest (seen ++ [ShapesLeaf lf]) overall_bb
    | (ShapesGroup _ as shape) :: rest =>
        r ← rec shape overall_bb;
        loop rest (seen ++ [r.1]) r.2
    end.

(** [_add_bb] of [tessellate_group]: the closure variables
    [meshed_instances] and [overall_bb] are arguments, and the walked
    dictionary and [overall_bb], both updated in place, are returned.  The
    [Timer] context manager only measures time. *)
Fixpoint _add_bb (meshed_instances : list Mesh) (shapes0 : shapes)
    (overall_bb : BoundingBox) {struct shapes0} : result (shapes * BoundingBox) :=
  match shapes0 with
  | ShapesLeaf _ => Raise (KeyError "parts")
  | ShapesGroup parts =>
      _add_bb_loop meshed_instances (_add_bb meshed_instances) parts [] overall_bb
  end.

(** The leaf branch of [c_bb]. *)
Definition c_bb_leaf (lf : shapes_leaf) (bb : option BoundingBox)
  : result (shapes_leaf * option BoundingBox) :=
  match l_bb lf with
  | None => Raise (KeyError "bb")
  | Some slot =>
      bb' ← match bb, slot with
            | None, None => Ok (Some BoundingBox_empty)
            | None, Some d => Ok (Some (BoundingBox_of_dict d))
            | Some b, Some d => Some <$> update b (ArgDict d) false
            | Some b, None => Ok (Some b)
            end;
      Ok (set_bb lf None, bb')          (* [del shape["bb"]] *)
  end.

Definition c_bb_loop (rec : shapes → option BoundingBox → result (shapes * option BoundingBox))
  : list shapes → list shapes → option BoundingBox
    → result (shapes * option BoundingBox) :=
  fix loop (todo seen : list shapes) (bb : option BoundingBox) {struct todo} :=
    match todo with
    | [] => Ok (ShapesGroup seen, bb)
    | ShapesLeaf lf :: rest =>
        r ← c_bb_leaf lf bb;
        loop rest (seen ++ [ShapesLeaf r.1]) r.2
    | (ShapesGroup _ as shape) :: rest =>
        r ← rec shape bb;
        loop rest (seen ++ [r.1]) r.2
    end.

(** [combined_bb]: [c_bb] returns the box and the dictionary, whose leaves
    lose their ["bb"] entry. *)
Fixpoint c_bb (shapes0 : shapes) (bb : option BoundingBox) {struct shapes0}
  : result (shapes * option BoundingBox) :=
  match shapes0 with
  | ShapesLeaf _ => Raise (KeyError "parts")
  | ShapesGroup parts => c_bb_loop c_bb parts [] bb
  end.

Definition combined_bb (shapes0 : shapes) : result (option BoundingBox) :=
  snd <$> c_bb shapes0 None.

(** ** The tessellation orchestrator ([convert.tessellate_group]) *)

Record kwargs : Type := mkKwargs {
  kw_deviation : option Q;
  kw_edge_accuracy : option Q;
  kw_angular_tolerance : option Q;
  kw_render_edges : option bool;
}.

(** The body of the loop [for i, instance in enumerate(instances)].  The
    arguments [debug], [progress] and [shape_id] of [tessellate] only drive
    its reporting. *)
Definition mesh_instance (deviation angular_tolerance : Q) (render_edges : bool)
    (inst : instance) : M Mesh :=
  let shape := i_obj inst in
  bb ← bounding_box (OneShape shape) None false;
  let quality := compute_quality bb deviation in
  lift (tessellate shape (i_cache_id inst) deviation quality angular_tolerance
          render_edges).

Fixpoint mesh_loop (deviation angular_tolerance : Q) (render_edges : bool)
    (todo : list instance) (meshed_instances : list Mesh) : M (list Mesh) :=
  match todo with
  | [] => mret meshed_instances
  | inst :: rest =>
      mesh ← mesh_instance deviation angular_tolerance render_edges inst;
      mesh_loop deviation angular_tolerance render_edges rest (meshed_instances ++ [mesh])
  end.

Definition tessellate_group (group : OcpNode) (insts : list instance) (kw : kwargs)
  : M (list Mesh * shapes * States * Mapping) :=
  overall_bb ← BoundingBox_init FromNone false;
  ms ← collect group insts;
  let states := to_state group in
  let deviation := preset "deviation" (kw_deviation kw) in
  let angular_tolerance := preset "angular_tolerance" (kw_angular_tolerance kw) in
  let render_edges := preset_flag "render_edges" (kw_render_edges kw) in
  meshed_instances ← mesh_loop deviation angular_tolerance render_edges insts [];
  r ← lift (_add_bb meshed_instances ms.2 overall_bb);
  mret (meshed_instances, r.1, states, ms.1).

End BoundingVolumes.

(** ** The converter ([convert.py]) *)

Section Converter.
Context {K : Kernel} {P : Package}.

Definition LINE_WIDTH : nat := 2.
Definition POINT_SIZE : nat := 4.
Definition DEBUG : bool := true.

Definition indent (level : nat) : string := String.concat "" (replicate level "  ").

Definition _debug (level : nat) (msg : string) (name : option string) : M unit :=
  if DEBUG then
    let prefix := indent level +:+ "debug:" in
    let suffix := match name with
                  | Some n => " ('" +:+ n +:+ "')"
                  | None => ""
                  end in
    print (Text (prefix +:+ " " +:+ msg +:+ " " +:+ suffix))
  else mret tt.

(** Attributes of the input values: [obj.name] and [obj.label] when the
    attribute exists and is not [None]; [obj.color] likewise. *)
Definition attr_name (x : pyobj) : option string := None.

Definition attr_label (x : pyobj) : option string :=
  match x with PyB123d label _ _ _ _ => label | _ => None end.

Definition attr_color (x : pyobj) : option color_value :=
  match x with PyB123d _ col _ _ _ => col | _ => None end.

Definition nonempty (s : option string) : option string :=
  match s with
  | Some n => if String.eqb n "" then None else Some n
  | None => None
  end.

Definition get_name (x : pyobj) (name : option string) (default : string) : string :=
  match name with
  | Some n => n
  | None =>
      match nonempty (attr_name x) with
      | Some n => n
      | None =>
          match nonempty (attr_label x) with
          | Some n => n
          | None => default
          end
      end
  end.

(** The class of a downcast shape. *)
Definition class_name (s : Shape) : string :=
  match ShapeType s with
  | TopAbs_COMPOUND => "TopoDS_Compound"
  | TopAbs_COMPSOLID => "TopoDS_CompSolid"
  | TopAbs_SOLID => "TopoDS_Solid"
  | TopAbs_SHELL => "TopoDS_Shell"
  | TopAbs_FACE => "TopoDS_Face"
  | TopAbs_WIRE => "TopoDS_Wire"
  | TopAbs_EDGE => "TopoDS_Edge"
  | TopAbs_VERTEX => "TopoDS_Vertex"
  end.

(** [d.get(key)] on a dictionary literal. *)
Fixpoint dict_get {V} (d : list (string * V)) (key : string) : option V :=
  match d with
  | [] => None
  | (k, v) :: rest => if String.eqb k key then Some v else dict_get rest key
  end.

Definition get_type (s : Shape) : result string :=
  let kinds := [("TopoDS_Edge", "Edge"); ("TopoDS_Face", "Face");
                ("TopoDS_Shell", "Shell"); ("TopoDS_Solid", "Solid");
                ("TopoDS_Vertex", "Vertex"); ("TopoDS_Wire", "Wire")] in
  match dict_get kinds (class_name s) with
  | Some typ => Ok typ
  | None => Raise (ValueError "Unknown type")
  end.

Definition get_kind (typ : string) : result string :=
  let kinds := [("Edge", "edge"); ("Face", "face"); ("Shell", "face");
                ("Solid", "solid"); ("Vertex", "vertex"); ("Wire", "edge")] in
  match dict_get kinds typ with
  | Some k => Ok k
  | None => Raise (ValueError "Unknown type")
  end.

Definition downcast (s : Shape) : Shape := downcast_LUT (ShapeType s) s.

Definition is_topods_compound (s : Shape) : bool :=
  bool_decide (ShapeType s = TopAbs_COMPOUND).
Definition is_topods_wire (s : Shape) : bool :=
  bool_decide (ShapeType s = TopAbs_WIRE).

(** [_get_topo]: the explorer's items, each hash code once, downcast. *)
Fixpoint _get_topo_from (items : list Shape) (hashes : list Z) : list Shape :=
  match items with
  | [] => []
  | item :: rest =>
      let hash_value := HashCode item in
      if bool_decide (hash_value ∈ hashes) then _get_topo_from rest hashes
      else downcast item :: _get_topo_from rest (hash_value :: hashes)
  end.

Definition _get_topo (s : Shape) (topo : TopAbs_ShapeEnum) : list Shape :=
  _get_topo_from (TopExp_Explorer s topo) [].

Definition get_edges (s : Shape) : list Shape := _get_topo s TopAbs_EDGE.

(** [get_rgba(color, alpha)] *)
Definition get_rgba (c : option color_value) (alpha : option Q) : rgba :=
  let c := default default_color c in
  match c with
  | ColorOcp r g b al => (r, g, b, default al alpha)
  | _ =>
      let col := Color_init (Some c) in
      let '(r, g, b) := percentage col in
      (r, g, b, default (a col) alpha)
  end.

(** *** Colour of a leaf *)

Definition default_colors : list (string * color_value) :=
  [ ("TopoDS_Edge", ColorName "MediumOrchid");
    ("TopoDS_Face", ColorName "Violet");
    ("TopoDS_Shell", ColorName "Violet");
    ("TopoDS_Solid", ColorTuple3 232 176 36);
    ("TopoDS_Vertex", ColorName "MediumOrchid");
    ("TopoDS_Wire", ColorName "MediumOrchid");
    ("edge", ColorName "MediumOrchid");
    ("wire", ColorName "MediumOrchid");
    ("face", ColorName "Violet");
    ("shell", ColorName "Violet");
    ("solid", ColorTuple3 232 176 36);
    ("vertex", ColorName "MediumOrchid") ].

(** What [get_color_for_object] reads from its argument [obj]: [obj.color]
    when the attribute exists and is not [None], and
    [class_name(unwrap(obj))]. *)
Record colored : Type := mkColored {
  own_color : option color_value;
  own_class : string;
}.

Definition get_color_for_object (o : colored) (c : option color_value)
    (alpha : option Q) (kd : option string) : result Color :=
  col_a ←
    match c with
    | Some c => Ok (Color_init (Some c))
    | None =>
        match own_color o with
        | Some oc => Ok (Color_init (Some oc))
        | None =>
            match kd with
            | Some k =>
                match dict_get default_colors k with
                | Some d => Ok (Color_init (Some d))
                | None => Raise (KeyError k)
                end
            | None => Ok (Color_init (dict_get default_colors (own_class o)))
            end
        end
    end;
  match alpha with
  | Some al => Ok (set_a col_a al)
  | None => Ok col_a
  end.

Definition colored_of_geom (g : geom) : colored :=
  match g with
  | GShape s => mkColored None (class_name s)
  | GList _ => mkColored None "list"
  end.

(** *** The instance cache *)

Definition serialize (s : Shape) : string := BinTools_Write s.

Fixpoint serialize_all (objs : list geom) : result string :=
  match objs with
  | [] => Ok ""
  | GShape s :: rest => (λ tl, serialize s +:+ tl) <$> serialize_all rest
  | GList _ :: _ => Raise (TypeError "Write_s(): incompatible function arguments")
  end.

Definition create_cache_id (objs : list geom) : result string :=
  sha256_hexdigest <$> serialize_all objs.

(** The shape in its own local frame: [downcast(obj.Moved(loc.Inverted()))]
    with [loc = obj.Location()]. *)
Definition relocated (s : Shape) : Shape :=
  downcast (Moved s (Inverted (Shape_Location s))).

Definition referential (kd : string) (i : nat) (nm : string) (l : Location)
    (c : Color) (cid : string) : OcpObject :=
  mkOcpObject kd None (Some i) nm (Some (LocLocation l)) (Some c) None (Some cid).

Definition get_instance (o : geom) (kd : string) (nm : string) (c : Color)
    (cid : string) : M OcpObject :=
  match o with
  | GList _ => raise (AttributeError "'list' object has no attribute 'Location'")
  | GShape s =>
      let l := Shape_Location s in
      let obj2 := relocated s in
      st ← get_state;
      match list_find (λ inst, Is_true (shape_eqb inst.1 obj2)) (instances st) with
      | Some (i, _) =>
          _ ← (if progress st then print (Text "-") else mret tt);
          mret (referential kd i nm l c cid)
      | None =>
          let i := length (instances st) in
          _ ← set_instances (instances st ++ [(obj2, cid)]);
          mret (referential kd i nm l c cid)
      end
  end.

(** *** [unify] *)

Definition str_in (s : string) (l : list string) : bool := bool_decide (s ∈ l).

Fixpoint all_shapes (objs : list geom) : result (list Shape) :=
  match objs with
  | [] => Ok []
  | GShape s :: rest => cons s <$> all_shapes rest
  | GList _ :: _ => Raise (TypeError "Add(): incompatible function arguments")
  end.

(** [ocp_obj[0] if isinstance(ocp_obj, list) else ocp_obj] *)
Definition first_or_self (g : geom) : result geom :=
  match g with
  | GList [] => Raise (IndexError "list index out of range")
  | GList (x :: _) => Ok x
  | GShape s => Ok (GShape s)
  end.

Definition unify (objs : list geom) (kd : string) (nm : string)
    (c : option color_value) (alpha : Q) : M OcpObject :=
  ocp_obj ← lift
    match objs with
    | [GShape s] =>
        if is_topods_compound s then
          match list_topods_compound s with
          | [x] => Ok (GShape (downcast x))
          | ocp_objs =>
              if str_in kd ["edge"; "vertex"] then Ok (GList (GShape <$> ocp_objs))
              else Ok (GShape s)
          end
        else Ok (GShape s)
    | [g] => Ok g
    | _ =>
        if str_in kd ["solid"; "face"; "shell"] then
          (λ ss, GShape (make_compound ss)) <$> all_shapes objs
        else Ok (GList objs)
    end;
  first ← lift (first_or_self ocp_obj);
  col ← lift (get_color_for_object (colored_of_geom first) c None (Some kd));
  let col := if Qlt_le_dec alpha 1 then set_a col alpha else col in
  if str_in kd ["solid"; "face"; "shell"] then
    cid ← lift (create_cache_id objs);
    get_instance ocp_obj kd nm col cid
  else
    mret (mkOcpObject kd (Some ocp_obj) None nm None (Some col)
            (Some (if String.eqb kd "edge" then LINE_WIDTH else POINT_SIZE)) None).

End Converter.

(** *** The handlers and [to_ocp] *)

Section Dispatch.
Context {K : Kernel} {P : Package}.

(** A positional argument at a call of a handler. *)
Inductive pyarg : Type :=
| ArgName (n : option string)
| ArgColor (c : option rgba)
| ArgNum (x : Q)
| ArgBool (b : bool)
| ArgInt (n : nat).

(** The skip tests at the head of the loop of [to_ocp]. *)
Definition is_silently_skipped (x : pyobj) : bool :=
  match x with PyScalar _ => true | _ => false end.

Definition is_wrapped (x : pyobj) : bool :=
  match x with PyB123d _ _ _ _ _ => true | _ => false end.

Definition is_iterable_or_dict (x : pyobj) : bool :=
  match x with
  | PyList _ | PyDict _ => true
  | PyB123d _ _ _ iterable _ => iterable
  | _ => false
  end.

Definition is_topods_shape (x : pyobj) : bool :=
  match x with PyTopoDS _ => true | _ => false end.

(** The remaining tests of the filter ([is_cadquery],
    [is_cadquery_assembly], [is_cadquery_sketch], [is_build123d],
    [is_compound], [is_toploc_location], or iterable for another reason):
    in this universe they hold of [PyOther] only. *)
Definition has_other_capability (x : pyobj) : bool :=
  match x with PyOther _ => true | _ => false end.

Definition passes_filter (x : pyobj) : bool :=
  is_wrapped x || is_iterable_or_dict x || has_other_capability x
  || is_topods_shape x.

Definition skipping_message (obj_name : option string) (x : pyobj) : string :=
  "Skipping object"
  +:+ match obj_name with None => "" | Some n => " '" +:+ n +:+ "'" end
  +:+ " of type " +:+ type_repr x.

(** "Get object color" in the loop of [to_ocp]. *)
Definition prepare_color (x : pyobj) (rgba_color : option rgba) : option rgba :=
  match rgba_color with
  | Some c => Some (get_rgba (Some (rgba_value c)) None)
  | None =>
      match attr_color x with
      | Some oc => Some (get_rgba (Some oc) None)
      | None => None
      end
  end.

Definition group_length (n : OcpNode) : nat :=
  match n with OcpGroup _ _ objs => length objs | OcpLeaf _ => 0%nat end.

Definition is_group (n : OcpNode) : bool :=
  match n with OcpGroup _ _ _ => true | OcpLeaf _ => false end.

(** Everything of [to_ocp] around the body of its loop.  [bodies] holds,
    for each positional object, the body of the loop for that object, as a
    function of the name and the colour the loop pairs it with. *)
Fixpoint to_ocp_loop
    (todo : list ((option string → option rgba → M (option OcpNode))
                  * (option string * option rgba)))
    (group : OcpNode) : M OcpNode :=
  match todo with
  | [] => mret group
  | (body, (obj_name, rgba_color)) :: rest =>
      r ← body obj_name rgba_color;
      match r with
      | None => to_ocp_loop rest group              (* [continue] *)
      | Some ocp_obj => to_ocp_loop rest (add group ocp_obj)
      end
  end.

Definition validate_names (n : nat) (names : option (list (option string)))
  : M (list (option string)) :=
  match names with
  | None => mret (replicate n None)
  | Some ns =>
      if bool_decide (length ns ≠ n) then
        raise (ValueError "Length of names does not match the number of objects")
      else mret (make_unique ns)
  end.

Definition validate_alphas (n : nat) (alphas : option (list (option Q)))
  : M (list (option Q)) :=
  let alphas := default (replicate n None) alphas in
  if bool_decide (length alphas ≠ n) then
    raise (ValueError "Length of alphas does not match the number of objects")
  else mret alphas.

Definition validate_colors (n : nat) (colors : option (list (option color_value)))
    (alphas : list (option Q)) : M (list (option rgba)) :=
  match colors with
  | None => mret (replicate n None)
  | Some cs =>
      if bool_decide (length cs ≠ n) then
        raise (ValueError "Length of colors does not match the number of objects")
      else mret ((λ ca, Some (get_rgba ca.1 ca.2)) <$> zip cs alphas)
  end.

Definition finish_group (group : OcpNode) : OcpNode :=
  let group := make_unique_names group in
  match group with
  | OcpGroup _ _ [OcpGroup _ _ _] => cleanup group
  | _ => group
  end.

Definition to_ocp_gen
    (bodies : list (option string → option rgba → M (option OcpNode)))
    (names : option (list (option string)))
    (colors : option (list (option color_value)))
    (alphas : option (list (option Q)))
    (l : option Location) : M OcpNode :=
  let l := default TopLoc_identity l in
  let group := OcpGroup OcpGroup_default_name (Some (LocLocation l)) [] in
  names ← validate_names (length bodies) names;
  alphas ← validate_alphas (length bodies) alphas;
  colors ← validate_colors (length bodies) colors alphas;
  group ← to_ocp_loop (zip bodies (zip names colors)) group;
  mret (finish_group group).

(** [self.to_ocp(obj, names=..., colors=..., sketch_local=...,
    helper_scale=..., top_level=False, level=...)] as the handlers call
    it, for one object. *)
Definition to_ocp_call : Type :=
  pyobj → option (list (option string)) → option (list (option color_value))
  → bool → Q → nat → M OcpNode.

Section Handlers.
Variable self_to_ocp : to_ocp_call.

Definition handle_list_tuple (cad_obj : pyobj) (obj_name : option string)
    (rgba_color : option rgba) (sketch_local : bool) (helper_scale : Q)
    (level : nat) : M OcpNode :=
  _ ← _debug level "handle_list_tuple" obj_name;
  let ocp_obj := OcpGroup (get_name cad_obj obj_name "List") None [] in
  match cad_obj with
  | PyList xs =>
      ocp_obj ←
        (fix loop (todo : list pyobj) (ocp_obj : OcpNode) : M OcpNode :=
           match todo with
           | [] => mret ocp_obj
           | o :: rest =>
               let nm := get_name cad_obj obj_name (type_name o) in
               r ← self_to_ocp o (Some [Some nm]) (Some [rgba_value <$> rgba_color])
                     sketch_local helper_scale (S level);
               loop rest (add ocp_obj (cleanup r))
           end) xs ocp_obj;
      mret (cleanup (make_unique_names ocp_obj))
  | _ => raise (TypeError "object is not iterable")
  end.

Definition handle_dict (cad_obj : pyobj) (obj_name : option string)
    (rgba_color : option rgba) (sketch_local : bool) (helper_scale : Q)
    (level : nat) : M OcpNode :=
  _ ← _debug level "handle_dict" obj_name;
  let ocp_obj := OcpGroup (get_name cad_obj obj_name "Dict") None [] in
  match cad_obj with
  | PyDict items =>
      (fix loop (todo : list (string * pyobj)) (ocp_obj : OcpNode) : M OcpNode :=
         match todo with
         | [] => mret ocp_obj
         | (nm, el) :: rest =>
             r ← self_to_ocp el (Some [Some nm]) (Some [rgba_value <$> rgba_color])
                   sketch_local helper_scale (S level);
             loop rest (add ocp_obj (cleanup r))
         end) items ocp_obj
  | _ => raise (AttributeError "object has no attribute 'items'")
  end.

(** [get_location(obj, as_none=False)] of a value that is not [None]: a
    wrapped object yields [obj.wrapped]. *)
Definition get_location (x : pyobj) : result (option pyloc) :=
  match x with
  | PyB123d _ _ wrapped _ _ => Ok (Some (LocShape wrapped))
  | _ => Raise (TypeError "Unknown location typ")
  end.

(** [child.label] *)
Definition get_label (x : pyobj) : result (option string) :=
  match x with
  | PyB123d label _ _ _ _ => Ok label
  | _ => Raise (AttributeError "object has no attribute 'label'")
  end.

(** [handle_build123d_assembly(self, cad_obj, obj_name, rgba_color,
    helper_scale, sketch_local, level)].  [args] are the positional
    arguments a call passes after [cad_obj]; they bind to the five
    parameters in order, and a call with another number of them raises
    [TypeError] before the body runs. *)
Definition handle_build123d_assembly (cad_obj : pyobj) (args : list pyarg)
  : M OcpNode :=
  match args with
  | [ArgName obj_name; ArgColor rgba_color; ArgNum helper_scale;
     ArgBool sketch_local; ArgInt level] =>
      _ ← _debug level "handle_build123d_assembly" obj_name;
      let nm := get_name cad_obj obj_name "Assembly" in
      l ← lift (get_location cad_obj);
      let ocp_obj := OcpGroup nm l [] in
      match cad_obj with
      | PyB123d _ _ _ _ children =>
          (fix loop (todo : list pyobj) (ocp_obj : OcpNode) : M OcpNode :=
             match todo with
             | [] => mret ocp_obj
             | child :: rest =>
                 label ← lift (get_label child);
                 sub_obj ← self_to_ocp child (Some [label]) None false helper_scale
                             (S level);
                 let sub_obj :=
                   match sub_obj with
                   | OcpGroup _ gl [only] =>
                       set_node_loc only (mul_locations (node_loc only) gl)
                   | _ => sub_obj
                   end in
                 loop rest (add ocp_obj sub_obj)
             end) children ocp_obj
      | _ => raise (AttributeError "object has no attribute 'children'")
      end
  | _ =>
      raise (TypeError
        "handle_build123d_assembly() missing 1 required positional argument: 'level'")
  end.

End Handlers.

Definition handle_shapes (cad_obj : pyobj) (obj_name : option string)
    (rgba_color : option rgba) (sketch_local : bool) (level : nat) : M OcpObject :=
  tobj ← match cad_obj with
         | PyTopoDS s => mret ("TopoDS_Shape", downcast s)
         | PyB123d _ _ wrapped _ _ => mret ("build123d Shape", wrapped)
         | _ => raise (ValueError ("Unknown shape type: " +:+ py_str cad_obj))
         end;
  let t := tobj.1 in
  let o := tobj.2 in
  _ ← _debug level ("handle_shapes (" +:+ t +:+ ") (" +:+ class_name o +:+ ")") obj_name;
  let '(typ, unify_arg) :=
    if is_topods_wire o then ("Wire", GShape <$> get_edges o)
    else if is_topods_compound o then
      let typ := get_compound_type o in
      if String.eqb typ "Wire" then (typ, [GList (GShape <$> get_edges o)])
      else (typ, [GShape o])
    else (type_name (PyTopoDS o), [GShape o]) in
  let nm := get_name cad_obj obj_name typ in
  kd ← lift (get_kind typ);
  unify unify_arg kd nm (rgba_value <$> rgba_color) 1.

(** Is the value a build123d assembly: a build123d shape that is iterable
    and has children. *)
Definition is_build123d_assembly (x : pyobj) : bool :=
  match x with
  | PyB123d _ _ _ iterable children => iterable && bool_decide (0 < length children)%nat
  | _ => false
  end.

(** The body of the loop of [to_ocp] for one object: [None] stands for
    [continue], [Some ocp_obj] for the node the loop adds to the group. *)
Fixpoint to_ocp_body (cad_obj : pyobj) (sketch_local : bool) (helper_scale : Q)
    (level : nat) (obj_name : option string) (rgba_color : option rgba)
    {struct cad_obj} : M (option OcpNode) :=
  let self_to_ocp : to_ocp_call :=
    λ o names colors sketch_local helper_scale level,
      to_ocp_gen [to_ocp_body o sketch_local helper_scale level] names colors None None in
  if is_silently_skipped cad_obj then mret None
  else if negb (passes_filter cad_obj) then
    _ ← print (Text (skipping_message obj_name cad_obj));
    mret None
  else
    let rgba_color := prepare_color cad_obj rgba_color in
    ocp_obj ←
      match cad_obj with
      | PyList _ =>
          handle_list_tuple self_to_ocp cad_obj obj_name rgba_color sketch_local
            helper_scale level
      | PyDict _ =>
          handle_dict self_to_ocp cad_obj obj_name rgba_color sketch_local
            helper_scale level
      | PyB123d _ _ _ _ _ =>
          if is_build123d_assembly cad_obj then
            _ ← handle_build123d_assembly self_to_ocp cad_obj
                  [ArgName obj_name; ArgColor rgba_color; ArgBool sketch_local;
                   ArgInt level];
            handle_build123d_assembly self_to_ocp cad_obj
              [ArgName obj_name; ArgColor rgba_color; ArgNum helper_scale;
               ArgBool sketch_local; ArgInt level]
          else OcpLeaf <$> handle_shapes cad_obj obj_name rgba_color sketch_local level
      | PyTopoDS _ =>
          OcpLeaf <$> handle_shapes cad_obj obj_name rgba_color sketch_local level
      | _ => raise (ValueError ("Unknown object type: " +:+ py_str cad_obj))
      end;
    _ ← (if DEBUG then print (Text (indent level +:+ "=> " +:+ repr_node ocp_obj))
         else mret tt);
    mret (Some ocp_obj).

End Dispatch.

Section EntryPoints.
Context {K : Kernel} {P : Package}.

(** [OcpConverter.to_ocp] with the positional objects [cad_objs] and the
    keywords [names, colors, alphas, loc,
    helper_scale, sketch_local, level].  The parameters [render_mates],
    [render_joints], [default_color], [show_parent], [cache_id] and
    [top_level] are not read after validation; [unroll_compounds] keeps its
    default [False]. *)
Definition to_ocp (cad_objs : list pyobj)
    (names : option (list (option string)))
    (colors : option (list (option color_value)))
    (alphas : option (list (option Q)))
    (l : option Location) (helper_scale : Q) (sketch_local : bool) (level : nat)
  : M OcpNode :=
  to_ocp_gen ((λ o, to_ocp_body o sketch_local helper_scale level) <$> cad_objs)
    names colors alphas l.

(** [to_assembly]: a fresh converter with a [Progress], one [to_ocp] call,
    and the instance table repacked as dictionaries. *)
Definition to_assembly (cad_objs : list pyobj)
    (names : option (list (option string)))
    (colors : option (list (option color_value)))
    (alphas : option (list (option Q)))
    (helper_scale : Q) (show_sketch_local : bool) (l : option Location)
  : M (OcpNode * list instance) :=
  λ st,
    match to_ocp cad_objs names colors alphas l helper_scale show_sketch_local 0
            (OcpConverter_init true st) with
    | (Ok ocp_group, st') =>
        (Ok (ocp_group, (λ i, mkInstance i.1 i.2) <$> instances st'), st')
    | (Raise e, st') => (Raise e, st')
    end.

End EntryPoints.

(** ** Notions used to state the properties *)

(** [m] is the least (greatest) element of [l]. *)
Definition least (m : Q) (l : list Q) : Prop := m ∈ l ∧ Forall (λ x, m <= x) l.
Definition greatest (m : Q) (l : list Q) : Prop := m ∈ l ∧ Forall (λ x, x <= m) l.

(** [acc] is exactly the box spanned by the dictionaries [ds]. *)
Definition spans (acc : option BoundingBox) (ds : list bbox_dict) : Prop :=
  match acc with
  | None => ds = []
  | Some b =>
      least (xmin b) (d_xmin <$> ds) ∧ greatest (xmax b) (d_xmax <$> ds)
      ∧ least (ymin b) (d_ymin <$> ds) ∧ greatest (ymax b) (d_ymax <$> ds)
      ∧ least (zmin b) (d_zmin <$> ds) ∧ greatest (zmax b) (d_zmax <$> ds)
  end.

(** The flat buffer of a list of vertices: the x, y and z of each vertex in
    turn. *)
Definition flat3 (vs : list vec3) : list Q :=
  flat_map (λ v : vec3, [v.1.1; v.1.2; v.2]) vs.

(** The dictionary [d] holds, per axis, the least and the greatest
    coordinate of the vertices [v]. *)
Definition bounds_vertices (d : bbox_dict) (v : list vec3) : Prop :=
  least (d_xmin d) ((λ p, p.1.1) <$> v) ∧ greatest (d_xmax d) ((λ p, p.1.1) <$> v)
  ∧ least (d_ymin d) ((λ p, p.1.2) <$> v) ∧ greatest (d_ymax d) ((λ p, p.1.2) <$> v)
  ∧ least (d_zmin d) ((λ p, p.2) <$> v) ∧ greatest (d_zmax d) ((λ p, p.2) <$> v).

(** A property required of the groups among the nodes of a dictionary. *)
Definition in_group (Pr : shapes → Prop) (s : shapes) : Prop :=
  match s with ShapesLeaf _ => True | ShapesGroup _ => Pr s end.

Section Notions.
Context {K : Kernel} {P : Package}.

(** The leaves of a shapes dictionary, in the order the folds visit them. *)
Fixpoint leaves (s : shapes) : list shapes_leaf :=
  match s with
  | ShapesLeaf lf => [lf]
  | ShapesGroup parts => flat_map leaves parts
  end.

(** The box dictionary of a leaf that has one. *)
Definition leaf_box (lf : shapes_leaf) : option bbox_dict :=
  match l_bb lf with Some (Some d) => Some d | _ => None end.

(** The extents and the box that [BoundingBox(shape, optimal)] computes. *)
Definition shape_extents (opt : bool) (s : Shape) : bnd_values :=
  match BRepBndLib_Add opt s with
  | Some (v0, v1, v2, v3, v4, v5) => (v0, v3, v1, v4, v2, v5)
  | None =>
      let c := CentreOfMass s in
      (c.1.1 - tol_default, c.1.1 + tol_default,
       c.1.2 - tol_default, c.1.2 + tol_default,
       c.2 - tol_default, c.2 + tol_default)
  end.

Definition shape_box (opt : bool) (s : Shape) : BoundingBox :=
  _calc (set_extents (blank_box opt) (shape_extents opt s)).

(** The placement-normalised geometry of a shape, in the words of the
    specification: the shape moved by the inverse of its own location, as
    the kernel hands it out for its shape type.  Stated on the kernel alone,
    not through [relocated]. *)
Definition placement_normalized (s : Shape) : Shape :=
  let moved := Moved s (Inverted (Shape_Location s)) in
  downcast_LUT (ShapeType moved) moved.

(** Two shapes have the same geometry when their placement-normalised
    geometries are equal for the kernel. *)
Definition same_geometry (s1 s2 : Shape) : Prop :=
  shape_eqb (placement_normalized s1) (placement_normalized s2) = true.

(** The geometry an object of kind [kd] made from the values [objs] stands
    for, stated on the kernel alone.  One shape that is not a compound
    stands for itself; a compound with exactly one child for that child, as
    the kernel hands it out for its shape type; a compound with another
    number of children for the list of its children when the kind is edge
    or vertex, and for itself otherwise; one list for itself.  Any other
    number of shapes is merged into one compound for the kinds solid, face
    and shell, and kept as the list it is for every other kind. *)
Inductive unified (kd : string) : list geom → geom → Prop :=
| unified_single (s : Shape) :
    ShapeType s ≠ TopAbs_COMPOUND →
    unified kd [GShape s] (GShape s)
| unified_only_child (s x : Shape) :
    ShapeType s = TopAbs_COMPOUND → list_topods_compound s = [x] →
    unified kd [GShape s] (GShape (downcast_LUT (ShapeType x) x))
| unified_children (s : Shape) :
    ShapeType s = TopAbs_COMPOUND → length (list_topods_compound s) ≠ 1%nat →
    kd ∈ ["edge"; "vertex"] →
    unified kd [GShape s] (GList (GShape <$> list_topods_compound s))
| unified_compound (s : Shape) :
    ShapeType s = TopAbs_COMPOUND → length (list_topods_compound s) ≠ 1%nat →
    kd ∉ ["edge"; "vertex"] →
    unified kd [GShape s] (GShape s)
| unified_list (l : list geom) :
    unified kd [GList l] (GList l)
| unified_merged (ss : list Shape) :
    length ss ≠ 1%nat → kd ∈ ["solid"; "face"; "shell"] →
    unified kd (GShape <$> ss) (GShape (foldl Builder_Add empty_compound ss))
| unified_kept (objs : list geom) :
    length objs ≠ 1%nat → kd ∉ ["solid"; "face"; "shell"] →
    unified kd objs (GList objs).

(** The linear scan of [get_instance]: the first entry of the table whose
    shape equals [x], with its index. *)
Definition scan (table : list (Shape * string)) (x : Shape) : option (nat * (Shape * string)) :=
  list_find (λ inst, Is_true (shape_eqb inst.1 x)) table.

(** No two entries of an instance table hold equal shapes. *)
Definition distinct_table (table : list (Shape * string)) : Prop :=
  ∀ i j x y, table !! i = Some x → table !! j = Some y →
    shape_eqb x.1 y.1 = true → i = j.

(** Every box the memo table of [bounding_box] would return for an
    instance is the box of that instance's shape. *)
Definition cache_sound (insts : list instance) (c : list (cache_key * BoundingBox))
  : Prop :=
  ∀ inst bb, inst ∈ insts →
    cache_lookup (make_key (OneShape (i_obj inst)) None false) c = Some bb →
    bb = shape_box false (i_obj inst).

(** Instances whose shapes share a hash code have the same box. *)
Definition collision_free (insts : list instance) : Prop :=
  ∀ i j, i ∈ insts → j ∈ insts → HashCode (i_obj i) = HashCode (i_obj j) →
    shape_box false (i_obj i) = shape_box false (i_obj j).

(** The mesh [tessellate_group] asks for an instance: the quality comes
    from the non-optimal box of the instance's own shape, without a
    location, and from the deviation. *)
Definition instance_mesh (deviation angular_tolerance : Q) (render_edges : bool)
    (inst : instance) : result Mesh :=
  tessellate (i_obj inst) (i_cache_id inst) deviation
    (compute_quality (shape_box false (i_obj inst)) deviation)
    angular_tolerance render_edges.

(** The meshes of a list of instances, in order, up to the first failure. *)
Fixpoint mesh_all (deviation angular_tolerance : Q) (render_edges : bool)
    (insts : list instance) : result (list Mesh) :=
  match insts with
  | [] => Ok []
  | inst :: rest =>
      mesh ← instance_mesh deviation angular_tolerance render_edges inst;
      meshes ← mesh_all deviation angular_tolerance render_edges rest;
      Ok (mesh :: meshes)
  end.

(** What the walk of [_add_bb] does at a leaf: nothing for a leaf that is
    not of type ["shapes"], else the value [np_bbox] returns for it. *)
Definition leaf_bbox (meshed_instances : list Mesh) (lf : shapes_leaf)
  : option (result (option bbox_dict)) :=
  if String.eqb (l_type lf) "shapes" then
    match meshed_instances !! l_ref lf, l_loc lf with
    | Some mesh, Some (t, q) => Some (np_bbox (mesh_vertices mesh) t q)
    | _, _ => Some (Raise (IndexError "list index out of range"))
    end
  else None.

(** The leaf is skipped or gets a box. *)
Definition leaf_boxed (meshed_instances : list Mesh) (lf : shapes_leaf) : Prop :=
  match leaf_bbox meshed_instances lf with
  | None => True
  | Some r => ∃ d, r = Ok (Some d)
  end.

(** The leaf is skipped, gets a box, or gets [None] from [np_bbox]. *)
Definition leaf_runs (meshed_instances : list Mesh) (lf : shapes_leaf) : Prop :=
  match leaf_bbox meshed_instances lf with
  | None => True
  | Some r => ∃ bb, r = Ok bb
  end.

(** The state [st] with its standard output replaced. *)
Definition with_stdout (st : state) (out : list printed) : state :=
  mkState (instances st) (progress st) out (cache st).

(** The leaf refers to a mesh whose vertex buffer is empty. *)
Definition leaf_empty (meshed_instances : list Mesh) (lf : shapes_leaf) : Prop :=
  leaf_bbox meshed_instances lf = Some (Ok None).

(** [alpha], when given, replaces the alpha channel of [c]. *)
Definition with_alpha (alpha : option Q) (c : Color) : Color :=
  match alpha with Some al => set_a c al | None => c end.

(** A supplied list of names, colours or alphas has not one entry per
    object. *)
Definition arity_mismatch (n : nat) (names : option (list (option string)))
    (colors : option (list (option color_value))) (alphas : option (list (option Q)))
  : Prop :=
  (∃ ns, names = Some ns ∧ length ns ≠ n)
  ∨ (∃ cs, colors = Some cs ∧ length cs ≠ n)
  ∨ (∃ als, alphas = Some als ∧ length als ≠ n).

(** The nodes the bodies [todo] yield when they are run one after the
    other, each with its name and colour and from the state the one before
    left it in: a body that yields no node contributes nothing, and the
    first exception ends the run. *)
Fixpoint produced
    (todo : list ((option string → option rgba → M (option OcpNode))
                  * (option string * option rgba)))
  : M (list OcpNode) :=
  match todo with
  | [] => mret []
  | (body, (obj_name, rgba_color)) :: rest =>
      r ← body obj_name rgba_color;
      ns ← produced rest;
      mret (option_list r ++ ns)
  end.

(** The loop of [to_ocp] when neither names nor colours are given, and the
    group it starts from. *)
Definition unnamed (sketch_local : bool) (helper_scale : Q) (level : nat)
    (cad_objs : list pyobj)
  : list ((option string → option rgba → M (option OcpNode))
          * (option string * option rgba)) :=
  (λ o, (to_ocp_body o sketch_local helper_scale level, (None, None))) <$> cad_objs.

Definition empty_group (l : option Location) : OcpNode :=
  OcpGroup OcpGroup_default_name (Some (LocLocation (default TopLoc_identity l))) [].

(** The exception of a call of [handle_build123d_assembly] with one
    positional argument too few. *)
Definition missing_level : exception :=
  TypeError "handle_build123d_assembly() missing 1 required positional argument: 'level'".

End Notions.

(** Laws of the kernel: shape equality is an equivalence, and locations
    form a group that acts on shapes through [Moved]. *)
Class KernelLaws (K : Kernel) : Prop := {
  shape_eqb_refl : ∀ s, shape_eqb s s = true;
  shape_eqb_sym : ∀ s t, shape_eqb s t = true → shape_eqb t s = true;
  shape_eqb_trans : ∀ s t u,
    shape_eqb s t = true → shape_eqb t u = true → shape_eqb s u = true;
  Location_Moved : ∀ s p, Shape_Location (Moved s p) = Multiplied p (Shape_Location s);
  Moved_Moved : ∀ s p q, Moved (Moved s p) q = Moved s (Multiplied q p);
  Multiplied_assoc : ∀ a b c,
    Multiplied (Multiplied a b) c = Multiplied a (Multiplied b c);
  Inverted_Multiplied : ∀ a b,
    Inverted (Multiplied a b) = Multiplied (Inverted b) (Inverted a);
  Multiplied_Inverted_l : ∀ a, Multiplied (Inverted a) a = TopLoc_identity;
  Multiplied_identity_r : ∀ a, Multiplied a TopLoc_identity = a;
}.

(** ** A small kernel and package on which the definitions run

    Shapes are a type, an identity of the underlying geometry and a
    translation along one axis; locations are translations. *)
Module Toy.

Record shape : Type := mkShape {
  s_type : TopAbs_ShapeEnum;
  s_geometry : nat;
  s_place : Z;
}.

Global Instance shape_eq_dec : EqDecision shape.
Proof. solve_decision. Defined.

Definition side (s : shape) : Q := inject_Z (Z.of_nat (s_geometry s)).

Definition kernel : Kernel := {|
  Shape := shape;
  Location := Z;
  shape_eqb := λ s t, bool_decide (s = t);
  ShapeType := s_type;
  downcast_LUT := λ _ s, s;
  Shape_Location := s_place;
  Moved := λ s l, mkShape (s_type s) (s_geometry s) (l + s_place s);
  Inverted := Z.opp;
  Multiplied := Z.add;
  TopLoc_identity := 0%Z;
  Location_tq := λ l, ((inject_Z l, 0, 0), (0, 0, 0, 1));
  empty_compound := mkShape TopAbs_COMPOUND 0 0;
  Builder_Add := λ c s, mkShape TopAbs_COMPOUND (S (s_geometry c + s_geometry s)) 0;
  list_topods_compound := λ _, [];
  TopExp_Explorer := λ _ _, [];
  get_compound_type := λ _, "Solid";
  BRepBndLib_Add := λ _ s,
    if (s_geometry s =? 0)%nat then None
    else Some (inject_Z (s_place s), 0, 0, inject_Z (s_place s) + side s, side s, side s);
  CentreOfMass := λ s, (inject_Z (s_place s), 0, 0);
  HashCode := λ s, Z.of_nat (s_geometry s);
  BinTools_Write := λ _, "";
  sha256_hexdigest := λ s, s;
  rotate_vectors := λ _ v, v;
|}.

Definition color_of (c : option color_value) : Color :=
  match c with
  | None => mkColor 160 160 160 1
  | Some (ColorName _) => mkColor 218 112 214 1
  | Some (ColorTuple3 r g b) => mkColor r g b 1
  | Some (ColorTuple4 r g b al) => mkColor r g b al
  | Some (ColorObj c) => c
  | Some (ColorOcp r g b al) => mkColor r g b al
  end.

Definition mesh_of (s : shape) : list Q :=
  [inject_Z (s_place s); 0; 0; inject_Z (s_place s) + side s; side s; side s].

Definition package : @Package kernel :=
  @Build_Package kernel
    color_of                                   (* Color_init *)
    (λ c, (red c, green c, blue c))            (* percentage *)
    (λ ns, ns)                                 (* make_unique *)
    (λ _, "Solid")                             (* type_name *)
    (λ x, match x with PyOpaque ty => ty | _ => "<class 'object'>" end)
    (λ _, "object")                            (* py_str *)
    (ColorTuple3 160 160 160)                  (* default_color *)
    (λ _ v, default (1 # 10) v)                (* preset *)
    (λ _ v, default true v)                    (* preset_flag *)
    "Group"                                    (* OcpGroup_default_name *)
    (λ n, n) (λ n, n) (λ _, "node")            (* make_unique_names, cleanup, repr *)
    unit unit                                  (* Mapping, States *)
    (λ _ _, mret (tt, ShapesGroup []))         (* collect *)
    (λ _, tt)                                  (* to_state *)
    (λ a b, a)                                 (* mul_locations *)
    (list Q) (λ m, m)                          (* Mesh, mesh_vertices *)
    (λ bb deviation, deviation * (xsize bb + ysize bb + zsize bb))
    (λ s _ _ _ _ _, Ok (mesh_of s)).           (* tessellate *)

Definition st0 : @state kernel := mkState [] true [] [].

Definition cube (n : nat) (at_x : Z) : @Shape kernel := mkShape TopAbs_SOLID n at_x.
Definition compound (n : nat) (at_x : Z) : @Shape kernel :=
  mkShape TopAbs_COMPOUND n at_x.
Definition edge (n : nat) (at_x : Z) : @Shape kernel := mkShape TopAbs_EDGE n at_x.

End Toy.

(** * Further functions of the two modules *)

(** ** [BoundingBox.is_empty] *)

Definition is_empty (self : BoundingBox) : bool :=
  (if Qlt_le_dec (Qabs (xmax self - xmin self)) (1 # 100) then true else false)
  && (if Qlt_le_dec (Qabs (ymax self - ymin self)) (1 # 100) then true else false)
  && (if Qlt_le_dec (Qabs (zmax self - zmin self)) (1 # 100) then true else false).

(** ** Notions on extents *)

(** On every axis the lower extent is not above the upper one. *)
Definition ordered (v : bnd_values) : Prop :=
  let '(x0, x1, y0, y1, z0, z1) := v in x0 <= x1 ∧ y0 <= y1 ∧ z0 <= z1.

(** The box [inner] lies in the box [outer]. *)
Definition inside (inner outer : bnd_values) : Prop :=
  let '(a0, a1, b0, b1, c0, c1) := inner in
  let '(x0, x1, y0, y1, z0, z1) := outer in
  x0 <= a0 ∧ a1 <= x1 ∧ y0 <= b0 ∧ b1 <= y1 ∧ z0 <= c0 ∧ c1 <= z1.

(** The same six numbers, as rationals. *)
Definition same_extents (u v : bnd_values) : Prop :=
  let '(a0, a1, b0, b1, c0, c1) := u in
  let '(x0, x1, y0, y1, z0, z1) := v in
  a0 == x0 ∧ a1 == x1 ∧ b0 == y0 ∧ b1 == y1 ∧ c0 == z0 ∧ c1 == z1.

(** The intervals [[a0, a1]] and [[b0, b1]] have a common point. *)
Definition overlap (a0 a1 b0 b1 : Q) : Prop := a0 <= b1 ∧ b0 <= a1.

(** The extents of a box dictionary. *)
Definition dict_extents (d : bbox_dict) : bnd_values :=
  (d_xmin d, d_xmax d, d_ymin d, d_ymax d, d_zmin d, d_zmax d).

(** [self.update(d)] for each dictionary of [ds] in turn. *)
Definition update_all (self : BoundingBox) (ds : list bbox_dict) (minimize : bool)
  : result BoundingBox :=
  foldl (λ acc d, self ← acc; update self (ArgDict d) minimize) (Ok self) ds.

(** Two boxes that agree on the flag and, as rationals, on the extents. *)
Definition box_equiv (b b' : BoundingBox) : Prop :=
  optimal b = optimal b' ∧ same_extents (extents b) (extents b').

Section MemoNotions.
Context {K : Kernel}.

(** The shape whose box [bounding_box] computes on a miss. *)
Definition box_target (objs : shape_arg) (l : option Location) : Shape :=
  let compound :=
    match objs with
    | ShapeSeq ss => make_compound ss
    | OneShape s => s
    end in
  match l with None => compound | Some l => Moved compound l end.

End MemoNotions.

(** ** Notions on shapes dictionaries *)

(** The dictionary with every leaf replaced by its image under [f]. *)
Fixpoint map_leaves (f : shapes_leaf → shapes_leaf) (s : shapes) : shapes :=
  match s with
  | ShapesLeaf lf => ShapesLeaf (f lf)
  | ShapesGroup parts => ShapesGroup (map (map_leaves f) parts)
  end.

(** The box dictionary of the origin. *)
Definition zero_dict : bbox_dict := BBoxDict 0 0 0 0 0 0.

(** The boxes [combined_bb] folds: the boxes of the leaves that have one,
    in order, after the origin when the first leaf's ["bb"] is [None]. *)
Definition seeds (ls : list shapes_leaf) : list bbox_dict :=
  match ls with
  | lf :: _ => match l_bb lf with Some None => [zero_dict] | _ => [] end
  | [] => []
  end ++ omap leaf_box ls.

(** What the leaves [ls] add to the fold of [c_bb] that has reached them
    with the box [acc]. *)
Definition contrib (acc : option BoundingBox) (ls : list shapes_leaf) : list bbox_dict :=
  match acc with None => seeds ls | Some _ => omap leaf_box ls end.

(** The outcome of a run of [c_bb] from the box [acc] on the leaves [ls],
    which become the dictionary [t]. *)
Definition c_bb_outcome (run : result (shapes * option BoundingBox)) (t : shapes)
    (acc : option BoundingBox) (ls : list shapes_leaf) : Prop :=
  (Forall (λ lf, is_Some (l_bb lf)) ls
   ∧ ∃ acc', run = Ok (t, acc')
       ∧ (ls = [] → acc' = acc) ∧ (acc' = None → acc = None ∧ ls = [])
       ∧ ∀ ds, spans acc ds → spans acc' (ds ++ contrib acc ls))
  ∨ (Exists (λ lf, l_bb lf = None) ls ∧ run = Raise (KeyError "bb")).

Section WalkNotions.
Context {K : Kernel} {P : Package}.

(** The leaf as [_add_bb] leaves it: a leaf of type ["shapes"] gets the
    value of [np_bbox] as its ["bb"], any other leaf is not touched. *)
Definition annotate (meshed_instances : list Mesh) (lf : shapes_leaf) : shapes_leaf :=
  match leaf_bbox meshed_instances lf with
  | Some (Ok bb) => set_bb lf (Some bb)
  | _ => lf
  end.

(** The box [np_bbox] gives for a leaf of type ["shapes"]. *)
Definition new_box (meshed_instances : list Mesh) (lf : shapes_leaf) : option bbox_dict :=
  match leaf_bbox meshed_instances lf with
  | Some (Ok (Some d)) => Some d
  | _ => None
  end.

End WalkNotions.

(** ** Topology accessors of [ocp_utils] *)

Section Topology.
Context {K : Kernel}.

Definition get_solids (shape : Shape) : list Shape := _get_topo shape TopAbs_SOLID.
Definition get_faces (shape : Shape) : list Shape := _get_topo shape TopAbs_FACE.
Definition get_wires (shape : Shape) : list Shape := _get_topo shape TopAbs_WIRE.
Definition get_vertices (shape : Shape) : list Shape := _get_topo shape TopAbs_VERTEX.

(** [next(e, None) is not None] for a generator [e] of shapes. *)
Definition has_next (e : list Shape) : bool :=
  match e with [] => false | _ :: _ => true end.

(** [get_downcasted_shape]: [None] stands for
    [NotImplementedError("Unknow TopoDS Compound")]. *)
Definition get_downcasted_shape (shape : Shape) : option (list Shape) :=
  let objs : option (list Shape) :=
    if has_next (get_solids shape) then Some (get_solids shape)
    else if has_next (get_faces shape) then Some (get_faces shape)
    else if has_next (get_wires shape) then Some (get_wires shape)
    else if has_next (@get_edges K shape) then Some (@get_edges K shape)
    else if has_next (get_vertices shape) then Some (get_vertices shape)
    else None in
  match objs with
  | Some objs => Some (map (@downcast K) objs)
  | None => None
  end.

(** [isinstance(s, TopoDS_Solid)] and the like, for a downcast shape. *)
Definition is_topods_solid (s : Shape) : bool := bool_decide (ShapeType s = TopAbs_SOLID).
Definition is_topods_face (s : Shape) : bool := bool_decide (ShapeType s = TopAbs_FACE).
Definition is_topods_edge (s : Shape) : bool := bool_decide (ShapeType s = TopAbs_EDGE).
Definition is_topods_vertex (s : Shape) : bool :=
  bool_decide (ShapeType s = TopAbs_VERTEX).

Definition is_solids_compound (s : Shape) : bool :=
  if @is_topods_compound K s then has_next (get_solids s) else false.
Definition is_faces_compound (s : Shape) : bool :=
  if @is_topods_compound K s then has_next (get_faces s) else false.
Definition is_wires_compound (s : Shape) : bool :=
  if @is_topods_compound K s then has_next (get_wires s) else false.
Definition is_edges_compound (s : Shape) : bool :=
  if @is_topods_compound K s then has_next (@get_edges K s) else false.
Definition is_vertices_compound (s : Shape) : bool :=
  if @is_topods_compound K s then has_next (get_vertices s) else false.

Definition is_solid_list (l : list Shape) : bool := forallb is_topods_solid l.
Definition is_face_list (l : list Shape) : bool := forallb is_topods_face l.
Definition is_wire_list (l : list Shape) : bool := forallb (@is_topods_wire K) l.
Definition is_edge_list (l : list Shape) : bool := forallb is_topods_edge l.
Definition is_vertex_list (l : list Shape) : bool := forallb is_topods_vertex l.

End Topology.

(** ** Notions on runs of the converter *)

Section RunNotions.
Context {K : Kernel} {P : Package}.

(** The recursive call [self.to_ocp(o, ...)] the handlers make. *)
Definition self_call : to_ocp_call :=
  λ o names colors sketch_local helper_scale level,
    to_ocp_gen [to_ocp_body o sketch_local helper_scale level] names colors None None.

(** Every run of [m], whether it returns or raises, takes a state to one
    that is [R]-related to it. *)
Definition keeps (R : state → state → Prop) {A} (m : M A) : Prop :=
  ∀ st, R st (m st).2.

(** The instance table and the standard output of [st'] are those of [st]
    with entries appended, and the memo table of [bounding_box] and the
    progress flag are the same. *)
Definition extends (st st' : state) : Prop :=
  (∃ ext, instances st' = instances st ++ ext)
  ∧ (∃ out, stdout st' = stdout st ++ out)
  ∧ cache st' = cache st ∧ progress st' = progress st.

(** A table without duplicates stays without duplicates. *)
Definition stays_distinct (st st' : state) : Prop :=
  distinct_table (instances st) → distinct_table (instances st').

(** The [ref]s of the leaves of a tree. *)
Fixpoint node_refs (n : OcpNode) : list nat :=
  match n with
  | OcpLeaf o => match ref o with Some i => [i] | None => [] end
  | OcpGroup _ _ objs => flat_map node_refs objs
  end.

(** Every [ref] of the tree is an index into the instance table. *)
Definition refs_valid (n : OcpNode) (st : state) : Prop :=
  Forall (λ i, (i < length (instances st))%nat) (node_refs n).

(** A body of the loop of [to_ocp] that only appends to the table and
    returns nodes whose [ref]s are indices into it. *)
Definition good_body (body : option string → option rgba → M (option OcpNode)) : Prop :=
  ∀ nm col,
    keeps extends (body nm col)
    ∧ ∀ st n st', body nm col st = (Ok (Some n), st') → refs_valid n st'.

(** A recursive call that only appends to the table and returns trees
    whose [ref]s are indices into it. *)
Definition good_call (self : to_ocp_call) (o : pyobj) : Prop :=
  ∀ names colors sl hs lvl,
    keeps extends (self o names colors sl hs lvl)
    ∧ ∀ st g st', self o names colors sl hs lvl st = (Ok g, st') → refs_valid g st'.

End RunNotions.

(** ** [OcpConverter.handle_shapelist] *)

Section ShapeLists.
Context {K : Kernel} {P : Package}.

(** An element of a build123d [ShapeList] or of [Workplane.vals()]: an
    object [o] with [o.wrapped], the wrapped shapes of [o.edges()] and, for
    a CadQuery compound, the elements of [list(o)]. *)
Inductive shape_obj : Type :=
| ShapeObj (wrapped : Shape) (edges : list Shape) (items : list shape_obj).

Definition so_wrapped (o : shape_obj) : Shape :=
  match o with ShapeObj wrapped _ _ => wrapped end.
Definition so_edges (o : shape_obj) : list Shape :=
  match o with ShapeObj _ edges _ => edges end.
Definition so_items (o : shape_obj) : list shape_obj :=
  match o with ShapeObj _ _ items => items end.

(** The argument [cad_obj]: a build123d [ShapeList], or a CadQuery
    [Workplane] given by its [vals()]. *)
Inductive shapelist_arg : Type :=
| B123dShapeList (l : list shape_obj)
| CqWorkplane (vals : list shape_obj).

(** [utils.flatten] *)
Variable flatten : list (list shape_obj) → list shape_obj.

(** [objs[0]] *)
Definition first_item {A} (l : list A) : result A :=
  match l with
  | x :: _ => Ok x
  | [] => Raise (IndexError "list index out of range")
  end.

(** The list [cad_obj] has neither [name] nor [label], so [get_name] is
    called on a value without attributes. *)
Definition handle_shapelist (cad_obj : shapelist_arg) (obj_name : option string)
    (rgba_color : option rgba) (sketch_local : bool) (level : nat) : M OcpObject :=
  nc ← match cad_obj with
       | B123dShapeList l =>
           _ ← _debug level "handle_shapelist (build123d ShapeList)" obj_name;
           mret ("ShapeList", l)
       | CqWorkplane vals =>
           _ ← _debug level "handle_shapelist (cadquery Workplane)" obj_name;
           mret ("Workplane",
                 match vals with
                 | o :: _ =>
                     if is_topods_compound (so_wrapped o)
                     then flatten (so_items <$> vals) else vals
                 | [] => vals
                 end)
       end;
  let name : string := nc.1 in
  let cad_obj : list shape_obj := nc.2 in
  typ_objs ← lift
    match cad_obj with
    | o :: _ =>
        if is_topods_wire (so_wrapped o) then Ok ("Wire", flat_map so_edges cad_obj)
        else
          let objs := so_wrapped <$> cad_obj in
          typ ← (first_item objs ≫= get_type);
          Ok (typ, objs)
    | [] =>
        let objs : list Shape := [] in
        typ ← (first_item objs ≫= get_type);
        Ok (typ, objs)
    end;
  let typ : string := typ_objs.1 in
  let objs : list Shape := typ_objs.2 in
  kd ← lift (get_kind typ);
  let nm := get_name (PyList []) obj_name (name +:+ "(" +:+ typ +:+ ")") in
  first ← lift (first_item objs);
  col ← lift (get_color_for_object (mkColored None (class_name first))
                (rgba_value <$> rgba_color) None None);
  if str_in kd ["solid"; "face"; "shell"] then
    unify (GShape <$> objs) kd nm (Some (ColorObj col)) 1
  else
    mret (mkOcpObject kd (Some (GList (GShape <$> objs))) None nm None (Some col)
            (Some (if String.eqb kd "edge" then LINE_WIDTH else POINT_SIZE)) None).

End ShapeLists.

(** ** [get_accuracies] and [get_normal_len] ([convert.py]) *)

(** The entries of a shapes dictionary these two functions read:
    ["parts"], ["type"], ["id"] and ["accuracy"], each present or not; an
    accuracy is a float. *)
Inductive acc_shapes : Type :=
| AccNode (parts : option (list acc_shapes)) (type : option string)
          (id : option string) (accuracy : option Q).

(** [d[key] = value] on a dictionary kept in insertion order. *)
Fixpoint dict_set {V} (d : list (string * V)) (key : string) (value : V)
  : list (string * V) :=
  match d with
  | [] => [(key, value)]
  | (k, v) :: rest =>
      if String.eqb k key then (k, value) :: rest else (k, v) :: dict_set rest key value
  end.

(** The loop [for shape in shapes["parts"]]. *)
Definition _get_accuracies_loop
    (rec : acc_shapes → list (string * Q) → result (list (string * Q)))
  : list acc_shapes → list (string * Q) → result (list (string * Q)) :=
  fix loop (todo : list acc_shapes) (accuracies : list (string * Q)) {struct todo} :=
    match todo with
    | [] => Ok accuracies
    | shape :: rest => accuracies ← rec shape accuracies; loop rest accuracies
    end.

(** [_get_accuracies], the dictionary [accuracies] of the enclosing
    function being passed and returned. *)
Fixpoint _get_accuracies (shapes0 : acc_shapes) (accuracies : list (string * Q))
    {struct shapes0} : result (list (string * Q)) :=
  match shapes0 with
  | AccNode parts type id accuracy =>
      match parts with
      | Some (p :: ps) => _get_accuracies_loop _get_accuracies (p :: ps) accuracies
      | _ =>
          if bool_decide (type = Some "shapes") then
            match accuracy, id with
            | None, _ => Raise (KeyError "accuracy")
            | Some _, None => Raise (KeyError "id")
            | Some value, Some key => Ok (dict_set accuracies key value)
            end
          else Ok accuracies
      end
  end.

Definition get_accuracies (shapes0 : acc_shapes) : result (list (string * Q)) :=
  _get_accuracies shapes0 [].

(** What [get_normal_len] can raise: an exception of [get_accuracies],
    [ValueError] of [max] on no value, or [ZeroDivisionError]. *)
Inductive normal_len_error : Type :=
| NormalLenRaise (e : exception)
| ZeroDivisionError (msg : string).

Definition get_normal_len (render_normals : bool) (shapes0 : acc_shapes) (deviation : Q)
  : normal_len_error + Q :=
  if render_normals then
    match get_accuracies shapes0 with
    | Raise e => inl (NormalLenRaise e)
    | Ok accuracies =>
        match snd <$> accuracies with
        | [] => inl (NormalLenRaise (ValueError "max() arg is an empty sequence"))
        | x :: xs =>
            if Qeq_bool deviation 0 then inl (ZeroDivisionError "float division by zero")
            else inr (py_max_list x xs / deviation * 4)
        end
    end
  else inr 0.

(** The leaves [_get_accuracies] records, in the order it visits them: the
    nodes without a non-empty ["parts"] whose type is ["shapes"], each with
    its ["id"] and ["accuracy"]. *)
Fixpoint recorded (s : acc_shapes) : list (option string * option Q) :=
  match s with
  | AccNode parts type id accuracy =>
      match parts with
      | Some (p :: ps) => flat_map recorded (p :: ps)
      | _ => if bool_decide (type = Some "shapes") then [(id, accuracy)] else []
      end
  end.

(** The pair a recorded leaf stands for. *)
Definition wrap_pair (p : string * Q) : option string * option Q := (Some p.1, Some p.2).


(** ** The small package with a [collect] that makes leaves

    [collect] gives a group with one leaf of type ["shapes"] for each
    instance, referring to it and placed by a translation along the first
    axis, followed by a leaf of type ["edges"]; everything else is as in
    [Toy.package]. *)
Module ToyLeaves.

Definition collect (group : @OcpNode Toy.kernel) (insts : list (@instance Toy.kernel))
  : @M Toy.kernel (unit * shapes) :=
  mret (tt,
        ShapesGroup
          (imap (λ i _, ShapesLeaf
                          (mkLeaf "shapes" i
                             (Some (Some (inject_Z (Z.of_nat i), 0, 0), Some (0, 0, 0, 1)))
                             None)) insts
           ++ [ShapesLeaf (mkLeaf "edges" 0 None None)])).

Definition package : @Package Toy.kernel :=
  @Build_Package Toy.kernel
    Toy.color_of
    (λ c, (red c, green c, blue c))
    (λ ns, ns)
    (λ _, "Solid")
    (λ x, match x with PyOpaque ty => ty | _ => "<class 'object'>" end)
    (λ _, "object")
    (ColorTuple3 160 160 160)
    (λ _ v, default (1 # 10) v)
    (λ _ v, default true v)
    "Group"
    (λ n, n) (λ n, n) (λ _, "node")
    unit unit
    collect
    (λ _, tt)
    (λ a b, a)
    (list Q) (λ m, m)
    (λ bb deviation, deviation * (xsize bb + ysize bb + zsize bb))
    (λ s _ _ _ _ _, Ok (Toy.mesh_of s)).

End ToyLeaves.

(** * Properties *)

(** ** Python's [min] and [max] on rationals *)

Lemma py_min_Qmin (a b : Q) : py_min a b = Qmin a b.
Proof.
  unfold py_min, Qmin, GenericMinMax.gmin.
  rewrite <- (Qcompare_antisym a b). by destruct (a ?= b).
Qed.

Lemma py_max_Qmax (a b : Q) : py_max a b = Qmax a b.
Proof.
  unfold py_max, Qmax, GenericMinMax.gmax.
  rewrite <- (Qcompare_antisym a b). by destruct (a ?= b).
Qed.

Lemma Qmin_idem (x : Q) : Qmin x x = x.
Proof. unfold Qmin, GenericMinMax.gmin. by destruct (x ?= x). Qed.

Lemma Qmax_idem (x : Q) : Qmax x x = x.
Proof. unfold Qmax, GenericMinMax.gmax. by destruct (x ?= x). Qed.

Lemma Qmin_cases (x y : Q) : Qmin x y = x ∨ Qmin x y = y.
Proof. unfold Qmin, GenericMinMax.gmin. destruct (x ?= y); auto. Qed.

Lemma Qmax_cases (x y : Q) : Qmax x y = x ∨ Qmax x y = y.
Proof. unfold Qmax, GenericMinMax.gmax. destruct (x ?= y); auto. Qed.

Lemma least_singleton (x : Q) : least x [x].
Proof.
  split; [apply list_elem_of_singleton; done|].
  constructor; [apply Qle_refl | constructor].
Qed.

Lemma greatest_singleton (x : Q) : greatest x [x].
Proof.
  split; [apply list_elem_of_singleton; done|].
  constructor; [apply Qle_refl | constructor].
Qed.

Lemma least_snoc (m d : Q) (l : list Q) : least m l → least (Qmin d m) (l ++ [d]).
Proof.
  intros [Hin Hle]. split.
  - apply elem_of_app. destruct (Qmin_cases d m) as [-> | ->].
    + right. by apply list_elem_of_singleton.
    + by left.
  - apply Forall_app. split.
    + eapply Forall_impl; [|exact Hle]. intros x Hx. simpl in *.
      eapply Qle_trans; [apply Q.le_min_r | exact Hx].
    + constructor; [apply Q.le_min_l | constructor].
Qed.

Lemma greatest_snoc (m d : Q) (l : list Q) :
  greatest m l → greatest (Qmax d m) (l ++ [d]).
Proof.
  intros [Hin Hle]. split.
  - apply elem_of_app. destruct (Qmax_cases d m) as [-> | ->].
    + right. by apply list_elem_of_singleton.
    + by left.
  - apply Forall_app. split.
    + eapply Forall_impl; [|exact Hle]. intros x Hx. simpl in *.
      eapply Qle_trans; [exact Hx | apply Q.le_max_r].
    + constructor; [apply Q.le_max_l | constructor].
Qed.

(** ** Induction on a shapes dictionary *)

Lemma shapes_nested_ind (Pr : shapes → Prop) :
  (∀ lf, Pr (ShapesLeaf lf)) →
  (∀ parts, Forall Pr parts → Pr (ShapesGroup parts)) →
  ∀ s, Pr s.
Proof.
  intros Hleaf Hgroup. fix IH 1. intros [parts | lf].
  - apply Hgroup. induction parts as [| x xs IHxs]; constructor; auto.
  - apply Hleaf.
Qed.

(** ** [BoundingBox.update] *)

Lemma extents_calc (b : BoundingBox) : extents (_calc b) = extents b.
Proof. reflexivity. Qed.

Lemma extents_set (b : BoundingBox) (v : bnd_values) : extents (set_extents b v) = v.
Proof. by destruct v as [[[[[??]?]?]?]?]. Qed.

Lemma calc_set_extents_self (b : BoundingBox) :
  _calc (set_extents (_calc b) (extents (_calc b))) = _calc b.
Proof. reflexivity. Qed.

Lemma c_bb_leaf_spans (lf : shapes_leaf) (d : bbox_dict) (acc : option BoundingBox)
    (ds : list bbox_dict) :
  leaf_box lf = Some d → spans acc ds →
  ∃ acc', c_bb_leaf lf acc = Ok (set_bb lf None, Some acc') ∧ spans (Some acc') (ds ++ [d]).
Proof.
  unfold leaf_box, c_bb_leaf. destruct (l_bb lf) as [[d' |] |]; try done.
  intros [= ->] Hs. destruct acc as [b |]; simpl in *.
  - eexists; split; [reflexivity|]. simpl.
    destruct Hs as (H1 & H2 & H3 & H4 & H5 & H6).
    rewrite !fmap_app, !py_min_Qmin, !py_max_Qmax. simpl.
    repeat split; try (by apply least_snoc); try (by apply greatest_snoc);
      try (by apply least_snoc in H1); try (by apply least_snoc in H3);
      try (by apply least_snoc in H5); try (by apply greatest_snoc in H2);
      try (by apply greatest_snoc in H4); try (by apply greatest_snoc in H6).
  - subst ds. eexists; split; [reflexivity|]. simpl.
    repeat split; try apply list_elem_of_singleton; try done;
      repeat constructor; apply Qle_refl.
Qed.

(** What a nested group contributes to the fold of [c_bb]. *)
Lemma c_bb_loop_spans
    (rec : shapes → option BoundingBox → result (shapes * option BoundingBox))
    (todo : list shapes) :
  Forall (λ s, match s with
               | ShapesLeaf _ => True
               | ShapesGroup _ =>
                   ∀ acc ds, Forall (λ lf, is_Some (leaf_box lf)) (leaves s) →
                     spans acc ds →
                     ∃ t acc', rec s acc = Ok (t, acc')
                               ∧ spans acc' (ds ++ omap leaf_box (leaves s))
               end) todo →
  ∀ seen acc ds,
    Forall (λ lf, is_Some (leaf_box lf)) (flat_map leaves todo) → spans acc ds →
    ∃ t acc', c_bb_loop rec todo seen acc = Ok (t, acc')
              ∧ spans acc' (ds ++ omap leaf_box (flat_map leaves todo)).
Proof.
  induction 1 as [| x rest Hx _ IH]; intros seen acc ds Hall Hs.
  - simpl. rewrite app_nil_r. eauto.
  - simpl in Hall. apply Forall_app in Hall as [Hx' Hrest].
    destruct x as [parts | lf].
    + destruct (Hx acc ds Hx' Hs) as (t & acc1 & Hrec & Hs1).
      simpl. rewrite Hrec. simpl.
      destruct (IH (seen ++ [t]) acc1 _ Hrest Hs1) as (t' & acc2 & Hl & Hs2).
      exists t', acc2. split; [exact Hl|].
      rewrite omap_app, app_assoc. exact Hs2.
    + simpl in Hx'. apply Forall_singleton in Hx' as [d Hd].
      destruct (c_bb_leaf_spans lf d acc ds Hd Hs) as (acc1 & Hleaf & Hs1).
      simpl. rewrite Hleaf. simpl.
      destruct (IH (seen ++ [ShapesLeaf (set_bb lf None)]) (Some acc1) _ Hrest Hs1)
        as (t' & acc2 & Hl & Hs2).
      exists t', acc2. split; [exact Hl|].
      rewrite Hd. simpl. rewrite <- app_assoc in Hs2. exact Hs2.
Qed.

Lemma c_bb_spans (s : shapes) :
  match s with
  | ShapesLeaf _ => True
  | ShapesGroup _ =>
      ∀ acc ds, Forall (λ lf, is_Some (leaf_box lf)) (leaves s) → spans acc ds →
        ∃ t acc', c_bb s acc = Ok (t, acc') ∧ spans acc' (ds ++ omap leaf_box (leaves s))
  end.
Proof.
  induction s as [lf | parts IH] using shapes_nested_ind; [done|].
  intros acc ds Hall Hs. simpl.
  apply (c_bb_loop_spans c_bb parts IH [] acc ds Hall Hs).
Qed.

Lemma omap_all_Some {A B} (f : A → option B) (l : list A) :
  Forall (λ x, is_Some (f x)) l → length (omap f l) = length l.
Proof.
  induction 1 as [| x xs [y Hy] _ IH]; [done|].
  change (omap f (x :: xs)) with (match f x with Some y => y :: omap f xs | None => omap f xs end).
  rewrite Hy. simpl. f_equal. exact IH.
Qed.

(** C3. [update] with [minimize=False] sets every extent to the
    componentwise minimum of the two lower bounds and maximum of the two
    upper bounds (the wider interval), with [minimize=True] to the narrower
    interval, for a box given as an object or as a dictionary; merging a box
    with itself changes no extent, and leaves a box that went through
    [_calc] exactly as it was; and the fold of [combined_bb] over a group
    whose leaves carry the boxes B1..Bn (n > 0) returns the box whose lower
    bounds are the least and whose upper bounds are the greatest of the
    corresponding bounds of all the Bi. *)
Theorem update_union_law :
  (∀ self bb, ∃ b', update self (ArgBox bb) false = Ok b'
     ∧ extents b' = (Qmin (xmin bb) (xmin self), Qmax (xmax bb) (xmax self),
                     Qmin (ymin bb) (ymin self), Qmax (ymax bb) (ymax self),
                     Qmin (zmin bb) (zmin self), Qmax (zmax bb) (zmax self)))
  ∧ (∀ self bb, ∃ b', update self (ArgBox bb) true = Ok b'
     ∧ extents b' = (Qmax (xmin bb) (xmin self), Qmin (xmax bb) (xmax self),
                     Qmax (ymin bb) (ymin self), Qmin (ymax bb) (ymax self),
                     Qmax (zmin bb) (zmin self), Qmin (zmax bb) (zmax self)))
  ∧ (∀ self d minimize,
       update self (ArgDict d) minimize
       = update self (ArgBox (BoundingBox_of_dict d)) minimize)
  ∧ (∀ b minimize, ∃ b', update b (ArgBox b) minimize = Ok b'
       ∧ extents b' = extents b)
  ∧ (∀ b minimize, update (_calc b) (ArgBox (_calc b)) minimize = Ok (_calc b))
  ∧ (∀ parts,
       leaves (ShapesGroup parts) ≠ [] →
       Forall (λ lf, is_Some (leaf_box lf)) (leaves (ShapesGroup parts)) →
       ∃ b, combined_bb (ShapesGroup parts) = Ok (Some b)
            ∧ spans (Some b) (omap leaf_box (leaves (ShapesGroup parts)))).
Proof.
  split_and!.
  - intros self bb. eexists. split; [reflexivity|].
    rewrite extents_calc, extents_set. simpl.
    by rewrite !py_min_Qmin, !py_max_Qmax.
  - intros self bb. eexists. split; [reflexivity|].
    rewrite extents_calc, extents_set. simpl.
    by rewrite !py_min_Qmin, !py_max_Qmax.
  - intros self d minimize. reflexivity.
  - intros b minimize. eexists. split; [reflexivity|].
    rewrite extents_calc, extents_set. unfold extents.
    destruct minimize; simpl;
      by rewrite !py_min_Qmin, !py_max_Qmax, !Qmin_idem, !Qmax_idem.
  - intros b minimize. unfold update.
    assert (Hext : ∀ c : BoundingBox,
      (lower minimize (xmin c) (xmin c), upper minimize (xmax c) (xmax c),
       lower minimize (ymin c) (ymin c), upper minimize (ymax c) (ymax c),
       lower minimize (zmin c) (zmin c), upper minimize (zmax c) (zmax c))
      = extents c).
    { intros c. unfold extents.
      destruct minimize; simpl;
        by rewrite !py_min_Qmin, !py_max_Qmax, !Qmin_idem, !Qmax_idem. }
    rewrite Hext. by rewrite calc_set_extents_self.
  - intros parts Hne Hall.
    destruct (c_bb_spans (ShapesGroup parts) None [] Hall eq_refl)
      as (t & acc' & Hc & Hs).
    unfold combined_bb. rewrite Hc. simpl in Hs |- *.
    destruct acc' as [b |].
    + by exists b.
    + exfalso. simpl in Hs, Hne, Hall.
      apply (f_equal length) in Hs. rewrite omap_all_Some in Hs by exact Hall.
      destruct (flat_map leaves parts); [by apply Hne | discriminate Hs].
Qed.

Lemma update_union_law_witness :
  ∃ b, combined_bb
         (ShapesGroup
            [ShapesLeaf (mkLeaf "shapes" 0 None (Some (Some (BBoxDict 0 1 0 1 0 1))));
             ShapesGroup
               [ShapesLeaf (mkLeaf "shapes" 1 None
                              (Some (Some (BBoxDict (-2) 3 4 5 (-1) (1 # 2)))))]])
       = Ok (Some b)
       ∧ extents b = (-2, 3, 0, 5, -1, 1).
Proof.
  destruct (proj2 (proj2 (proj2 (proj2 (proj2 update_union_law))))
              [ShapesLeaf (mkLeaf "shapes" 0 None (Some (Some (BBoxDict 0 1 0 1 0 1))));
               ShapesGroup
                 [ShapesLeaf (mkLeaf "shapes" 1 None
                                (Some (Some (BBoxDict (-2) 3 4 5 (-1) (1 # 2)))))]])
    as (b & Hb & _).
  - simpl. discriminate.
  - simpl. repeat constructor; eexists; reflexivity.
  - exists b. split; [exact Hb|].
    vm_compute in Hb. injection Hb as <-. reflexivity.
Defined.

(** ** Bounding boxes of kernel shapes *)

Section VoidBox.
Context {K : Kernel} {P : Package}.

(** C4. When the kernel reports a void box for a shape, [_bounding_box] and
    the constructor [BoundingBox(shape, optimal)] do not raise: they return
    the box of half-width 1e-6 around the shape's centre of mass on every
    axis, and print the line "Void Bounding Box" with that box; nothing else
    of the state changes. *)
Theorem void_box_substituted (opt : bool) (o : Shape) (st : state) :
  BRepBndLib_Add opt o = None →
  let c := CentreOfMass o in
  let bb := (c.1.1 - (1 # 1000000), c.1.1 + (1 # 1000000),
             c.1.2 - (1 # 1000000), c.1.2 + (1 # 1000000),
             c.2 - (1 # 1000000), c.2 + (1 # 1000000)) in
  _bounding_box opt o tol_default st
    = (Ok bb, with_stdout st (stdout st ++ [VoidBoundingBox bb]))
  ∧ ∃ b, BoundingBox_init (FromShape o) opt st
           = (Ok b, with_stdout st (stdout st ++ [VoidBoundingBox bb]))
         ∧ extents b = bb
         ∧ (center b).1.1 == c.1.1 ∧ (center b).1.2 == c.1.2 ∧ (center b).2 == c.2
         ∧ xsize b == 2 # 1000000 ∧ ysize b == 2 # 1000000 ∧ zsize b == 2 # 1000000.
Proof.
  intros Hvoid c bb.
  assert (H1 : _bounding_box opt o tol_default st
               = (Ok bb, with_stdout st (stdout st ++ [VoidBoundingBox bb]))).
  { unfold _bounding_box. rewrite Hvoid. reflexivity. }
  split; [exact H1|].
  eexists. split.
  - unfold BoundingBox_init. unfold mbind, M_bind. rewrite H1. reflexivity.
  - split; [reflexivity|]. simpl.
    destruct c as [[cx cy] cz]. simpl.
    repeat split; try field; try ring.
Qed.

End VoidBox.

Lemma void_box_substituted_witness :
  ∃ b, @BoundingBox_init Toy.kernel (@FromShape Toy.kernel (Toy.cube 0 5)) false Toy.st0
       = (Ok b, @with_stdout Toy.kernel Toy.st0
                  [VoidBoundingBox (5 - (1 # 1000000), 5 + (1 # 1000000),
                                    0 - (1 # 1000000), 0 + (1 # 1000000),
                                    0 - (1 # 1000000), 0 + (1 # 1000000))])
       ∧ extents b = (5 - (1 # 1000000), 5 + (1 # 1000000),
                      0 - (1 # 1000000), 0 + (1 # 1000000),
                      0 - (1 # 1000000), 0 + (1 # 1000000)).
Proof.
  destruct (@void_box_substituted Toy.kernel false (Toy.cube 0 5) Toy.st0 eq_refl)
    as [_ (b & Hb & He & _)].
  exists b. split; [exact Hb | exact He].
Defined.

(** ** [np_bbox] and the fold of [_add_bb] *)

Lemma foldl_Qmin_least (l : list Q) : ∀ x, least (foldl Qmin x l) (x :: l).
Proof.
  induction l as [| y l IH]; intros x; [apply least_singleton|].
  simpl. destruct (IH (Qmin x y)) as [Hin Hle]. split.
  - apply elem_of_cons in Hin as [-> | Hin].
    + destruct (Qmin_cases x y) as [-> | ->]; [left | right; left].
    + right; right; exact Hin.
  - inversion_clear Hle as [| ? ? Hm Hl].
    constructor; [| constructor; [| exact Hl]].
    + eapply Qle_trans; [exact Hm | apply Q.le_min_l].
    + eapply Qle_trans; [exact Hm | apply Q.le_min_r].
Qed.

Lemma foldl_Qmax_greatest (l : list Q) : ∀ x, greatest (foldl Qmax x l) (x :: l).
Proof.
  induction l as [| y l IH]; intros x; [apply greatest_singleton|].
  simpl. destruct (IH (Qmax x y)) as [Hin Hle]. split.
  - apply elem_of_cons in Hin as [-> | Hin].
    + destruct (Qmax_cases x y) as [-> | ->]; [left | right; left].
    + right; right; exact Hin.
  - inversion_clear Hle as [| ? ? Hm Hl].
    constructor; [| constructor; [| exact Hl]].
    + eapply Qle_trans; [apply Q.le_max_l | exact Hm].
    + eapply Qle_trans; [apply Q.le_max_r | exact Hm].
Qed.

Section NpBbox.
Context {K : Kernel}.

Lemma reshape3_nonempty (p : list Q) (n_p : list vec3) :
  p ≠ [] → reshape3 p = Some n_p → n_p ≠ [].
Proof.
  destruct p as [| x [| y [| z rest]]]; try done.
  simpl. destruct (reshape3 rest); simpl; [|done]. by intros _ [= <-].
Qed.

Lemma placed_vertices_length (n_p v : list vec3) t q :
  placed_vertices n_p t q = Ok v → length v = length n_p.
Proof.
  unfold placed_vertices.
  destruct t, q as [[[[??]?]?] |]; intros [= <-]; by rewrite ?length_fmap.
Qed.

Lemma np_bbox_None (p : list Q) t q : np_bbox p t q = Ok None ↔ p = [].
Proof.
  split.
  - destruct p as [| x p]; [done|]. unfold np_bbox.
    change (length (x :: p) =? 0)%nat with false. cbv iota.
    destruct (reshape3 (x :: p)) as [n_p |]; [|done].
    destruct (placed_vertices n_p t q) as [[| v0 vs] | e]; done.
  - by intros ->.
Qed.

Lemma np_bbox_Some (p : list Q) t q (n_p v : list vec3) :
  p ≠ [] → reshape3 p = Some n_p → placed_vertices n_p t q = Ok v →
  ∃ d, np_bbox p t q = Ok (Some d)
       ∧ least (d_xmin d) (vx <$> v) ∧ greatest (d_xmax d) (vx <$> v)
       ∧ least (d_ymin d) (vy <$> v) ∧ greatest (d_ymax d) (vy <$> v)
       ∧ least (d_zmin d) (vz <$> v) ∧ greatest (d_zmax d) (vz <$> v).
Proof.
  intros Hp Hr Hv. unfold np_bbox.
  destruct p as [| x p]; [done|].
  change (length (x :: p) =? 0)%nat with false. cbv iota.
  rewrite Hr, Hv. simpl.
  destruct v as [| v0 vs].
  { apply placed_vertices_length in Hv. apply reshape3_nonempty in Hr; [|done].
    destruct n_p; done. }
  eexists. split; [reflexivity|]. simpl. unfold axis_min, axis_max.
  split_and!; first [apply foldl_Qmin_least | apply foldl_Qmax_greatest].
Qed.

Lemma reshape3_flat3 (vs : list vec3) : reshape3 (flat3 vs) = Some vs.
Proof.
  induction vs as [| [[x y] z] vs IH]; [done|].
  change (flat3 ((x, y, z) :: vs)) with (x :: y :: z :: flat3 vs).
  change (reshape3 (x :: y :: z :: flat3 vs)) with (cons (x, y, z) <$> reshape3 (flat3 vs)).
  by rewrite IH.
Qed.

Lemma flat3_nonempty (vs : list vec3) : vs ≠ [] → flat3 vs ≠ [].
Proof. by destruct vs as [| [[x y] z] vs]. Qed.

Lemma reshape3_inv (p : list Q) : ∀ n_p, reshape3 p = Some n_p → p = flat3 n_p.
Proof.
  assert (H : ∀ n p, (length p < n)%nat → ∀ n_p, reshape3 p = Some n_p → p = flat3 n_p).
  { clear p. induction n as [| n IH]; intros p Hlen n_p; [lia|].
    destruct p as [| x [| y [| z rest]]]; try done.
    - by intros [= <-].
    - change (reshape3 (x :: y :: z :: rest)) with (cons (x, y, z) <$> reshape3 rest).
      destruct (reshape3 rest) as [m |] eqn:Hr; [|done].
      intros [= <-].
      change (flat3 ((x, y, z) :: m)) with (x :: y :: z :: flat3 m).
      do 3 f_equal. apply IH; [simpl in Hlen; lia | done]. }
  apply (H (S (length p))). lia.
Qed.
End NpBbox.

Section AddBB.
Context {K : Kernel} {P : Package}.
Variable meshed : list Mesh.

Lemma leaf_bbox_shapes (lf : shapes_leaf) (r : result (option bbox_dict)) :
  leaf_bbox meshed lf = Some r →
  String.eqb (l_type lf) "shapes" = true.
Proof. unfold leaf_bbox. by destruct (String.eqb (l_type lf) "shapes"). Qed.

Lemma add_bb_leaf_Ok (lf : shapes_leaf) (bb : option bbox_dict) (overall : BoundingBox) :
  leaf_bbox meshed lf = Some (Ok bb) →
  add_bb_leaf meshed lf overall
  = (λ b, (set_bb lf (Some bb), b)) <$> update overall (bb_value_arg bb) false.
Proof.
  unfold leaf_bbox, add_bb_leaf.
  destruct (String.eqb (l_type lf) "shapes"); [|done].
  destruct (meshed !! l_ref lf) as [mesh |]; [|done].
  destruct (l_loc lf) as [[t q] |]; [|done].
  intros [= ->]. simpl. by destruct (update overall (bb_value_arg bb) false).
Qed.

Lemma np_bbox_raise (p : list Q) t q (e : exception) :
  np_bbox p t q = Raise e → e ≠ wrong_bounding_box_param.
Proof.
  unfold np_bbox. destruct (length p =? 0)%nat; [done|].
  destruct (reshape3 p) as [n_p |]; [| by intros [= <-]].
  unfold placed_vertices.
  destruct t, q as [[[[??]?]?] |]; simpl;
    try (by intros [= <-]);
    match goal with |- context [match ?l with [] => _ | _ :: _ => _ end] =>
      destruct l end; by intros [= <-].
Qed.

Lemma add_bb_leaf_never (lf : shapes_leaf) (overall : BoundingBox) :
  (∀ mesh, mesh ∈ meshed → mesh_vertices mesh ≠ []) →
  add_bb_leaf meshed lf overall ≠ Raise wrong_bounding_box_param.
Proof.
  intros Hne. unfold add_bb_leaf.
  destruct (meshed !! l_ref lf) as [mesh |] eqn:Hm; [|done].
  destruct (l_loc lf) as [[t q] |]; [|done].
  destruct (np_bbox (mesh_vertices mesh) t q) as [[d |] | e] eqn:Hnp; simpl.
  - done.
  - apply np_bbox_None in Hnp. apply list_elem_of_lookup_2 in Hm.
    by destruct (Hne mesh Hm).
  - intros [= He]. by apply np_bbox_raise in Hnp.
Qed.

Lemma add_bb_loop_never (todo : list shapes) :
  (∀ mesh, mesh ∈ meshed → mesh_vertices mesh ≠ []) →
  Forall (in_group (λ s, ∀ overall,
            _add_bb meshed s overall ≠ Raise wrong_bounding_box_param)) todo →
  ∀ seen overall,
    _add_bb_loop meshed (_add_bb meshed) todo seen overall
    ≠ Raise wrong_bounding_box_param.
Proof.
  intros Hne. induction 1 as [| x rest Hx _ IH]; intros seen overall; [done|].
  destruct x as [parts | lf]; simpl.
  - destruct (_add_bb_loop meshed (_add_bb meshed) parts [] overall) as [r | e] eqn:Hr.
    + simpl. apply IH.
    + simpl. intros [= ->]. by apply (Hx overall).
  - destruct (String.eqb (l_type lf) "shapes"); [| apply IH].
    destruct (add_bb_leaf meshed lf overall) as [r | e] eqn:Hr; simpl.
    + apply IH.
    + intros [= ->]. by apply (add_bb_leaf_never lf overall Hne).
Qed.

Lemma add_bb_never (s : shapes) (overall : BoundingBox) :
  (∀ mesh, mesh ∈ meshed → mesh_vertices mesh ≠ []) →
  _add_bb meshed s overall ≠ Raise wrong_bounding_box_param.
Proof.
  intros Hne. revert overall.
  induction s as [lf | parts IH] using shapes_nested_ind; intros overall; [done|].
  simpl. apply add_bb_loop_never; [exact Hne|].
  eapply Forall_impl; [| exact IH]. by intros [|].
Qed.

Lemma add_bb_loop_ok (todo : list shapes) :
  Forall (in_group (λ s, ∀ overall, Forall (leaf_boxed meshed) (leaves s) →
            ∃ r, _add_bb meshed s overall = Ok r)) todo →
  ∀ seen overall,
    Forall (leaf_boxed meshed) (flat_map leaves todo) →
    ∃ r, _add_bb_loop meshed (_add_bb meshed) todo seen overall = Ok r.
Proof.
  induction 1 as [| x rest Hx _ IH]; intros seen overall Hall; [by eexists|].
  simpl in Hall. apply Forall_app in Hall as [Hx' Hrest].
  destruct x as [parts | lf].
  - destruct (Hx overall Hx') as [r Hr]. simpl in Hr |- *. rewrite Hr. simpl.
    by apply IH.
  - simpl in Hx'. apply (proj1 (Forall_singleton _ _)) in Hx'. unfold leaf_boxed in Hx'.
    simpl. destruct (leaf_bbox meshed lf) as [r |] eqn:Hb.
    + rewrite (leaf_bbox_shapes _ _ Hb). destruct Hx' as [d ->].
      rewrite (add_bb_leaf_Ok _ _ overall Hb). simpl. by apply IH.
    + unfold leaf_bbox in Hb.
      destruct (String.eqb (l_type lf) "shapes"); [| by apply IH].
      destruct (meshed !! l_ref lf); destruct (l_loc lf) as [[??] |]; done.
Qed.

Lemma add_bb_ok (s : shapes) :
  in_group (λ s, ∀ overall, Forall (leaf_boxed meshed) (leaves s) →
              ∃ r, _add_bb meshed s overall = Ok r) s.
Proof.
  induction s as [lf | parts IH] using shapes_nested_ind; [done|].
  intros overall Hall. simpl. by apply add_bb_loop_ok.
Qed.

Lemma runs_boxed_or_empty (l : list shapes_leaf) :
  Forall (leaf_runs meshed) l →
  Forall (leaf_boxed meshed) l ∨ Exists (leaf_empty meshed) l.
Proof.
  induction 1 as [| lf l Hlf _ [IH | IH]]; [by left | | by right; right].
  unfold leaf_runs in Hlf.
  destruct (leaf_bbox meshed lf) as [r |] eqn:Hb.
  - destruct Hlf as [[d |] ->].
    + left. constructor; [|done]. unfold leaf_boxed. rewrite Hb. by exists d.
    + right. by left.
  - left. constructor; [|done]. unfold leaf_boxed. by rewrite Hb.
Qed.

Lemma add_bb_loop_err (todo : list shapes) :
  Forall (in_group (λ s, ∀ overall, Forall (leaf_runs meshed) (leaves s) →
            Exists (leaf_empty meshed) (leaves s) →
            _add_bb meshed s overall = Raise wrong_bounding_box_param)) todo →
  ∀ seen overall,
    Forall (leaf_runs meshed) (flat_map leaves todo) →
    Exists (leaf_empty meshed) (flat_map leaves todo) →
    _add_bb_loop meshed (_add_bb meshed) todo seen overall
    = Raise wrong_bounding_box_param.
Proof.
  induction 1 as [| x rest Hx _ IH]; intros seen overall Hall Hex.
  { by apply Exists_nil in Hex. }
  simpl in Hall, Hex. apply Forall_app in Hall as [Hx' Hrest].
  apply Exists_app in Hex.
  destruct x as [parts | lf].
  - destruct (runs_boxed_or_empty _ Hx') as [Hboxed | Hempty].
    + destruct (add_bb_ok (ShapesGroup parts) overall Hboxed) as [r Hr].
      simpl in Hr |- *. rewrite Hr. simpl. apply IH; [done|].
      destruct Hex as [Hex | Hex]; [|done].
      exfalso. clear -Hboxed Hex. induction Hex as [lf l He | lf l _ IHe].
      * inversion_clear Hboxed as [| ?? Hb _].
        unfold leaf_boxed, leaf_empty in *. rewrite He in Hb. by destruct Hb.
      * inversion_clear Hboxed. auto.
    + specialize (Hx overall Hx' Hempty). simpl in Hx |- *. by rewrite Hx.
  - simpl in Hx'. apply (proj1 (Forall_singleton _ _)) in Hx'. unfold leaf_runs in Hx'.
    simpl. destruct (leaf_bbox meshed lf) as [r |] eqn:Hb.
    + rewrite (leaf_bbox_shapes _ _ Hb). destruct Hx' as [bb ->].
      rewrite (add_bb_leaf_Ok _ _ overall Hb).
      destruct bb as [d |]; simpl; [| done].
      apply IH; [done|]. destruct Hex as [Hex | Hex]; [|done].
      simpl in Hex. apply Exists_cons in Hex as [Hex | Hex].
      * unfold leaf_empty in Hex. by rewrite Hb in Hex.
      * by apply Exists_nil in Hex.
    + assert (Hskip : ∀ k : result (shapes * BoundingBox),
        (if String.eqb (l_type lf) "shapes"
         then r ← add_bb_leaf meshed lf overall;
              _add_bb_loop meshed (_add_bb meshed) rest
                (seen ++ [ShapesLeaf r.1]) r.2
         else _add_bb_loop meshed (_add_bb meshed) rest
                (seen ++ [ShapesLeaf lf]) overall)
        = _add_bb_loop meshed (_add_bb meshed) rest
            (seen ++ [ShapesLeaf lf]) overall).
      { intros _. unfold leaf_bbox in Hb.
        destruct (String.eqb (l_type lf) "shapes"); [|done].
        destruct (meshed !! l_ref lf); destruct (l_loc lf) as [[??] |]; done. }
      rewrite (Hskip (Ok (ShapesLeaf lf, overall))).
      apply IH; [done|]. destruct Hex as [Hex | Hex]; [|done].
      simpl in Hex. apply Exists_cons in Hex as [Hex | Hex].
      * unfold leaf_empty in Hex. by rewrite Hb in Hex.
      * by apply Exists_nil in Hex.
Qed.

Lemma add_bb_err (s : shapes) :
  in_group (λ s, ∀ overall, Forall (leaf_runs meshed) (leaves s) →
              Exists (leaf_empty meshed) (leaves s) →
              _add_bb meshed s overall = Raise wrong_bounding_box_param) s.
Proof.
  induction s as [lf | parts IH] using shapes_nested_ind; [done|].
  intros overall Hall Hex. simpl. by apply add_bb_loop_err.
Qed.

End AddBB.

Section FoldSafety.
Context {K : Kernel} {P : Package}.


End FoldSafety.


(** ** The tessellation orchestrator *)

Section Orchestrator.
Context {K : Kernel} {P : Package}.

Lemma BoundingBox_init_shape (opt : bool) (s : Shape) (st : state) :
  ∃ out, BoundingBox_init (FromShape s) opt st
         = (Ok (shape_box opt s), with_stdout st out).
Proof.
  unfold BoundingBox_init, _bounding_box, shape_box, shape_extents.
  destruct (BRepBndLib_Add opt s) as [[[[[[v0 v1] v2] v3] v4] v5] |].
  - exists (stdout st). by destruct st.
  - eexists. reflexivity.
Qed.

Lemma key_eqb_one (s1 s2 : Shape) :
  key_eqb (make_key (OneShape s1) None false) (make_key (OneShape s2) None false) = true
  → HashCode s1 = HashCode s2.
Proof.
  unfold key_eqb, make_key. simpl. rewrite andb_true_r.
  intros H%bool_decide_eq_true. by injection H.
Qed.

Lemma bounding_box_sound (insts : list instance) (inst : instance) (st : state) :
  inst ∈ insts → collision_free insts → cache_sound insts (cache st) →
  ∃ st', bounding_box (OneShape (i_obj inst)) None false st
         = (Ok (shape_box false (i_obj inst)), st')
         ∧ cache_sound insts (cache st') ∧ instances st' = instances st.
Proof.
  intros Hin Hfree Hsound. unfold bounding_box, mbind, M_bind, get_state.
  destruct (cache_lookup _ (cache st)) as [v |] eqn:Hlook.
  - exists st. split_and!; [|done..].
    by rewrite (Hsound inst v Hin Hlook).
  - unfold bounding_box_uncached.
    destruct (BoundingBox_init_shape false (i_obj inst) st) as [out ->].
    eexists. split_and!; [reflexivity| |reflexivity].
    intros inst' bb Hin'. simpl.
    destruct (key_eqb _ _) eqn:Hk.
    + intros [= <-]. apply key_eqb_one in Hk. by apply Hfree.
    + by apply Hsound.
Qed.

Variables (deviation angular_tolerance : Q) (render_edges : bool).

Lemma mesh_loop_spec (insts todo : list instance) :
  collision_free insts → (∀ i, i ∈ todo → i ∈ insts) →
  ∀ acc st, cache_sound insts (cache st) →
  ∃ st', mesh_loop deviation angular_tolerance render_edges todo acc st
         = ((λ ms, acc ++ ms)
              <$> mesh_all deviation angular_tolerance render_edges todo, st')
         ∧ instances st' = instances st.
Proof.
  intros Hfree. induction todo as [| inst rest IH]; intros Hsub acc st Hsound.
  - exists st. simpl. by rewrite app_nil_r.
  - destruct (bounding_box_sound insts inst st) as (st1 & Hbb & Hs1 & Hi1);
      [apply Hsub; left | done | done |].
    simpl. unfold mesh_instance, mbind at 1, M_bind at 1.
    unfold mbind at 1, M_bind at 1. rewrite Hbb. unfold lift.
    fold (instance_mesh deviation angular_tolerance render_edges inst).
    destruct (instance_mesh deviation angular_tolerance render_edges inst)
      as [mesh | e]; simpl.
    + destruct (IH (λ i Hi, Hsub i (list_elem_of_further _ _ _ Hi))
                  (acc ++ [mesh]) st1 Hs1) as (st' & -> & Hi').
      exists st'. split; [|congruence].
      destruct (mesh_all _ _ _ rest); simpl; [|done].
      by rewrite <- app_assoc.
    + by exists st1.
Qed.

Lemma mesh_all_aligned (insts : list instance) (meshes : list Mesh) :
  mesh_all deviation angular_tolerance render_edges insts = Ok meshes →
  Forall2 (λ inst mesh,
             instance_mesh deviation angular_tolerance render_edges inst = Ok mesh)
    insts meshes.
Proof.
  revert meshes. induction insts as [| inst rest IH]; intros meshes.
  - intros [= <-]. constructor.
  - simpl. destruct (instance_mesh _ _ _ inst) as [mesh |] eqn:Hm; [|done].
    simpl. destruct (mesh_all _ _ _ rest) as [ms |]; [|done].
    intros [= <-]. constructor; [exact Hm | by apply IH].
Qed.

End Orchestrator.

Section OrchestratorClaim.
Context {K : Kernel} {P : Package}.


End OrchestratorClaim.


(** ** The instance cache *)

Section InstanceCache.
Context {K : Kernel}.

Lemma get_instance_unfold (s : Shape) kd nm c cid (st : state) :
  get_instance (GShape s) kd nm c cid st
  = match scan (instances st) (relocated s) with
    | Some (i, _) =>
        (Ok (referential kd i nm (Shape_Location s) c cid),
         if progress st then with_stdout st (stdout st ++ [Text "-"]) else st)
    | None =>
        (Ok (referential kd (length (instances st)) nm (Shape_Location s) c cid),
         mkState (instances st ++ [(relocated s, cid)]) (progress st) (stdout st)
           (cache st))
    end.
Proof.
  unfold get_instance, scan, mbind, M_bind, get_state.
  destruct (list_find _ (instances st)) as [[i e] |]; [|done].
  by destruct (progress st).
Qed.

Context {L : KernelLaws K}.

Lemma relocated_Moved (s : Shape) (p : Location) : relocated (Moved s p) = relocated s.
Proof.
  unfold relocated, downcast.
  assert (H : Moved (Moved s p) (Inverted (Shape_Location (Moved s p)))
              = Moved s (Inverted (Shape_Location s))).
  { rewrite Location_Moved, Moved_Moved, Inverted_Multiplied, Multiplied_assoc,
      Multiplied_Inverted_l, Multiplied_identity_r. done. }
  by rewrite H.
Qed.

Lemma distinct_table_snoc (table : list (Shape * string)) (x : Shape) (cid : string) :
  distinct_table table → scan table x = None → distinct_table (table ++ [(x, cid)]).
Proof.
  intros Hd Hnone. apply list_find_None in Hnone.
  assert (Hno : ∀ j e, table !! j = Some e → shape_eqb e.1 x = false).
  { intros j e Hj. pose proof (Forall_lookup_1 _ _ _ _ Hnone Hj) as Hn.
    simpl in Hn. destruct (shape_eqb e.1 x); [by destruct Hn | done]. }
  intros i j a b Hi Hj Hab.
  apply lookup_app_Some in Hi as [Hi | [Hli Hi]];
    apply lookup_app_Some in Hj as [Hj | [Hlj Hj]].
  - by eapply Hd.
  - apply list_lookup_singleton_Some in Hj as [_ <-]. simpl in Hab.
    by rewrite (Hno i a Hi) in Hab.
  - apply list_lookup_singleton_Some in Hi as [_ <-]. simpl in Hab.
    apply shape_eqb_sym in Hab. by rewrite (Hno j b Hj) in Hab.
  - apply list_lookup_singleton_Some in Hi as [Hi _].
    apply list_lookup_singleton_Some in Hj as [Hj _]. lia.
Qed.


Lemma scan_Some (table : list (Shape * string)) (x : Shape) i e :
  scan table x = Some (i, e) ↔
  table !! i = Some e ∧ shape_eqb e.1 x = true
  ∧ ∀ j e', table !! j = Some e' → (j < i)%nat → shape_eqb e'.1 x = false.
Proof.
  unfold scan. rewrite list_find_Some. split.
  - intros (Hi & He & Hmin). split_and!; [done | by apply Is_true_true |].
    intros j e' Hj Hlt. specialize (Hmin j e' Hj Hlt).
    destruct (shape_eqb e'.1 x); [by destruct Hmin | done].
  - intros (Hi & He & Hmin). split_and!; [done | by apply Is_true_true |].
    intros j e' Hj Hlt. rewrite (Hmin j e' Hj Hlt). by intros [].
Qed.

Lemma scan_None (table : list (Shape * string)) (x : Shape) :
  scan table x = None ↔ ∀ j e, table !! j = Some e → shape_eqb e.1 x = false.
Proof.
  unfold scan. rewrite list_find_None. split.
  - intros Hall j e Hj. pose proof (Forall_lookup_1 _ _ _ _ Hall Hj) as Hn.
    simpl in Hn. destruct (shape_eqb e.1 x); [by destruct Hn | done].
  - intros Hno. apply Forall_lookup_2. intros j e Hj. simpl.
    rewrite (Hno j e Hj). by intros [].
Qed.

Lemma intern_first (s : Shape) kd nm c cid (st : state) :
  distinct_table (instances st) →
  ∃ i st1 e,
    get_instance (GShape s) kd nm c cid st
    = (Ok (referential kd i nm (Shape_Location s) c cid), st1)
    ∧ instances st1 !! i = Some e ∧ shape_eqb e.1 (relocated s) = true
    ∧ distinct_table (instances st1)
    ∧ (scan (instances st) (relocated s) = Some (i, e)
         ∧ instances st1 = instances st
       ∨ scan (instances st) (relocated s) = None
         ∧ i = length (instances st)
         ∧ instances st1 = instances st ++ [(relocated s, cid)]).
Proof.
  intros Hd. rewrite get_instance_unfold.
  destruct (scan (instances st) (relocated s)) as [[i e] |] eqn:Hscan.
  - pose proof (proj1 (scan_Some _ _ _ _) Hscan) as (Hi & He & _).
    exists i, (if progress st then with_stdout st (stdout st ++ [Text "-"]) else st), e.
    assert (Hinst : instances (if progress st
                               then with_stdout st (stdout st ++ [Text "-"])
                               else st) = instances st) by by destruct (progress st).
    rewrite Hinst. split_and!; try done. by left.
  - eexists _, _, (relocated s, cid). split_and!; [reflexivity | | | |].
    + simpl. rewrite lookup_app_r by done. by rewrite Nat.sub_diag.
    + apply shape_eqb_refl.
    + simpl. by apply distinct_table_snoc.
    + right. by split_and!.
Qed.

Lemma relocated_normalized (s : Shape) : relocated s = placement_normalized s.
Proof. reflexivity. Qed.

Lemma intern_again (s1 s2 : Shape) kd nm c cid (st2 : state) i1 e1 :
  distinct_table (instances st2) →
  instances st2 !! i1 = Some e1 → shape_eqb e1.1 (relocated s1) = true →
  ∃ i2 st3,
    get_instance (GShape s2) kd nm c cid st2
    = (Ok (referential kd i2 nm (Shape_Location s2) c cid), st3)
    ∧ (same_geometry s1 s2 →
         i2 = i1 ∧ instances st3 = instances st2
         ∧ ∀ j e, instances st3 !! j = Some e →
             shape_eqb e.1 (relocated s1) = true → j = i1)
    ∧ (¬ same_geometry s1 s2 → i2 ≠ i1).
Proof.
  intros Hd Hi1 He1. rewrite get_instance_unfold.
  destruct (scan (instances st2) (relocated s2)) as [[i2 e2] |] eqn:Hscan.
  - pose proof (proj1 (scan_Some _ _ _ _) Hscan) as (Hi2 & He2 & _).
    assert (Hinst : instances (if progress st2
                               then with_stdout st2 (stdout st2 ++ [Text "-"])
                               else st2) = instances st2) by by destruct (progress st2).
    eexists i2, _. split; [reflexivity|]. rewrite Hinst. split.
    + intros Hsame. change (shape_eqb (relocated s1) (relocated s2) = true) in Hsame.
      assert (i2 = i1) as ->.
      { apply (Hd i2 i1 e2 e1 Hi2 Hi1).
        eapply shape_eqb_trans; [exact He2|].
        eapply shape_eqb_trans; [apply shape_eqb_sym, Hsame|].
        by apply shape_eqb_sym. }
      split_and!; [done..|].
      intros j e Hj He. apply (Hd j i1 e e1 Hj Hi1).
      eapply shape_eqb_trans; [exact He | by apply shape_eqb_sym].
    + intros Hdiff ->. apply Hdiff. change (shape_eqb (relocated s1) (relocated s2) = true).
      rewrite Hi1 in Hi2. injection Hi2 as ->.
      eapply shape_eqb_trans; [apply shape_eqb_sym, He1 | exact He2].
  - pose proof (proj1 (scan_None _ _) Hscan) as Hno.
    eexists _, _. split; [reflexivity|]. split.
    + intros Hsame. exfalso. change (shape_eqb (relocated s1) (relocated s2) = true) in Hsame.
      pose proof (Hno i1 e1 Hi1) as Hf.
      rewrite (shape_eqb_trans _ _ _ He1 Hsame) in Hf. done.
    + intros _. apply lookup_lt_Some in Hi1. lia.
Qed.



End InstanceCache.

Lemma Toy_kernel_laws : KernelLaws Toy.kernel.
Proof.
  split; simpl.
  - intros s. by apply bool_decide_eq_true.
  - intros s t H%bool_decide_eq_true. by apply bool_decide_eq_true.
  - intros s t u H1%bool_decide_eq_true H2%bool_decide_eq_true.
    apply bool_decide_eq_true. congruence.
  - done.
  - intros s p q. f_equal. lia.
  - intros a b c. lia.
  - intros a b. lia.
  - intros a. lia.
  - intros a. lia.
Qed.


(** ** The monad *)

Section Monad.
Context {K : Kernel}.

Lemma bind_Ok_inv {A B} (m : M A) (f : A → M B) (st st' : state) (b : B) :
  (m ≫= f) st = (Ok b, st') →
  ∃ a st1, m st = (Ok a, st1) ∧ f a st1 = (Ok b, st').
Proof.
  unfold mbind, M_bind. destruct (m st) as [[a | e] st1]; [|done].
  intros H. by exists a, st1.
Qed.

Lemma lift_Ok_inv {A} (r : result A) (st st' : state) (a : A) :
  lift r st = (Ok a, st') → r = Ok a ∧ st' = st.
Proof. unfold lift. by intros [= -> ->]. Qed.

Lemma ret_Ok_inv {A} (x a : A) (st st' : state) :
  (mret x : M A) st = (Ok a, st') → x = a ∧ st' = st.
Proof. by intros [= -> ->]. Qed.

End Monad.

(** ** [unify] *)

Section Unify.
Context {K : Kernel} {P : Package}.

Lemma get_instance_Ok (g : geom) kd nm c cid (st st' : state) (o : OcpObject) :
  get_instance g kd nm c cid st = (Ok o, st') →
  ∃ s i, g = GShape s
    ∧ o = referential kd i nm (Shape_Location s) c cid
    ∧ (i < length (instances st'))%nat
    ∧ ∃ ext, instances st' = instances st ++ ext.
Proof.
  destruct g as [s | l]; [|done]. rewrite get_instance_unfold.
  destruct (scan (instances st) (relocated s)) as [[i e] |] eqn:Hscan.
  - intros [= <- <-]. exists s, i.
    assert (Hinst : instances (if progress st
                               then with_stdout st (stdout st ++ [Text "-"])
                               else st) = instances st) by by destruct (progress st).
    rewrite Hinst. split_and!; [done..| |].
    + unfold scan in Hscan. apply list_find_Some in Hscan as [Hi _].
      by apply lookup_lt_Some in Hi.
    + exists []. by rewrite app_nil_r.
  - intros [= <- <-]. exists s, (length (instances st)). simpl.
    split_and!; [done..| |].
    + rewrite length_app. simpl. lia.
    + by eexists.
Qed.

(** [unify] returns an object for every single shape that is not a compound
    and every kind of the colour table. *)
Lemma unify_single_returns (s : Shape) (kd nm : string) (c : option color_value)
    (alpha : Q) (st : state) :
  is_topods_compound s = false →
  kd ∈ ["solid"; "face"; "shell"; "edge"; "vertex"] →
  ∃ o st', unify [GShape s] kd nm c alpha st = (Ok o, st').
Proof.
  intros Hc Hkd. unfold unify. rewrite Hc.
  assert (Hcol : ∃ col, get_color_for_object (colored_of_geom (GShape s)) c None (Some kd)
                        = Ok col).
  { unfold get_color_for_object. destruct c as [c |]; simpl; [by eexists|].
    repeat (apply elem_of_cons in Hkd as [-> | Hkd]; [by eexists|]).
    by apply elem_of_nil in Hkd. }
  destruct Hcol as [col Hcol].
  unfold mbind at 1, M_bind at 1, lift at 1.
  unfold mbind at 1, M_bind at 1, lift at 1. simpl first_or_self. cbv iota beta.
  unfold mbind at 1, M_bind at 1, lift at 1. rewrite Hcol.
  destruct (str_in kd ["solid"; "face"; "shell"]).
  - unfold mbind at 1, M_bind at 1, lift at 1.
    change (create_cache_id [GShape s])
      with (Ok (sha256_hexdigest (serialize s +:+ "")) : result string).
    cbv iota beta.
    rewrite get_instance_unfold. destruct (scan _ _) as [[i e] |]; by eexists _, _.
  - by eexists _, _.
Qed.
Lemma all_shapes_Ok_inv (objs : list geom) (ss : list Shape) :
  all_shapes objs = Ok ss → objs = GShape <$> ss.
Proof.
  revert ss. induction objs as [| [s | l] rest IH]; intros ss; simpl.
  - by intros [= <-].
  - destruct (all_shapes rest) as [ss' | e]; simpl; [|done].
    intros [= <-]. by rewrite (IH ss').
  - done.
Qed.

Lemma unify_geometry (objs : list geom) (kd : string) (g : geom) :
  match objs with
  | [GShape s] =>
      if is_topods_compound s then
        match list_topods_compound s with
        | [x] => Ok (GShape (downcast x))
        | ocp_objs =>
            if str_in kd ["edge"; "vertex"] then Ok (GList (GShape <$> ocp_objs))
            else Ok (GShape s)
        end
      else Ok (GShape s)
  | [g] => Ok g
  | _ =>
      if str_in kd ["solid"; "face"; "shell"] then
        (λ ss, GShape (make_compound ss)) <$> all_shapes objs
      else Ok (GList objs)
  end = Ok g →
  unified kd objs g.
Proof.
  assert (Hmany : ∀ l : list geom, length l ≠ 1%nat →
            (if str_in kd ["solid"; "face"; "shell"]
             then (λ ss, GShape (make_compound ss)) <$> all_shapes l
             else Ok (GList l)) = Ok g →
            unified kd l g).
  { intros l Hlen. unfold str_in. case_bool_decide as Hkd.
    - destruct (all_shapes l) as [ss | e] eqn:Hall; simpl; [|done].
      intros [= <-]. apply all_shapes_Ok_inv in Hall as ->.
      rewrite length_fmap in Hlen. by apply unified_merged.
    - intros [= <-]. by apply unified_kept. }
  destruct objs as [| [s | l] [| g2 rest]].
  - by apply Hmany.
  - unfold is_topods_compound. case_bool_decide as Hc.
    + destruct (list_topods_compound s) as [| x [| y r]] eqn:Hl.
      * unfold str_in. case_bool_decide as Hkd; intros [= <-].
        -- pose proof (unified_children kd s Hc) as Hu. rewrite Hl in Hu.
           by apply Hu.
        -- apply unified_compound; [done | by rewrite Hl | done].
      * intros [= <-]. by apply unified_only_child.
      * unfold str_in. case_bool_decide as Hkd; intros [= <-].
        -- pose proof (unified_children kd s Hc) as Hu. rewrite Hl in Hu.
           by apply Hu.
        -- apply unified_compound; [done | by rewrite Hl | done].
    + intros [= <-]. by apply unified_single.
  - by apply Hmany.
  - intros [= <-]. apply unified_list.
  - by apply Hmany.
Qed.

Lemma get_instance_entry_of (g : geom) kd nm c cid (st st' : state) (o : OcpObject) :
  get_instance g kd nm c cid st = (Ok o, st') →
  ∃ s i e, g = GShape s
    ∧ o = referential kd i nm (Shape_Location s) c cid
    ∧ instances st' !! i = Some e
    ∧ (shape_eqb e.1 (placement_normalized s) = true ∨ e.1 = placement_normalized s).
Proof.
  destruct g as [s | l]; [|done]. rewrite get_instance_unfold.
  destruct (scan (instances st) (relocated s)) as [[i e] |] eqn:Hscan.
  - intros [= <- <-]. exists s, i, e.
    assert (Hinst : instances (if progress st
                               then with_stdout st (stdout st ++ [Text "-"])
                               else st) = instances st) by by destruct (progress st).
    rewrite Hinst. unfold scan in Hscan.
    apply list_find_Some in Hscan as (Hi & He & _).
    split_and!; [done.. |]. left. by apply Is_true_true.
  - intros [= <- <-]. exists s, (length (instances st)), (relocated s, cid). simpl.
    split_and!; [done.. | | by right].
    rewrite lookup_app_r by done. by rewrite Nat.sub_diag.
Qed.

(** C5. Every object [unify] returns has the kind and the name it was
    asked for and never both a [ref] and an inline payload.  For the kinds
    solid, face and shell it has no payload and a [ref] that is an index
    into the instance table as it is when [unify] returns, and the table has
    only grown; for every other kind, edge and vertex in particular, it
    carries its geometry inline with no [ref], the table is untouched, and
    its width is [LINE_WIDTH] = 2 for an edge and [POINT_SIZE] = 4
    otherwise.  The geometry is the one the given values stand for
    ([unified]): for the kinds solid, face and shell it is one shape, the
    object is placed at the location of that shape, and the entry of the
    table at [ref] holds its placement-normalised geometry; for every other
    kind it is the inline payload itself. *)
Theorem unify_exclusive (objs : list geom) (kd nm : string) (c : option color_value)
    (alpha : Q) (st st' : state) (o : OcpObject) :
  unify objs kd nm c alpha st = (Ok o, st') →
  kind o = kd ∧ name o = nm
  ∧ ¬ (is_Some (ref o) ∧ is_Some (obj o))
  ∧ (kd ∈ ["solid"; "face"; "shell"] →
       obj o = None
       ∧ (∃ i, ref o = Some i ∧ (i < length (instances st'))%nat)
       ∧ ∃ ext, instances st' = instances st ++ ext)
  ∧ (kd ∉ ["solid"; "face"; "shell"] →
       ref o = None ∧ is_Some (obj o) ∧ instances st' = instances st
       ∧ width o = Some (if String.eqb kd "edge" then LINE_WIDTH else POINT_SIZE))
  ∧ (kd = "edge" → is_Some (obj o) ∧ width o = Some 2%nat)
  ∧ (kd = "vertex" → is_Some (obj o) ∧ width o = Some 4%nat)
  ∧ ∃ g, unified kd objs g
      ∧ (kd ∈ ["solid"; "face"; "shell"] →
           ∃ s i e, g = GShape s ∧ ref o = Some i
             ∧ loc o = Some (LocLocation (Shape_Location s))
             ∧ instances st' !! i = Some e
             ∧ (shape_eqb e.1 (placement_normalized s) = true
                ∨ e.1 = placement_normalized s))
      ∧ (kd ∉ ["solid"; "face"; "shell"] → obj o = Some g).
Proof.
  unfold unify. intros H.
  apply bind_Ok_inv in H as (ocp_obj & st1 & [Hgeo ->]%lift_Ok_inv & H).
  apply unify_geometry in Hgeo.
  apply bind_Ok_inv in H as (first & st2 & [_ ->]%lift_Ok_inv & H).
  apply bind_Ok_inv in H as (col & st3 & [_ ->]%lift_Ok_inv & H).
  unfold str_in in H. case_bool_decide as Hkd.
  - apply bind_Ok_inv in H as (cid & st4 & [_ ->]%lift_Ok_inv & H).
    pose proof (get_instance_entry_of _ _ _ _ _ _ _ _ H)
      as (s' & i' & e' & Hs' & Ho' & Hi' & He').
    apply get_instance_Ok in H as (s & i & -> & -> & Hlt & Hext).
    injection Hs' as <-.
    assert (i' = i) as -> by (by injection Ho').
    simpl.
    assert (Hne : ∀ k, k ∈ ["solid"; "face"; "shell"] → k ≠ "edge" ∧ k ≠ "vertex").
    { clear. intros k Hk.
      repeat (apply elem_of_cons in Hk as [-> | Hk]; [done|]).
      by apply elem_of_nil in Hk. }
    destruct (Hne kd Hkd) as [Hedge Hvertex].
    split_and!.
    + done.
    + done.
    + by intros [_ [? ?]].
    + intros _. split_and!; [done | by exists i | done].
    + done.
    + done.
    + done.
    + exists (GShape s). split_and!; [done | | done].
      intros _. by exists s, i, e'.
  - apply ret_Ok_inv in H as [<- ->]. simpl. split_and!.
    + done.
    + done.
    + by intros [[? ?] _].
    + done.
    + intros _. by split_and!.
    + intros ->. by split.
    + intros ->. by split.
    + exists ocp_obj. by split_and!.
Qed.
End Unify.

Lemma unify_exclusive_witness :
  (∃ o st',
    @unify Toy.kernel Toy.package [GShape (Toy.cube 1 5)] "solid" "a" None 1 Toy.st0
    = (Ok o, st')
    ∧ obj o = None
    ∧ ∃ i e, ref o = Some i ∧ instances st' !! i = Some e ∧ e.1 = Toy.cube 1 0)
  ∧ (∃ o st',
    @unify Toy.kernel Toy.package [GShape (Toy.edge 1 0); GShape (Toy.edge 2 3)]
      "edge" "e" None 1 Toy.st0
    = (Ok o, st')
    ∧ ref o = None
    ∧ obj o = Some (GList [GShape (Toy.edge 1 0); GShape (Toy.edge 2 3)])
    ∧ width o = Some 2%nat).
Proof.
  split.
  - destruct (@unify Toy.kernel Toy.package [GShape (Toy.cube 1 5)] "solid" "a" None 1
                Toy.st0) as [[o | e] st'] eqn:Hu; [| vm_compute in Hu; discriminate Hu].
    exists o, st'. split; [reflexivity|].
    destruct (@unify_exclusive Toy.kernel Toy.package _ _ _ _ _ _ _ _ Hu)
      as (_ & _ & _ & Hsolid & _ & _ & _ & g & Hg & Hin & _).
    destruct Hsolid as (Hobj & _ & _); [left |].
    destruct Hin as (s & i & e & -> & Hi & _ & He & Heq); [left |].
    split; [exact Hobj|]. exists i, e. split_and!; [exact Hi | exact He |].
    inversion Hg as [s0 Ht | s0 x Ht | s0 Ht | s0 Ht | | ss Hlen Hk Hss | objs Hlen Hk];
      subst; try discriminate Ht.
    + destruct Heq as [Heq%bool_decide_eq_true | Heq]; exact Heq.
    + destruct ss as [| a [| b r]]; [discriminate Hss | by destruct Hlen | discriminate Hss].
  - destruct (@unify Toy.kernel Toy.package [GShape (Toy.edge 1 0); GShape (Toy.edge 2 3)]
                "edge" "e" None 1 Toy.st0) as [[o | e] st'] eqn:Hu;
      [| vm_compute in Hu; discriminate Hu].
    exists o, st'. split; [reflexivity|].
    destruct (@unify_exclusive Toy.kernel Toy.package _ _ _ _ _ _ _ _ Hu)
      as (_ & _ & _ & _ & Hline & Hedge & _ & g & Hg & _ & Hout).
    assert (Hk : "edge" ∉ ["solid"; "face"; "shell"]).
    { intros Hk. repeat (apply elem_of_cons in Hk as [Hk | Hk]; [discriminate Hk|]).
      by apply elem_of_nil in Hk. }
    destruct (Hline Hk) as (Href & _ & _ & _).
    destruct (Hedge eq_refl) as [_ Hw].
    split_and!; [exact Href | | exact Hw].
    rewrite (Hout Hk). f_equal.
    inversion Hg as [| | | | | ss Hlen Hk' Hss | objs Hlen Hk']; subst.
    + by destruct Hk.
    + reflexivity.
Defined.

(** ** [to_ocp]: validation, skipped values, assemblies, colours *)

Section ToOcp.
Context {K : Kernel} {P : Package}.

Lemma to_ocp_gen_arity bodies names colors alphas l (st : state) :
  arity_mismatch (length bodies) names colors alphas →
  ∃ msg, to_ocp_gen bodies names colors alphas l st = (Raise (ValueError msg), st).
Proof.
  intros Hbad. unfold to_ocp_gen, validate_names, validate_alphas, validate_colors.
  unfold mbind, M_bind.
  destruct names as [ns |]; simpl.
  - case_bool_decide as Hn; simpl; [by eexists|].
    destruct alphas as [als |]; simpl.
    + case_bool_decide as Ha; simpl; [by eexists|].
      destruct colors as [cs |]; simpl.
      * case_bool_decide as Hc; simpl; [by eexists|].
        exfalso. destruct Hbad as [(? & [= <-] & ?) | [(? & [= <-] & ?) | (? & [= <-] & ?)]]; done.
      * exfalso. destruct Hbad as [(? & [= <-] & ?) | [(? & [=] & ?) | (? & [= <-] & ?)]]; done.
    + rewrite bool_decide_eq_false_2 by (rewrite length_replicate; auto). simpl.
      destruct colors as [cs |]; simpl.
      * case_bool_decide as Hc; simpl; [by eexists|].
        exfalso. destruct Hbad as [(? & [= <-] & ?) | [(? & [= <-] & ?) | (? & [=] & ?)]]; done.
      * exfalso. destruct Hbad as [(? & [= <-] & ?) | [(? & [=] & ?) | (? & [=] & ?)]]; done.
  - destruct alphas as [als |]; simpl.
    + case_bool_decide as Ha; simpl; [by eexists|].
      destruct colors as [cs |]; simpl.
      * case_bool_decide as Hc; simpl; [by eexists|].
        exfalso. destruct Hbad as [(? & [=] & ?) | [(? & [= <-] & ?) | (? & [= <-] & ?)]]; done.
      * exfalso. destruct Hbad as [(? & [=] & ?) | [(? & [=] & ?) | (? & [= <-] & ?)]]; done.
    + rewrite bool_decide_eq_false_2 by (rewrite length_replicate; auto). simpl.
      destruct colors as [cs |]; simpl.
      * case_bool_decide as Hc; simpl; [by eexists|].
        exfalso. destruct Hbad as [(? & [=] & ?) | [(? & [= <-] & ?) | (? & [=] & ?)]]; done.
      * exfalso. destruct Hbad as [(? & [=] & ?) | [(? & [=] & ?) | (? & [=] & ?)]]; done.
Qed.

(** C2. When a supplied list of names, colours or alphas has a length
    other than the number of objects, [to_ocp] raises a [ValueError] and
    leaves the whole state as it was: no instance is interned and nothing is
    printed.  The error is the same for any other objects in the same
    number: it is raised before the objects are looked at. *)
Theorem to_ocp_arity_error (cad_objs : list pyobj) names colors alphas l
    (helper_scale : Q) (sketch_local : bool) (level : nat) (st : state) :
  arity_mismatch (length cad_objs) names colors alphas →
  ∃ msg,
    to_ocp cad_objs names colors alphas l helper_scale sketch_local level st
    = (Raise (ValueError msg), st)
    ∧ ∀ others : list pyobj, length others = length cad_objs →
        to_ocp others names colors alphas l helper_scale sketch_local level st
        = (Raise (ValueError msg), st).
Proof.
  intros Hbad. unfold to_ocp.
  assert (Hgen : ∀ bodies1 bodies2 : list (option string → option rgba → M (option OcpNode)),
            length bodies1 = length bodies2 →
            arity_mismatch (length bodies1) names colors alphas →
            to_ocp_gen bodies1 names colors alphas l st
            = to_ocp_gen bodies2 names colors alphas l st).
  { intros b1 b2 Hlen Hb. unfold to_ocp_gen. rewrite <- Hlen.
    unfold validate_names, validate_alphas, validate_colors, mbind, M_bind.
    destruct Hb as [(ns & -> & Hn) | [(cs & -> & Hc) | (als & -> & Ha)]]; simpl.
    - by rewrite bool_decide_eq_true_2.
    - destruct names as [ns |]; simpl.
      + case_bool_decide; simpl; [done|].
        destruct alphas as [als |]; simpl.
        * case_bool_decide; simpl; [done|]. by rewrite bool_decide_eq_true_2.
        * rewrite bool_decide_eq_false_2 by (rewrite length_replicate; auto). simpl.
          by rewrite bool_decide_eq_true_2.
      + destruct alphas as [als |]; simpl.
        * case_bool_decide; simpl; [done|]. by rewrite bool_decide_eq_true_2.
        * rewrite bool_decide_eq_false_2 by (rewrite length_replicate; auto). simpl.
          by rewrite bool_decide_eq_true_2.
    - destruct names as [ns |]; simpl.
      + case_bool_decide; simpl; [done|]. by rewrite bool_decide_eq_true_2.
      + by rewrite bool_decide_eq_true_2. }
  destruct (to_ocp_gen_arity
              ((λ o, to_ocp_body o sketch_local helper_scale level) <$> cad_objs)
              names colors alphas l st) as [msg Hmsg].
  { by rewrite length_fmap. }
  exists msg. split; [exact Hmsg|].
  intros others Hlen. rewrite <- Hmsg. apply Hgen.
  - by rewrite !length_fmap.
  - rewrite length_fmap, Hlen. exact Hbad.
Qed.

Lemma zip_replicate_r {A B} (l : list A) (c : B) :
  zip l (replicate (length l) c) = (λ x, (x, c)) <$> l.
Proof. induction l as [| x l IH]; [done|]. simpl. by rewrite IH. Qed.

Lemma zip_replicate {A B} (n : nat) (x : A) (y : B) :
  zip (replicate n x) (replicate n y) = replicate n (x, y).
Proof. induction n as [| n IH]; [done|]. simpl. by rewrite IH. Qed.

Lemma to_ocp_unnamed (cad_objs : list pyobj) l helper_scale sketch_local level
    (st : state) :
  to_ocp cad_objs None None None l helper_scale sketch_local level st
  = (finish_group
       <$> to_ocp_loop (unnamed sketch_local helper_scale level cad_objs)
             (empty_group l)) st.
Proof.
  unfold to_ocp, to_ocp_gen, validate_names, validate_alphas, validate_colors.
  unfold mbind at 1, M_bind at 1. simpl.
  rewrite bool_decide_eq_false_2 by (rewrite length_replicate; auto).
  unfold mbind at 1, M_bind at 1. simpl.
  unfold mbind at 1, M_bind at 1. simpl.
  rewrite zip_replicate, zip_replicate_r, <- list_fmap_compose.
  unfold mbind, M_bind, fmap, M_fmap, unnamed, empty_group.
  by destruct (to_ocp_loop _ _ st) as [[g | e] st'].
Qed.

Lemma to_ocp_loop_app todo1 todo2 (group : OcpNode) (st : state) :
  to_ocp_loop (todo1 ++ todo2) group st
  = match to_ocp_loop todo1 group st with
    | (Ok g1, st1) => to_ocp_loop todo2 g1 st1
    | (Raise e, st1) => (Raise e, st1)
    end.
Proof.
  revert group st. induction todo1 as [| [body [nm col]] rest IH]; intros group st.
  - done.
  - simpl. unfold mbind, M_bind.
    destruct (body nm col st) as [[[node |] | e] st1]; [apply IH | apply IH | done].
Qed.

Lemma produced_cons body nm col rest (st : state) :
  produced ((body, (nm, col)) :: rest) st
  = match body nm col st with
    | (Ok r, st1) =>
        match produced rest st1 with
        | (Ok ns, st2) => (Ok (option_list r ++ ns), st2)
        | (Raise e, st2) => (Raise e, st2)
        end
    | (Raise e, st1) => (Raise e, st1)
    end.
Proof.
  simpl. unfold mbind, M_bind.
  destruct (body nm col st) as [[r | e] st1]; [|done].
  by destruct (produced rest st1) as [[ns | e] st2].
Qed.

Lemma produced_app todo1 todo2 (st : state) :
  produced (todo1 ++ todo2) st
  = match produced todo1 st with
    | (Ok n1, st1) =>
        match produced todo2 st1 with
        | (Ok n2, st2) => (Ok (n1 ++ n2), st2)
        | (Raise e, st2) => (Raise e, st2)
        end
    | (Raise e, st1) => (Raise e, st1)
    end.
Proof.
  revert st. induction todo1 as [| [body [nm col]] rest IH]; intros st.
  - simpl. by destruct (produced todo2 st) as [[n2 | e] st2].
  - rewrite <- app_comm_cons, !produced_cons.
    destruct (body nm col st) as [[r | e] st1]; [|done].
    rewrite IH. destruct (produced rest st1) as [[n1 | e] st2]; [|done].
    destruct (produced todo2 st2) as [[n2 | e] st3]; [|done].
    by rewrite app_assoc.
Qed.

Lemma to_ocp_loop_produced todo gn gl objs (st : state) :
  to_ocp_loop todo (OcpGroup gn gl objs) st
  = match produced todo st with
    | (Ok ns, st') => (Ok (OcpGroup gn gl (objs ++ ns)), st')
    | (Raise e, st') => (Raise e, st')
    end.
Proof.
  revert objs st. induction todo as [| [body [nm col]] rest IH]; intros objs st.
  - simpl. unfold mret, M_ret. by rewrite app_nil_r.
  - rewrite produced_cons. simpl. unfold mbind, M_bind.
    destruct (body nm col st) as [[[node |] | e] st1]; [| |done].
    + simpl. rewrite IH. destruct (produced rest st1) as [[ns | e] st2]; [|done].
      by rewrite <- app_assoc.
    + rewrite IH. by destruct (produced rest st1) as [[ns | e] st2].
Qed.

Lemma to_ocp_body_skip (x : pyobj) sketch_local helper_scale level nm col (st : state) :
  is_silently_skipped x = false → passes_filter x = false →
  to_ocp_body x sketch_local helper_scale level nm col st
  = (Ok None, with_stdout st (stdout st ++ [Text (skipping_message nm x)])).
Proof. destruct x; try done. Qed.

(** C8. A value that is neither silently skipped nor passes the filter
    makes the body of the loop print "Skipping object", the name of its slot
    in quotes when the slot has one, and " of type " with the type of the
    value, and add nothing to the group; no exception is raised.  In the loop
    the objects before it are processed as without it, and the objects after
    it are processed from the same group, one printed line later; so it is
    for the whole call when no names and no colours are given.  The group
    the loop returns is the group it started from with the nodes of all
    bodies appended in order ([produced]); the nodes of a list of objects
    with the value in it are those of the objects before it followed by
    those of the objects after it; and the children of the tree the whole
    call builds are exactly these nodes of its siblings. *)
Theorem skip_unrecognized (x : pyobj) (sketch_local : bool) (helper_scale : Q)
    (level : nat) :
  is_silently_skipped x = false → passes_filter x = false →
  (∀ nm col st,
     to_ocp_body x sketch_local helper_scale level nm col st
     = (Ok None,
        with_stdout st
          (stdout st
           ++ [Text ("Skipping object"
                     +:+ match nm with None => "" | Some n => " '" +:+ n +:+ "'" end
                     +:+ " of type " +:+ type_repr x)])))
  ∧ (∀ pre post nm col group st,
       to_ocp_loop
         (pre ++ (to_ocp_body x sketch_local helper_scale level, (nm, col)) :: post)
         group st
       = match to_ocp_loop pre group st with
         | (Ok g1, st1) =>
             to_ocp_loop post g1
               (with_stdout st1 (stdout st1 ++ [Text (skipping_message nm x)]))
         | (Raise e, st1) => (Raise e, st1)
         end)
  ∧ (∀ pre post l st,
       to_ocp (pre ++ x :: post) None None None l helper_scale sketch_local level st
       = match to_ocp_loop (unnamed sketch_local helper_scale level pre)
                 (empty_group l) st with
         | (Ok g1, st1) =>
             (finish_group
                <$> to_ocp_loop (unnamed sketch_local helper_scale level post) g1)
               (with_stdout st1 (stdout st1 ++ [Text (skipping_message None x)]))
         | (Raise e, st1) => (Raise e, st1)
         end)
  ∧ (∀ pre post l st,
       to_ocp (pre ++ post) None None None l helper_scale sketch_local level st
       = match to_ocp_loop (unnamed sketch_local helper_scale level pre)
                 (empty_group l) st with
         | (Ok g1, st1) =>
             (finish_group
                <$> to_ocp_loop (unnamed sketch_local helper_scale level post) g1) st1
         | (Raise e, st1) => (Raise e, st1)
         end)
  ∧ (∀ todo gn gl objs st,
       to_ocp_loop todo (OcpGroup gn gl objs) st
       = match produced todo st with
         | (Ok ns, st') => (Ok (OcpGroup gn gl (objs ++ ns)), st')
         | (Raise e, st') => (Raise e, st')
         end)
  ∧ (∀ pre post nm col st,
       produced
         (pre ++ (to_ocp_body x sketch_local helper_scale level, (nm, col)) :: post) st
       = match produced pre st with
         | (Ok n1, st1) =>
             match produced post
                     (with_stdout st1 (stdout st1 ++ [Text (skipping_message nm x)]))
             with
             | (Ok n2, st2) => (Ok (n1 ++ n2), st2)
             | (Raise e, st2) => (Raise e, st2)
             end
         | (Raise e, st1) => (Raise e, st1)
         end)
  ∧ (∀ pre post l st,
       to_ocp (pre ++ x :: post) None None None l helper_scale sketch_local level st
       = match produced (unnamed sketch_local helper_scale level pre) st with
         | (Ok n1, st1) =>
             match produced (unnamed sketch_local helper_scale level post)
                     (with_stdout st1 (stdout st1 ++ [Text (skipping_message None x)]))
             with
             | (Ok n2, st2) =>
                 (Ok (finish_group
                        (OcpGroup OcpGroup_default_name
                           (Some (LocLocation (default TopLoc_identity l)))
                           (n1 ++ n2))), st2)
             | (Raise e, st2) => (Raise e, st2)
             end
         | (Raise e, st1) => (Raise e, st1)
         end).
Proof.
  intros Hs Hf.
  assert (Hloop : ∀ pre post nm col group st,
       to_ocp_loop
         (pre ++ (to_ocp_body x sketch_local helper_scale level, (nm, col)) :: post)
         group st
       = match to_ocp_loop pre group st with
         | (Ok g1, st1) =>
             to_ocp_loop post g1
               (with_stdout st1 (stdout st1 ++ [Text (skipping_message nm x)]))
         | (Raise e, st1) => (Raise e, st1)
         end).
  { intros pre post nm col group st. rewrite to_ocp_loop_app.
    destruct (to_ocp_loop pre group st) as [[g1 | e] st1]; [|done].
    simpl. unfold mbind, M_bind. by rewrite to_ocp_body_skip. }
  split_and!.
  - intros nm col st. by apply to_ocp_body_skip.
  - exact Hloop.
  - intros pre post l st. rewrite to_ocp_unnamed. unfold unnamed.
    rewrite fmap_app, fmap_cons. unfold fmap at 1, M_fmap. rewrite Hloop.
    by destruct (to_ocp_loop _ (empty_group l) st) as [[g1 | e] st1].
  - intros pre post l st. rewrite to_ocp_unnamed. unfold unnamed.
    rewrite fmap_app. unfold fmap at 1, M_fmap. rewrite to_ocp_loop_app.
    by destruct (to_ocp_loop _ (empty_group l) st) as [[g1 | e] st1].
  - apply to_ocp_loop_produced.
  - intros pre post nm col st. rewrite produced_app.
    destruct (produced pre st) as [[n1 | e] st1]; [|done].
    rewrite produced_cons. rewrite to_ocp_body_skip by done.
    by destruct (produced post _) as [[n2 | e] st2].
  - intros pre post l st. rewrite to_ocp_unnamed. unfold unnamed, empty_group.
    rewrite fmap_app, fmap_cons. unfold fmap at 1, M_fmap.
    rewrite to_ocp_loop_produced, produced_app.
    destruct (produced _ st) as [[n1 | e] st1]; [|done].
    rewrite produced_cons. rewrite to_ocp_body_skip by done.
    by destruct (produced _ _) as [[n2 | e] st2].
Qed.

(** The handler called with all its arguments, on an assembly with one
    child whose conversion is a group of one element: the group is dropped,
    the element gets [mul_locations(element.loc, group.loc)], and it is the
    only child of the assembly's group. *)
Lemma handle_build123d_assembly_collapses (self_to_ocp : to_ocp_call)
    (label : option string) (col : option color_value) (wrapped : Shape)
    (iterable : bool) (child : pyobj) (child_label : option string)
    (obj_name : option string) (rgba_color : option rgba) (helper_scale : Q)
    (sketch_local : bool) (level : nat) (st st1 st2 : state)
    (gn : string) (gl : option pyloc) (only : OcpNode) :
  let cad_obj := PyB123d label col wrapped iterable [child] in
  _debug level "handle_build123d_assembly" obj_name st = (Ok tt, st1) →
  get_label child = Ok child_label →
  self_to_ocp child (Some [child_label]) None false helper_scale (S level) st1
  = (Ok (OcpGroup gn gl [only]), st2) →
  handle_build123d_assembly self_to_ocp cad_obj
    [ArgName obj_name; ArgColor rgba_color; ArgNum helper_scale;
     ArgBool sketch_local; ArgInt level] st
  = (Ok (OcpGroup (get_name cad_obj obj_name "Assembly") (Some (LocShape wrapped))
           [set_node_loc only (mul_locations (node_loc only) gl)]), st2).
Proof.
  intros cad_obj Hdebug Hlabel Hsub. unfold handle_build123d_assembly.
  unfold mbind at 1, M_bind at 1. rewrite Hdebug.
  unfold cad_obj. cbn [get_location]. unfold mbind, M_bind, lift.
  rewrite Hlabel, Hsub. reflexivity.
Qed.
(** C6. The code at a build123d assembly: [to_ocp] first calls
    [handle_build123d_assembly] with four positional arguments after the
    object, without [helper_scale]; the method has five parameters, so the
    call raises [TypeError] before the body runs, and the conversion of any
    assembly fails with the state unchanged. *)
Theorem assembly_call_raises (label : option string) (col : option color_value)
    (wrapped : Shape) (children : list pyobj) (sketch_local : bool)
    (helper_scale : Q) (level : nat) (nm : option string) (rgba_color : option rgba)
    (st : state) :
  children ≠ [] →
  let cad_obj := PyB123d label col wrapped true children in
  (∀ self_to_ocp,
     handle_build123d_assembly self_to_ocp cad_obj
       [ArgName nm; ArgColor (prepare_color cad_obj rgba_color);
        ArgBool sketch_local; ArgInt level] st
     = (Raise missing_level, st))
  ∧ to_ocp_body cad_obj sketch_local helper_scale level nm rgba_color st
    = (Raise missing_level, st)
  ∧ ∀ l, to_ocp [cad_obj] None None None l helper_scale sketch_local level st
         = (Raise missing_level, st).
Proof.
  intros Hne cad_obj.
  assert (Hbody : ∀ nm rgba_color,
    to_ocp_body cad_obj sketch_local helper_scale level nm rgba_color st
    = (Raise missing_level, st)).
  { intros nm' rgba'. destruct children as [| child rest]; [done|]. reflexivity. }
  split; [done|]. clearbody cad_obj. split; [apply Hbody|].
  intros l. unfold to_ocp, to_ocp_gen. simpl.
  unfold mbind, M_bind. simpl. unfold mbind, M_bind. by rewrite Hbody.
Qed.
(** [get_color_for_object] on its own: a given colour wins, then the
    object's own colour, then the table entry of the kind, then the table
    entry of the object's class or, without one, [Color(None)]; an alpha
    that is given replaces the alpha channel of the result. *)
Lemma get_color_for_object_priority (o : colored) (alpha : option Q) :
  (∀ c kd, get_color_for_object o (Some c) alpha kd
           = Ok (with_alpha alpha (Color_init (Some c))))
  ∧ (∀ oc kd, own_color o = Some oc →
       get_color_for_object o None alpha kd
       = Ok (with_alpha alpha (Color_init (Some oc))))
  ∧ (∀ k d, own_color o = None → dict_get default_colors k = Some d →
       get_color_for_object o None alpha (Some k)
       = Ok (with_alpha alpha (Color_init (Some d))))
  ∧ (own_color o = None →
       get_color_for_object o None alpha None
       = Ok (with_alpha alpha (Color_init (dict_get default_colors (own_class o)))))
  ∧ (∀ c kd col al, alpha = Some al →
       get_color_for_object o c alpha kd = Ok col → a col = al).
Proof.
  unfold get_color_for_object. split_and!.
  - intros c kd. by destruct alpha.
  - intros oc kd ->. by destruct alpha.
  - intros k d -> ->. by destruct alpha.
  - intros ->. by destruct alpha.
  - intros c kd col al -> H.
    destruct c as [c |]; [by injection H as <- |].
    destruct (own_color o) as [oc |]; [by injection H as <- |].
    destruct kd as [k |]; [| by injection H as <-].
    destruct (dict_get default_colors k); [by injection H as <- | done].
Qed.

(** C9. The code when alphas are given without colours: [to_ocp] checks
    the length of [alphas] and then does not read them; the call returns
    what it returns without them. *)
Theorem to_ocp_ignores_alphas (cad_objs : list pyobj) names
    (alphas : list (option Q)) l (helper_scale : Q) (sketch_local : bool)
    (level : nat) (st : state) :
  length alphas = length cad_objs →
  to_ocp cad_objs names None (Some alphas) l helper_scale sketch_local level st
  = to_ocp cad_objs names None None l helper_scale sketch_local level st.
Proof.
  intros Hlen. unfold to_ocp, to_ocp_gen, validate_alphas, validate_colors.
  rewrite length_fmap. simpl.
  rewrite !bool_decide_eq_false_2; [done | |].
  - rewrite length_replicate. auto.
  - rewrite Hlen. auto.
Qed.
End ToOcp.

Lemma to_ocp_arity_error_witness :
  ∃ msg,
    @to_ocp Toy.kernel Toy.package
      [PyTopoDS (Toy.cube 1 0); PyTopoDS (Toy.cube 2 0); PyTopoDS (Toy.cube 3 0)]
      (Some [Some "a"; Some "b"]) None None None 1 false 0 Toy.st0
    = (Raise (ValueError msg), Toy.st0).
Proof.
  destruct (@to_ocp_arity_error Toy.kernel Toy.package
              [PyTopoDS (Toy.cube 1 0); PyTopoDS (Toy.cube 2 0); PyTopoDS (Toy.cube 3 0)]
              (Some [Some "a"; Some "b"]) None None None 1 false 0%nat Toy.st0)
    as (msg & Hmsg & _).
  - left. exists [Some "a"; Some "b"]. split; [reflexivity | simpl; lia].
  - exists msg. exact Hmsg.
Defined.

Lemma skip_unrecognized_witness :
  @to_ocp Toy.kernel Toy.package
    [PyTopoDS (Toy.cube 1 0); PyOpaque "<class 'Foo'>"; PyTopoDS (Toy.cube 2 0)]
    None None None None 1 false 0 Toy.st0
  = (Ok (@OcpGroup Toy.kernel "Group" (Some (@LocLocation Toy.kernel 0%Z))
           [OcpLeaf (@referential Toy.kernel "solid" 0 "Solid" 0%Z
                       (mkColor 232 176 36 1) "");
            OcpLeaf (@referential Toy.kernel "solid" 1 "Solid" 0%Z
                       (mkColor 232 176 36 1) "")]),
     @mkState Toy.kernel [(Toy.cube 1 0, ""); (Toy.cube 2 0, "")] true
       [Text "debug: handle_shapes (TopoDS_Shape) (TopoDS_Solid) "; Text "=> node";
        Text "Skipping object of type <class 'Foo'>";
        Text "debug: handle_shapes (TopoDS_Shape) (TopoDS_Solid) "; Text "=> node"]
       []).
Proof.
  destruct (@skip_unrecognized Toy.kernel Toy.package (PyOpaque "<class 'Foo'>")
              false 1 0%nat eq_refl eq_refl) as (_ & _ & _ & _ & _ & _ & Htree).
  etransitivity;
    [exact (Htree [PyTopoDS (Toy.cube 1 0)] [PyTopoDS (Toy.cube 2 0)] None Toy.st0)|].
  vm_compute. reflexivity.
Defined.

Lemma assembly_call_raises_witness :
  @to_ocp Toy.kernel Toy.package
    [PyB123d (Some "assembly") None (Toy.compound 5 3) true
       [PyB123d (Some "part") None (Toy.cube 1 0) false []]]
    None None None None 1 false 0 Toy.st0
  = (Raise missing_level, Toy.st0).
Proof.
  destruct (@assembly_call_raises Toy.kernel Toy.package (Some "assembly") None
              (Toy.compound 5 3)
              [PyB123d (Some "part") None (Toy.cube 1 0) false []]
              false 1 0%nat None None Toy.st0) as (_ & _ & Hcall).
  - discriminate.
  - apply Hcall.
Defined.

Lemma to_ocp_ignores_alphas_witness :
  @to_ocp Toy.kernel Toy.package
    [PyB123d (Some "box") (Some (ColorTuple4 1 0 0 1)) (Toy.cube 1 0) false []]
    None None (Some [Some (1 # 2)]) None 1 false 0 Toy.st0
  = @to_ocp Toy.kernel Toy.package
      [PyB123d (Some "box") (Some (ColorTuple4 1 0 0 1)) (Toy.cube 1 0) false []]
      None None None None 1 false 0 Toy.st0.
Proof.
  apply (@to_ocp_ignores_alphas Toy.kernel Toy.package). reflexivity.
Defined.

(** The leaf of an object with its own colour, converted with an alpha of
    one half and no colours: the colour keeps its own alpha. *)
Example alpha_without_colors_is_dropped :
  fst (@to_ocp Toy.kernel Toy.package
         [PyB123d (Some "box") (Some (ColorTuple4 1 0 0 1)) (Toy.cube 1 0) false []]
         None None (Some [Some (1 # 2)]) None 1 false 0 Toy.st0)
  = Ok (@OcpGroup Toy.kernel "Group" (Some (@LocLocation Toy.kernel 0%Z))
          [OcpLeaf (@referential Toy.kernel "solid" 0 "box" 0%Z (mkColor 1 0 0 1) "")]).
Proof. vm_compute. reflexivity. Qed.

(** The same object inside a list, without colours: the handler of the list
    hands [colors=[None]] down, [get_rgba] turns that [None] into the global
    default, and the leaf gets the default colour, not its own. *)
Example nested_object_gets_default_color :
  fst (@to_ocp Toy.kernel Toy.package
         [PyList [PyB123d (Some "box") (Some (ColorTuple4 1 0 0 1)) (Toy.cube 1 0)
                    false []]]
         None None None None 1 false 0 Toy.st0)
  = Ok (@OcpGroup Toy.kernel "Group" (Some (@LocLocation Toy.kernel 0%Z))
          [OcpGroup "List" None
             [OcpGroup "Group" (Some (@LocLocation Toy.kernel 0%Z))
                [OcpLeaf (@referential Toy.kernel "solid" 0 "Solid" 0%Z
                            (mkColor 160 160 160 1) "")]]]).
Proof. vm_compute. reflexivity. Qed.

(** * Further properties *)

(** ** The dictionary form of a box *)

(** X1. [to_dict] and [BoundingBox(dict)] are inverse to each other: a
    dictionary read into a box and written back is unchanged, and a box
    written to a dictionary and read back is the same box, with all its
    derived attributes, up to the flag [optimal], which the dictionary does
    not carry. *)
Theorem box_dict_round_trip (d : bbox_dict) (opt : bool) (v : bnd_values) :
  to_dict (BoundingBox_of_dict d) = d
  ∧ dict_extents (to_dict (_calc (set_extents (blank_box opt) v))) = v
  ∧ BoundingBox_of_dict (to_dict (_calc (set_extents (blank_box opt) v)))
    = _calc (set_extents (blank_box false) v).
Proof.
  destruct d, v as [[[[[x0 x1] y0] y1] z0] z1]. split_and!; reflexivity.
Qed.

Lemma py_max_list_greatest (l : list Q) : ∀ x, greatest (py_max_list x l) (x :: l).
Proof.
  unfold py_max_list. induction l as [|y l IH]; intros x; simpl.
  - apply greatest_singleton.
  - rewrite py_max_Qmax. destruct (IH (Qmax x y)) as [Hin Hall]. split.
    + apply elem_of_cons in Hin as [->|Hin].
      * destruct (Qmax_cases x y) as [->| ->]; [left|right; left].
      * right; right; exact Hin.
    + inversion_clear Hall as [|? ? Hm Hl].
      constructor; [|constructor]; [| |exact Hl].
      * eapply Qle_trans; [|exact Hm]. apply Q.le_max_l.
      * eapply Qle_trans; [|exact Hm]. apply Q.le_max_r.
Qed.

(** X2. [_calc] derives, from the six extents, the centre as the midpoint
    of each axis and [max] as the greatest absolute extent: the box lies in
    the cube [[-max, max]^3], and [max] is attained by one of its faces. *)
Theorem calc_centre_and_max (b : BoundingBox) :
  let c := _calc b in
  extents c = extents b
  ∧ 2 * (center c).1.1 == xmin b + xmax b
  ∧ 2 * (center c).1.2 == ymin b + ymax b
  ∧ 2 * (center c).2 == zmin b + zmax b
  ∧ greatest (bb_max c)
      [Qabs (xmin b); Qabs (xmax b); Qabs (ymin b); Qabs (ymax b);
       Qabs (zmin b); Qabs (zmax b)]
  ∧ inside (extents b)
      (- bb_max c, bb_max c, - bb_max c, bb_max c, - bb_max c, bb_max c).
Proof.
  intros c.
  assert (Hg : greatest (bb_max c)
      [Qabs (xmin b); Qabs (xmax b); Qabs (ymin b); Qabs (ymax b);
       Qabs (zmin b); Qabs (zmax b)]) by apply py_max_list_greatest.
  split_and!; try reflexivity; try (simpl; field); try exact Hg.
  destruct Hg as [_ Hall].
  repeat match goal with H : Forall _ (_ :: _) |- _ =>
    let Hm := fresh "Hm" in inversion_clear H as [|? ? Hm ?] end.
  unfold inside, extents.
  repeat match goal with H : Qabs _ <= _ |- _ => apply Qabs_Qle_condition in H end.
  split_and!; lra.
Qed.

(** ** [update] as meet and join of boxes *)

Lemma Qmin_glb (x y z : Q) : z <= Qmin x y ↔ z <= x ∧ z <= y.
Proof. apply Q.min_glb_iff. Qed.

Lemma Qmax_lub (x y z : Q) : Qmax x y <= z ↔ x <= z ∧ y <= z.
Proof. apply Q.max_lub_iff. Qed.

(** X3. [update(bb, minimize=True)] intersects: the result lies in both
    boxes, and on each axis it is a proper interval exactly when the two
    boxes overlap on that axis; for boxes that are apart the result has its
    lower extent above its upper one. *)
Theorem update_minimize_intersects (self bb : BoundingBox) :
  ordered (extents self) → ordered (extents bb) →
  ∃ r, update self (ArgBox bb) true = Ok r
    ∧ inside (extents r) (extents self) ∧ inside (extents r) (extents bb)
    ∧ (xmin r <= xmax r ↔ overlap (xmin self) (xmax self) (xmin bb) (xmax bb))
    ∧ (ymin r <= ymax r ↔ overlap (ymin self) (ymax self) (ymin bb) (ymax bb))
    ∧ (zmin r <= zmax r ↔ overlap (zmin self) (zmax self) (zmin bb) (zmax bb)).
Proof.
  intros (Hx & Hy & Hz) (Hx' & Hy' & Hz').
  eexists; split; [reflexivity|].
  unfold inside, overlap, extents, lower, upper; cbn [_calc set_extents xmin xmax ymin ymax zmin zmax].
  rewrite !py_min_Qmin, !py_max_Qmax.
  split_and!;
    try apply Q.le_max_l; try apply Q.le_max_r;
    try apply Q.le_min_l; try apply Q.le_min_r.
  all: rewrite Qmin_glb, !Qmax_lub; split; intros; split_and?; try tauto; lra.
Qed.

Lemma update_minimize_intersects_witness :
  ∃ r, update (BoundingBox_of_dict (BBoxDict 0 1 0 1 0 1))
         (ArgBox (BoundingBox_of_dict (BBoxDict 2 3 0 1 0 1))) true = Ok r
    ∧ ¬ xmin r <= xmax r ∧ ymin r <= ymax r.
Proof.
  destruct (update_minimize_intersects
              (BoundingBox_of_dict (BBoxDict 0 1 0 1 0 1))
              (BoundingBox_of_dict (BBoxDict 2 3 0 1 0 1)))
    as (r & Hr & _ & _ & Hx & Hy & _).
  - simpl. split_and!; lra.
  - simpl. split_and!; lra.
  - exists r. split; [exact Hr|]. split.
    + intros H. apply Hx in H. destruct H as [_ H]. simpl in H. lra.
    + apply Hy. split; simpl; lra.
Defined.

(** ** The order of the updates does not matter *)

(** The box [update] leaves in [self] for a dictionary. *)
Lemma update_dict_Ok (self : BoundingBox) (d : bbox_dict) (minimize : bool) :
  ∃ r, update self (ArgDict d) minimize = Ok r
    ∧ optimal r = optimal self
    ∧ extents r
      = (lower minimize (d_xmin d) (xmin self), upper minimize (d_xmax d) (xmax self),
         lower minimize (d_ymin d) (ymin self), upper minimize (d_ymax d) (ymax self),
         lower minimize (d_zmin d) (zmin self), upper minimize (d_zmax d) (zmax self)).
Proof. eexists; split_and!; reflexivity. Qed.

Lemma lower_proper (m : bool) (x y y' : Q) : y == y' → lower m x y == lower m x y'.
Proof.
  intros H. destruct m; unfold lower; rewrite ?py_min_Qmin, ?py_max_Qmax;
    rewrite H; reflexivity.
Qed.

Lemma upper_proper (m : bool) (x y y' : Q) : y == y' → upper m x y == upper m x y'.
Proof.
  intros H. destruct m; unfold upper; rewrite ?py_min_Qmin, ?py_max_Qmax;
    rewrite H; reflexivity.
Qed.

Lemma lower_swap (m : bool) (x y z : Q) :
  lower m x (lower m y z) == lower m y (lower m x z).
Proof.
  destruct m; unfold lower; rewrite ?py_min_Qmin, ?py_max_Qmax.
  - rewrite !Q.max_assoc, (Q.max_comm x y). reflexivity.
  - rewrite !Q.min_assoc, (Q.min_comm x y). reflexivity.
Qed.

Lemma upper_swap (m : bool) (x y z : Q) :
  upper m x (upper m y z) == upper m y (upper m x z).
Proof.
  destruct m; unfold upper; rewrite ?py_min_Qmin, ?py_max_Qmax.
  - rewrite !Q.min_assoc, (Q.min_comm x y). reflexivity.
  - rewrite !Q.max_assoc, (Q.max_comm x y). reflexivity.
Qed.

Lemma box_equiv_refl (b : BoundingBox) : box_equiv b b.
Proof. split; [reflexivity|]. unfold same_extents, extents. split_and!; reflexivity. Qed.

Lemma box_equiv_trans (a b c : BoundingBox) :
  box_equiv a b → box_equiv b c → box_equiv a c.
Proof.
  intros [Ho H] [Ho' H']. split; [congruence|].
  unfold same_extents, extents in *.
  destruct H as (?&?&?&?&?&?), H' as (?&?&?&?&?&?).
  split_and!; etransitivity; eassumption.
Qed.

Lemma update_all_snoc (b : BoundingBox) (ds : list bbox_dict) (d : bbox_dict) m :
  update_all b (ds ++ [d]) m = (update_all b ds m ≫= λ r, update r (ArgDict d) m).
Proof. unfold update_all. rewrite foldl_app. reflexivity. Qed.

Lemma update_all_cons (b : BoundingBox) (ds : list bbox_dict) (d : bbox_dict) m :
  update_all b (d :: ds) m
  = (update b (ArgDict d) m ≫= λ r, update_all r ds m).
Proof. reflexivity. Qed.

Lemma update_all_congr (ds : list bbox_dict) m :
  ∀ b b', box_equiv b b' →
    ∃ r r', update_all b ds m = Ok r ∧ update_all b' ds m = Ok r' ∧ box_equiv r r'.
Proof.
  induction ds as [|d ds IH]; intros b b' Hb.
  - exists b, b'. split_and!; [reflexivity..|exact Hb].
  - rewrite !update_all_cons.
    destruct (update_dict_Ok b d m) as (r1 & -> & Ho1 & He1).
    destruct (update_dict_Ok b' d m) as (r2 & -> & Ho2 & He2).
    apply IH. destruct Hb as [Ho He]. split; [congruence|].
    rewrite He1, He2. unfold same_extents, extents in *.
    destruct He as (?&?&?&?&?&?).
    split_and!; first [apply lower_proper|apply upper_proper]; assumption.
Qed.

Lemma update_swap (b : BoundingBox) (d1 d2 : bbox_dict) m :
  ∃ r r', (update b (ArgDict d1) m ≫= λ r, update r (ArgDict d2) m) = Ok r
    ∧ (update b (ArgDict d2) m ≫= λ r, update r (ArgDict d1) m) = Ok r'
    ∧ box_equiv r r'.
Proof.
  eexists; eexists; split_and!; [reflexivity..|].
  split; [reflexivity|].
  unfold same_extents, extents; cbn [_calc set_extents xmin xmax ymin ymax zmin zmax].
  split_and!; first [apply lower_swap|apply upper_swap].
Qed.

Lemma update_all_perm (ds ds' : list bbox_dict) m :
  ds ≡ₚ ds' → ∀ b b', box_equiv b b' →
    ∃ r r', update_all b ds m = Ok r ∧ update_all b' ds' m = Ok r' ∧ box_equiv r r'.
Proof.
  induction 1 as [|d ds ds' _ IH|d1 d2 ds|ds1 ds2 ds3 _ IH1 _ IH2]; intros b b' Hb.
  - exists b, b'. split_and!; [reflexivity..|exact Hb].
  - rewrite !update_all_cons.
    destruct (update_all_congr [d] m b b' Hb) as (r1 & r2 & H1 & H2 & Hr).
    rewrite update_all_cons in H1, H2.
    destruct (update b (ArgDict d) m) as [u1|]; [|discriminate].
    destruct (update b' (ArgDict d) m) as [u2|]; [|discriminate].
    simpl in H1, H2. injection H1 as ->. injection H2 as ->.
    apply IH, Hr.
  - rewrite !update_all_cons.
    destruct (update_swap b d2 d1 m) as (r1 & r2 & H1 & H2 & Hr).
    destruct (update_all_congr [d1; d2] m b b' Hb) as (r3 & r4 & H3 & H4 & Hr').
    rewrite !update_all_cons in H3, H4.
    destruct (update b (ArgDict d2) m) as [u1|]; [|discriminate].
    destruct (update b (ArgDict d1) m) as [u2|]; [|discriminate].
    destruct (update b' (ArgDict d1) m) as [u3|]; [|discriminate].
    cbn [mbind result_bind] in *.
    rewrite !update_all_cons.
    rewrite H1.
    change (update_all u3 [d2] m) with (update u3 (ArgDict d2) m ≫= λ r, Ok r) in H4.
    change (update_all u2 [d2] m) with (update u2 (ArgDict d2) m ≫= λ r, Ok r) in H3.
    destruct (update u3 (ArgDict d2) m) as [u4|]; [|discriminate].
    rewrite H2 in H3. cbn in H3, H4. injection H3 as ->. injection H4 as ->.
    cbn [mbind result_bind].
    apply update_all_congr. eapply box_equiv_trans; eassumption.
  - destruct (IH1 b b (box_equiv_refl b)) as (r1 & r2 & H1 & H2 & Hr).
    destruct (IH2 b b' Hb) as (r3 & r4 & H3 & H4 & Hr').
    exists r1, r4. split_and!; [assumption..|].
    rewrite H2 in H3. injection H3 as ->.
    eapply box_equiv_trans; eassumption.
Qed.

(** X4. Merging a list of boxes into [self] gives the same flag and the
    same extents whatever the order of the list, for [minimize] as well as
    without it, and no such merge raises. *)
Theorem update_order_independent (self : BoundingBox) (ds ds' : list bbox_dict)
    (minimize : bool) :
  ds ≡ₚ ds' →
  ∃ r r', update_all self ds minimize = Ok r ∧ update_all self ds' minimize = Ok r'
    ∧ optimal r = optimal r' ∧ same_extents (extents r) (extents r').
Proof.
  intros Hp. destruct (update_all_perm ds ds' minimize Hp self self (box_equiv_refl _))
    as (r & r' & H1 & H2 & Ho & He).
  exists r, r'. auto.
Qed.

Lemma update_order_independent_witness :
  ∃ r r', update_all BoundingBox_empty [BBoxDict 0 1 0 1 0 1; BBoxDict 2 3 (-1) 1 0 5] false = Ok r
    ∧ update_all BoundingBox_empty [BBoxDict 2 3 (-1) 1 0 5; BBoxDict 0 1 0 1 0 1] false = Ok r'
    ∧ optimal r = optimal r' ∧ same_extents (extents r) (extents r').
Proof.
  apply (update_order_independent BoundingBox_empty
           [BBoxDict 0 1 0 1 0 1; BBoxDict 2 3 (-1) 1 0 5]
           [BBoxDict 2 3 (-1) 1 0 5; BBoxDict 0 1 0 1 0 1] false).
  apply Permutation_swap.
Defined.

Section Memo.
Context {K : Kernel} {P : Package}.

Lemma vec3_eqb_refl (v : vec3) : vec3_eqb v v = true.
Proof. unfold vec3_eqb. by rewrite !Qeq_bool_refl. Qed.

Lemma quat_eqb_refl (q : quat) : quat_eqb q q = true.
Proof. unfold quat_eqb. by rewrite !Qeq_bool_refl. Qed.

Lemma key_eqb_refl (k : cache_key) : key_eqb k k = true.
Proof.
  unfold key_eqb. rewrite bool_decide_eq_true_2 by done.
  destruct (k.2) as [[t q]|]; [|done].
  by rewrite vec3_eqb_refl, quat_eqb_refl.
Qed.

(** X5. [bounding_box] is memoised on the hash codes and the location
    alone: a repeated call with the same shapes and location returns the
    box of the first call and changes nothing (in particular it prints no
    second void-box line), whatever [optimal] it is given; on a miss the
    box is the one of the flag of that first call. *)
Theorem bounding_box_memoised (objs : shape_arg) (l : option Location)
    (opt opt' : bool) (st : state) :
  let r := bounding_box objs l opt st in
  bounding_box objs l opt' r.2 = r
  ∧ (cache_lookup (make_key objs l opt) (cache st) = None →
     r.1 = Ok (shape_box opt (box_target objs l))
     ∧ bounding_box objs l (negb opt) r.2
       = (Ok (shape_box opt (box_target objs l)), r.2)).
Proof.
  assert (Hk : ∀ o, make_key objs l o = make_key objs l opt) by done.
  assert (Hrepeat : ∀ o, bounding_box objs l o (bounding_box objs l opt st).2
                         = bounding_box objs l opt st).
  { intros o. unfold bounding_box at 2 3. unfold mbind, M_bind, get_state.
    destruct (cache_lookup (make_key objs l opt) (cache st)) as [v|] eqn:Hlook.
    - simpl. unfold bounding_box, mbind, M_bind, get_state.
      rewrite (Hk o), Hlook. reflexivity.
    - unfold bounding_box_uncached.
      destruct (BoundingBox_init_shape opt (box_target objs l) st) as [out Hinit].
      unfold box_target in Hinit. rewrite Hinit.
      simpl. unfold bounding_box, mbind, M_bind, get_state.
      rewrite (Hk o). simpl. rewrite key_eqb_refl. reflexivity. }
  intros r. split; [apply Hrepeat|]. intros Hlook.
  assert (Hr : r.1 = Ok (shape_box opt (box_target objs l))).
  { subst r. unfold bounding_box, mbind, M_bind, get_state. rewrite Hlook.
    unfold bounding_box_uncached.
    destruct (BoundingBox_init_shape opt (box_target objs l) st) as [out Hinit].
    unfold box_target in Hinit. rewrite Hinit. reflexivity. }
  split; [exact Hr|].
  subst r. rewrite Hrepeat. rewrite <- Hr. by destruct (bounding_box objs l opt st).
Qed.

(** X6. A shape whose kernel box is void gets a box that [is_empty]
    reports as empty, and so does the box [BoundingBox()]. *)
Theorem void_box_is_empty (opt : bool) (s : Shape) (st : state) :
  BRepBndLib_Add opt s = None →
  ∃ b st', BoundingBox_init (FromShape s) opt st = (Ok b, st')
    ∧ is_empty b = true ∧ is_empty BoundingBox_empty = true.
Proof.
  intros Hvoid. unfold BoundingBox_init, _bounding_box. rewrite Hvoid.
  eexists; eexists; split; [reflexivity|]. split; [|reflexivity].
  unfold is_empty; cbn [_calc set_extents xmin xmax ymin ymax zmin zmax].
  unfold tol_default.
  repeat match goal with |- context [Qlt_le_dec ?a ?b] =>
    destruct (Qlt_le_dec a b) as [_|Hle];
    [|exfalso; revert Hle; apply Qlt_not_le, Qabs_Qlt_condition; split; lra] end.
  reflexivity.
Qed.

End Memo.

Lemma bounding_box_memoised_witness :
  (bounding_box (OneShape (Toy.cube 2 0)) None true
     (bounding_box (OneShape (Toy.cube 2 0)) None false Toy.st0).2).1
  = Ok (@shape_box Toy.kernel false (Toy.cube 2 0)).
Proof.
  pose proof (@bounding_box_memoised Toy.kernel
                (OneShape (Toy.cube 2 0)) None false true Toy.st0) as [_ H].
  destruct (H eq_refl) as [_ H2]. simpl negb in H2. rewrite H2. reflexivity.
Defined.

Lemma void_box_is_empty_witness :
  ∃ b st', @BoundingBox_init Toy.kernel (FromShape (Toy.cube 0 5)) false Toy.st0 = (Ok b, st')
    ∧ is_empty b = true ∧ is_empty BoundingBox_empty = true.
Proof. apply (@void_box_is_empty Toy.kernel false (Toy.cube 0 5) Toy.st0). reflexivity. Defined.

Section NpBboxOutcomes.
Context {K : Kernel}.

Lemma reshape3_length (p : list Q) :
  match reshape3 p with
  | Some n_p => (length p = 3 * length n_p)%nat
  | None => (length p mod 3 ≠ 0)%nat
  end.
Proof.
  assert (H : ∀ n p, (length p < n)%nat →
    match reshape3 p with
    | Some n_p => (length p = 3 * length n_p)%nat
    | None => (length p mod 3 ≠ 0)%nat
    end).
  { clear p. induction n as [|n IH]; intros p Hlen; [lia|].
    destruct p as [|x [|y [|z rest]]]; try done.
    specialize (IH rest ltac:(simpl in Hlen; lia)).
    change (reshape3 (x :: y :: z :: rest)) with (cons (x, y, z) <$> reshape3 rest).
    destruct (reshape3 rest) as [n_p|]; cbn -[Nat.modulo Nat.mul].
    - rewrite IH. lia.
    - replace (S (S (S (length rest)))) with (length rest + 1 * 3)%nat by lia.
      by rewrite Nat.Div0.mod_add. }
  apply (H (S (length p))). lia.
Qed.

(** X7. The outcomes of [np_bbox] are decided by the length of the buffer
    and by which of [t] and [q] are [None]: a box for a non-empty buffer of
    whole triples with both or neither given, [ValueError] for a length that
    is not a multiple of three, [TypeError] when exactly one of [t] and [q]
    is [None]. *)
Theorem np_bbox_outcomes (p : list Q) (t : option vec3) (q : option quat) :
  ((∃ d, np_bbox p t q = Ok (Some d))
   ↔ p ≠ [] ∧ (length p mod 3 = 0)%nat ∧ (is_Some t ↔ is_Some q))
  ∧ ((∃ msg, np_bbox p t q = Raise (ValueError msg)) ↔ (length p mod 3 ≠ 0)%nat)
  ∧ ((∃ msg, np_bbox p t q = Raise (TypeError msg))
     ↔ p ≠ [] ∧ (length p mod 3 = 0)%nat ∧ ¬ (is_Some t ↔ is_Some q)).
Proof.
  assert (Hcases :
    (p = [] ∧ np_bbox p t q = Ok None)
    ∨ ((length p mod 3 ≠ 0)%nat
       ∧ np_bbox p t q = Raise (ValueError "cannot reshape array into shape (3)"))
    ∨ (p ≠ [] ∧ (length p mod 3 = 0)%nat ∧ (is_Some t ↔ is_Some q)
       ∧ ∃ d, np_bbox p t q = Ok (Some d))
    ∨ (p ≠ [] ∧ (length p mod 3 = 0)%nat ∧ ¬ (is_Some t ↔ is_Some q)
       ∧ ∃ msg, np_bbox p t q = Raise (TypeError msg))).
  { unfold np_bbox. destruct p as [|x p'] eqn:Hp; [by left|].
    rewrite <- Hp. assert (Hne : p ≠ []) by (by subst).
    replace (length p =? 0)%nat with false
      by (symmetry; apply Nat.eqb_neq; subst; simpl; lia).
    pose proof (reshape3_length p) as Hlen.
    destruct (reshape3 p) as [n_p|] eqn:Hre; [|by right; left].
    assert (Hmod : (length p mod 3 = 0)%nat).
    { rewrite Hlen, Nat.mul_comm. apply Nat.Div0.mod_mul. }
    destruct n_p as [|v0 vs].
    { simpl in Hlen. destruct Hne. by apply nil_length_inv. }
    right; right.
    destruct t as [n_t|], q as [[[[qx qy] qz] qw]|]; simpl.
    - left. split_and!; [done..| |by eexists]. split; eauto.
    - right. split_and!; [done..| |by eexists].
      intros [H _]. by destruct (H ltac:(eauto)).
    - right. split_and!; [done..| |by eexists].
      intros [_ H]. by destruct (H ltac:(eauto)).
    - left. split_and!; [done..| |by eexists]. split; intros [? ?]; done. }
  destruct Hcases as [[-> ->]|[[Hm ->]|[(Hne & Hm & Hiff & d & ->)|(Hne & Hm & Hiff & msg & ->)]]].
  - split_and!; (split; [intros [? Heq]; discriminate Heq|]).
    + by intros [? _].
    + by intros ?.
    + by intros [? _].
  - split_and!; (split; [intros [? Heq]; try discriminate Heq|]).
    + by intros (_ & ? & _).
    + done.
    + by eexists.
    + by intros (_ & ? & _).
  - split_and!; (split; [intros [? Heq]; try discriminate Heq|]).
    + done.
    + by eexists.
    + done.
    + by intros (_ & _ & ?).
  - split_and!; (split; [intros [? Heq]; try discriminate Heq|]).
    + by intros (_ & _ & ?).
    + done.
    + done.
    + by eexists.
Qed.

End NpBboxOutcomes.

Lemma leaves_map_leaves (f : shapes_leaf → shapes_leaf) (s : shapes) :
  leaves (map_leaves f s) = f <$> leaves s.
Proof.
  induction s as [lf | parts IH] using shapes_nested_ind; [done|].
  simpl. induction IH as [|x xs Hx _ IHxs]; [done|].
  simpl. rewrite fmap_app, Hx. f_equal. exact IHxs.
Qed.

Lemma update_all_Ok (ds : list bbox_dict) (m : bool) :
  ∀ b, ∃ r, update_all b ds m = Ok r.
Proof.
  induction ds as [|d ds IH]; intros b; [by eexists|].
  change (update_all b (d :: ds) m)
    with (update b (ArgDict d) m ≫= λ r, update_all r ds m).
  simpl. apply IH.
Qed.

Lemma update_all_app (b : BoundingBox) (ds1 ds2 : list bbox_dict) (m : bool) :
  update_all b (ds1 ++ ds2) m = (update_all b ds1 m ≫= λ r, update_all r ds2 m).
Proof.
  revert b. induction ds1 as [|d ds1 IH]; intros b; [done|].
  change (update_all b ((d :: ds1) ++ ds2) m)
    with (update b (ArgDict d) m ≫= λ r, update_all r (ds1 ++ ds2) m).
  change (update_all b (d :: ds1) m)
    with (update b (ArgDict d) m ≫= λ r, update_all r ds1 m).
  simpl. apply IH.
Qed.

Section AddBBTree.
Context {K : Kernel} {P : Package}.
Variable meshed : list Mesh.

Lemma add_bb_leaf_inv (lf : shapes_leaf) (overall : BoundingBox)
    (r : shapes_leaf * BoundingBox) :
  String.eqb (l_type lf) "shapes" = true →
  add_bb_leaf meshed lf overall = Ok r →
  ∃ d, leaf_bbox meshed lf = Some (Ok (Some d))
    ∧ r.1 = set_bb lf (Some (Some d))
    ∧ update overall (ArgDict d) false = Ok r.2.
Proof.
  intros Hty. unfold add_bb_leaf, leaf_bbox. rewrite Hty.
  destruct (meshed !! l_ref lf) as [mesh|]; [|done].
  destruct (l_loc lf) as [[t q]|]; [|done].
  destruct (np_bbox (mesh_vertices mesh) t q) as [[d|]|e]; [|done..].
  simpl. intros [= <-]. by exists d.
Qed.

Lemma add_bb_loop_tree
    (rec : shapes → BoundingBox → result (shapes * BoundingBox)) (todo : list shapes) :
  Forall (in_group (λ s, ∀ overall t overall',
            rec s overall = Ok (t, overall') →
            t = map_leaves (annotate meshed) s
            ∧ update_all overall (omap (new_box meshed) (leaves s)) false = Ok overall'
            ∧ Forall (leaf_boxed meshed) (leaves s))) todo →
  ∀ seen overall t overall',
    _add_bb_loop meshed rec todo seen overall = Ok (t, overall') →
    t = ShapesGroup (seen ++ map (map_leaves (annotate meshed)) todo)
    ∧ update_all overall (omap (new_box meshed) (flat_map leaves todo)) false
      = Ok overall'
    ∧ Forall (leaf_boxed meshed) (flat_map leaves todo).
Proof.
  induction 1 as [|x rest Hx _ IH]; intros seen overall t overall' Hrun.
  - simpl in Hrun. injection Hrun as <- <-. by rewrite app_nil_r.
  - destruct x as [parts|lf].
    + simpl in Hrun. destruct (rec (ShapesGroup parts) overall) as [[t1 o1]|e] eqn:Hrec;
        [|done]. simpl in Hrun.
      destruct (Hx overall t1 o1 Hrec) as (-> & Hu & Hall).
      destruct (IH _ _ _ _ Hrun) as (-> & Hu' & Hall').
      split_and!.
      * by rewrite <- app_assoc.
      * cbn [flat_map]. rewrite omap_app, update_all_app, Hu. exact Hu'.
      * cbn [flat_map]. by apply Forall_app.
    + simpl in Hrun. destruct (String.eqb (l_type lf) "shapes") eqn:Hty.
      * destruct (add_bb_leaf meshed lf overall) as [r|e] eqn:Hleaf; [|done].
        simpl in Hrun.
        destruct (add_bb_leaf_inv lf overall r Hty Hleaf) as (d & Hb & Hr1 & Hr2).
        destruct (IH _ _ _ _ Hrun) as (-> & Hu' & Hall').
        split_and!.
        -- rewrite <- app_assoc. simpl. unfold annotate. by rewrite Hb, Hr1.
        -- cbn [flat_map leaves app].
           change (omap (new_box meshed) (lf :: flat_map leaves rest))
             with (match new_box meshed lf with
                   | Some y => y :: omap (new_box meshed) (flat_map leaves rest)
                   | None => omap (new_box meshed) (flat_map leaves rest)
                   end).
           unfold new_box at 1. rewrite Hb.
           change (update_all overall (d :: ?l) false)
             with (update overall (ArgDict d) false ≫= λ r, update_all r l false).
           rewrite Hr2. exact Hu'.
        -- cbn [flat_map leaves app]. constructor; [|done].
           unfold leaf_boxed. rewrite Hb. by exists d.
      * destruct (IH _ _ _ _ Hrun) as (-> & Hu' & Hall').
        assert (Hb : leaf_bbox meshed lf = None).
        { unfold leaf_bbox. by rewrite Hty. }
        split_and!.
        -- rewrite <- app_assoc. simpl. unfold annotate. by rewrite Hb.
        -- cbn [flat_map leaves app].
           change (omap (new_box meshed) (lf :: flat_map leaves rest))
             with (match new_box meshed lf with
                   | Some y => y :: omap (new_box meshed) (flat_map leaves rest)
                   | None => omap (new_box meshed) (flat_map leaves rest)
                   end).
           unfold new_box at 1. rewrite Hb. exact Hu'.
        -- cbn [flat_map leaves app]. constructor; [|done].
           unfold leaf_boxed. by rewrite Hb.
Qed.

(** The dictionary and the box [_add_bb] returns, for every group of a
    dictionary. *)
Lemma add_bb_tree (s : shapes) :
  in_group (λ s, ∀ overall t overall',
    _add_bb meshed s overall = Ok (t, overall') →
    t = map_leaves (annotate meshed) s
    ∧ update_all overall (omap (new_box meshed) (leaves s)) false = Ok overall'
    ∧ Forall (leaf_boxed meshed) (leaves s)) s.
Proof.
  induction s as [lf|ps IH] using shapes_nested_ind; [done|].
  intros o t' o' Hrun. simpl in Hrun.
  destruct (add_bb_loop_tree (_add_bb meshed) ps IH [] o t' o' Hrun) as (-> & Hu & Hall).
  done.
Qed.

(** X8. When [_add_bb] returns, the dictionary is the one it was given with
    the ["bb"] of every leaf of type ["shapes"] set to the box [np_bbox]
    gives for the mesh the leaf refers to, and nothing else changed: leaves
    of another type keep what they had, groups keep their shape.  Every
    ["shapes"] leaf has then got a box (none got [None]), and the overall
    box is the given one merged with these boxes in the order of the
    leaves. *)
Theorem add_bb_annotates (parts : list shapes) (overall overall' : BoundingBox)
    (t : shapes) :
  _add_bb meshed (ShapesGroup parts) overall = Ok (t, overall') →
  t = map_leaves (annotate meshed) (ShapesGroup parts)
  ∧ Forall (leaf_boxed meshed) (leaves (ShapesGroup parts))
  ∧ update_all overall (omap (new_box meshed) (leaves (ShapesGroup parts))) false
    = Ok overall'.
Proof.
  intros Hrun.
  destruct (add_bb_tree (ShapesGroup parts) overall t overall' Hrun) as (Ht & Hu & Hall).
  split; [exact Ht|]. split; [exact Hall|exact Hu].
Qed.

End AddBBTree.

(** ** [combined_bb] on any dictionary *)

Lemma omap_cons {A B} (f : A → option B) (x : A) (l : list A) :
  omap f (x :: l) = match f x with Some y => y :: omap f l | None => omap f l end.
Proof. reflexivity. Qed.

Lemma spans_Some_nonempty (b : BoundingBox) (ds : list bbox_dict) :
  spans (Some b) ds → ds ≠ [].
Proof. intros ([H _] & _) ->. simpl in H. by apply elem_of_nil in H. Qed.

Lemma spans_singleton (d : bbox_dict) : spans (Some (BoundingBox_of_dict d)) [d].
Proof.
  simpl. repeat split; try apply list_elem_of_singleton; try done;
    repeat constructor; apply Qle_refl.
Qed.

Lemma c_bb_leaf_run (lf : shapes_leaf) (acc : option BoundingBox) :
  match l_bb lf with
  | None => c_bb_leaf lf acc = Raise (KeyError "bb")
  | Some _ =>
      ∃ acc', c_bb_leaf lf acc = Ok (set_bb lf None, Some acc')
        ∧ ∀ ds, spans acc ds → spans (Some acc') (ds ++ contrib acc [lf])
  end.
Proof.
  unfold c_bb_leaf. destruct (l_bb lf) as [[d|]|] eqn:Hb; [| |done].
  - destruct acc as [b|].
    + eexists. split; [reflexivity|]. intros ds Hs. unfold contrib.
      rewrite omap_cons. unfold leaf_box. rewrite Hb. simpl.
      destruct Hs as (H1 & H2 & H3 & H4 & H5 & H6).
      rewrite !fmap_app, !py_min_Qmin, !py_max_Qmax. simpl.
      repeat split; try (by apply least_snoc); try (by apply greatest_snoc);
        try (by apply least_snoc in H1); try (by apply least_snoc in H3);
        try (by apply least_snoc in H5); try (by apply greatest_snoc in H2);
        try (by apply greatest_snoc in H4); try (by apply greatest_snoc in H6).
    + eexists. split; [reflexivity|]. intros ds ->. simpl.
      unfold seeds. rewrite Hb, omap_cons. unfold leaf_box. rewrite Hb. simpl.
      apply spans_singleton.
  - destruct acc as [b|].
    + exists b. split; [reflexivity|]. intros ds Hs. unfold contrib.
      rewrite omap_cons. unfold leaf_box. rewrite Hb. simpl. by rewrite app_nil_r.
    + eexists. split; [reflexivity|]. intros ds ->. simpl.
      unfold seeds. rewrite Hb, omap_cons. unfold leaf_box. rewrite Hb. simpl.
      apply (spans_singleton zero_dict).
Qed.

Lemma seeds_nonempty (ls : list shapes_leaf) :
  ls ≠ [] → Forall (λ lf, is_Some (l_bb lf)) ls → seeds ls ≠ [].
Proof.
  destruct ls as [|lf ls]; [done|]. intros _ Hall.
  inversion_clear Hall as [|? ? [slot Hslot] _].
  unfold seeds. rewrite Hslot, omap_cons. unfold leaf_box. rewrite Hslot.
  by destruct slot.
Qed.

Lemma contrib_app (acc : option BoundingBox) (l1 l2 : list shapes_leaf) :
  contrib acc (l1 ++ l2)
  = contrib acc l1
    ++ contrib (match l1 with [] => acc | _ => Some BoundingBox_empty end) l2.
Proof.
  destruct acc as [b|]; simpl.
  - rewrite omap_app. by destruct l1.
  - destruct l1 as [|lf l1]; [done|]. unfold seeds.
    change ((lf :: l1) ++ l2) with (lf :: (l1 ++ l2)) at 1.
    cbv beta iota. rewrite omap_app, app_assoc. reflexivity.
Qed.

Lemma c_bb_loop_group
    (rec : shapes → option BoundingBox → result (shapes * option BoundingBox))
    (parts : list shapes) (rest seen : list shapes) (acc : option BoundingBox) :
  c_bb_loop rec (ShapesGroup parts :: rest) seen acc
  = (r ← rec (ShapesGroup parts) acc; c_bb_loop rec rest (seen ++ [r.1]) r.2).
Proof. reflexivity. Qed.

Lemma c_bb_loop_leaf
    (rec : shapes → option BoundingBox → result (shapes * option BoundingBox))
    (lf : shapes_leaf) (rest seen : list shapes) (acc : option BoundingBox) :
  c_bb_loop rec (ShapesLeaf lf :: rest) seen acc
  = (r ← c_bb_leaf lf acc; c_bb_loop rec rest (seen ++ [ShapesLeaf r.1]) r.2).
Proof. reflexivity. Qed.

Lemma flat_map_leaves_cons (x : shapes) (rest : list shapes) :
  flat_map leaves (x :: rest) = leaves x ++ flat_map leaves rest.
Proof. reflexivity. Qed.

(** The loop of [c_bb] on leaves that all have a ["bb"] entry, and on
    leaves one of which has none. *)
Lemma c_bb_loop_run
    (rec : shapes → option BoundingBox → result (shapes * option BoundingBox))
    (todo : list shapes) :
  Forall (in_group (λ s, ∀ acc,
    c_bb_outcome (rec s acc) (map_leaves (λ lf, set_bb lf None) s) acc (leaves s)))
    todo →
  ∀ seen acc,
    c_bb_outcome (c_bb_loop rec todo seen acc)
      (ShapesGroup (seen ++ map (map_leaves (λ lf, set_bb lf None)) todo))
      acc (flat_map leaves todo).
Proof.
  induction 1 as [|x rest Hx _ IH]; intros seen acc.
  - left. split; [constructor|]. exists acc. simpl. rewrite !app_nil_r.
    split_and!; [done..|].
    intros ds Hs. destruct acc; simpl; by rewrite app_nil_r.
  - rewrite flat_map_leaves_cons.
    assert (Hstep : ∀ t1 acc1,
      (leaves x = [] → acc1 = acc) → (acc1 = None → acc = None ∧ leaves x = []) →
      (∀ ds, spans acc ds → spans acc1 (ds ++ contrib acc (leaves x))) →
      Forall (λ lf, is_Some (l_bb lf)) (leaves x) →
      t1 = map_leaves (λ lf, set_bb lf None) x →
      c_bb_outcome (c_bb_loop rec rest (seen ++ [t1]) acc1)
        (ShapesGroup (seen ++ map (map_leaves (λ lf, set_bb lf None)) (x :: rest)))
        acc (leaves x ++ flat_map leaves rest)).
    { intros t1 acc1 Hsame Hnone Hs1 Hall ->.
      destruct (IH (seen ++ [map_leaves (λ lf, set_bb lf None) x]) acc1)
        as [(Hall' & acc2 & Hloop & Hsame' & Hnone' & Hs2)|[Hex Hloop]].
      - left. split; [by apply Forall_app|]. exists acc2. split_and!.
        + rewrite Hloop. by rewrite <- app_assoc.
        + intros [H1 H2]%app_eq_nil. by rewrite Hsame', Hsame.
        + intros H. destruct (Hnone' H) as [H1 H2]. destruct (Hnone H1) as [-> H3].
          by rewrite H2, H3.
        + intros ds Hs. rewrite contrib_app, app_assoc.
          specialize (Hs2 _ (Hs1 ds Hs)).
          destruct (leaves x) as [|lf1 l1] eqn:Hl1.
          * rewrite (Hsame eq_refl) in Hs2. exact Hs2.
          * destruct acc1 as [b1|]; [exact Hs2|].
            by destruct (Hnone eq_refl) as [_ ?].
      - right. split; [apply Exists_app; by right|]. exact Hloop. }
    destruct x as [parts|lf].
    + rewrite c_bb_loop_group.
      destruct (Hx acc) as [(Hall & acc1 & Hrec & Hsame & Hnone & Hs1)|[Hex Hrec]].
      * rewrite Hrec. by apply Hstep.
      * right. split; [apply Exists_app; by left|]. by rewrite Hrec.
    + rewrite c_bb_loop_leaf.
      pose proof (c_bb_leaf_run lf acc) as Hleaf.
      destruct (l_bb lf) as [slot|] eqn:Hb.
      * destruct Hleaf as (acc1 & -> & Hs1).
        apply Hstep; [done|done|exact Hs1|by repeat constructor; rewrite Hb|done].
      * right. split; [by left|]. by rewrite Hleaf.
Qed.

Lemma c_bb_run (s : shapes) :
  in_group (λ s, ∀ acc,
    c_bb_outcome (c_bb s acc) (map_leaves (λ lf, set_bb lf None) s) acc (leaves s)) s.
Proof.
  induction s as [lf|parts IH] using shapes_nested_ind; [done|].
  intros acc. apply (c_bb_loop_run c_bb parts IH [] acc).
Qed.

(** X9. [combined_bb] on a group all of whose leaves have a ["bb"] entry
    returns the box spanned by the boxes of the leaves, leaves whose ["bb"]
    is [None] being passed over, except that a first leaf with [None]
    starts the fold from the box of the origin, which the result then
    contains; it returns [None] exactly when the group has no leaf. *)
Theorem combined_bb_spans_seeds (parts : list shapes) :
  Forall (λ lf, is_Some (l_bb lf)) (leaves (ShapesGroup parts)) →
  ∃ bb, combined_bb (ShapesGroup parts) = Ok bb
    ∧ spans bb (seeds (leaves (ShapesGroup parts)))
    ∧ (bb = None ↔ leaves (ShapesGroup parts) = []).
Proof.
  intros Hall. unfold combined_bb.
  destruct (c_bb_run (ShapesGroup parts) None)
    as [(_ & acc' & Hrun & Hsame & Hnone & Hs)|[Hex _]].
  - rewrite Hrun. exists acc'. split_and!; [done|by apply (Hs [])|].
    split; [by intros [_ ?]%Hnone|by intros ?%Hsame].
  - exfalso. apply Exists_exists in Hex as (lf & Hin & Hlf).
    apply list_elem_of_In in Hin.
    rewrite Forall_forall in Hall. 
    destruct (Hall lf) as [? Hsome]; [by apply list_elem_of_In|]. congruence.
Qed.

(** X10. [combined_bb] uses the boxes up: after a run every leaf has lost
    its ["bb"] entry and nothing else has changed, so that a second run on
    the same dictionary raises [KeyError] as soon as there is a leaf; a run
    on a dictionary one of whose leaves has no ["bb"] entry raises
    [KeyError], and so does a run on a bare leaf, for ["parts"]. *)
Theorem combined_bb_consumes (parts : list shapes) (lf0 : shapes_leaf) :
  combined_bb (ShapesLeaf lf0) = Raise (KeyError "parts")
  ∧ (Exists (λ lf, l_bb lf = None) (leaves (ShapesGroup parts)) →
     combined_bb (ShapesGroup parts) = Raise (KeyError "bb"))
  ∧ ∀ t bb, c_bb (ShapesGroup parts) None = Ok (t, bb) →
      t = map_leaves (λ lf, set_bb lf None) (ShapesGroup parts)
      ∧ (leaves (ShapesGroup parts) ≠ [] → combined_bb t = Raise (KeyError "bb"))
      ∧ (leaves (ShapesGroup parts) = [] → combined_bb t = Ok None).
Proof.
  split; [done|]. split.
  - intros Hex. unfold combined_bb.
    destruct (c_bb_run (ShapesGroup parts) None) as [(Hall & _)|[_ ->]]; [|done].
    exfalso. apply Exists_exists in Hex as (lf & Hin & Hlf).
    rewrite Forall_forall in Hall. destruct (Hall lf Hin) as [? ?]. congruence.
  - intros t bb Hrun.
    destruct (c_bb_run (ShapesGroup parts) None)
      as [(Hall & acc' & Hrun' & _)|[_ Hrun']]; [|congruence].
    rewrite Hrun in Hrun'. injection Hrun' as -> ->. split; [done|].
    pose proof (leaves_map_leaves (λ lf, set_bb lf None) (ShapesGroup parts)) as Hl.
    change (map_leaves (λ lf, set_bb lf None) (ShapesGroup parts))
      with (ShapesGroup (map (map_leaves (λ lf, set_bb lf None)) parts)) in Hl |- *.
    unfold combined_bb.
    destruct (c_bb_run (ShapesGroup (map (map_leaves (λ lf, set_bb lf None)) parts)) None) as [(Hall2 & acc2 & Hrun2 & Hsame2 & _)|[Hex2 Hrun2]].
    + split.
      * intros Hne. exfalso. rewrite Hl in Hall2.
        destruct (leaves (ShapesGroup parts)) as [|lf ls]; [done|].
        inversion_clear Hall2 as [|? ? [? Hx] _]. done.
      * intros Hnil. rewrite Hrun2. simpl. f_equal. apply Hsame2. by rewrite Hl, Hnil.
    + split.
      * intros _. by rewrite Hrun2.
      * intros Hnil. rewrite Hl, Hnil in Hex2. by apply Exists_nil in Hex2.
Qed.

Section AddThenCombine.
Context {K : Kernel} {P : Package}.
Variable meshed : list Mesh.

(** X11. [combined_bb] after [_add_bb]: on the dictionary [_add_bb]
    returns, whose leaves of another type than ["shapes"] came with a
    ["bb"] entry, [combined_bb] does not raise and returns the box spanned
    by the boxes of the leaves, which for a ["shapes"] leaf is the box
    [np_bbox] gave for its mesh. *)
Theorem add_bb_then_combined_bb (parts : list shapes) (overall overall' : BoundingBox)
    (t : shapes) :
  _add_bb meshed (ShapesGroup parts) overall = Ok (t, overall') →
  Forall (λ lf, String.eqb (l_type lf) "shapes" = false → is_Some (l_bb lf))
    (leaves (ShapesGroup parts)) →
  ∃ bb, combined_bb t = Ok bb
    ∧ spans bb (seeds (annotate meshed <$> leaves (ShapesGroup parts)))
    ∧ Forall (λ lf, String.eqb (l_type lf) "shapes" = true →
                ∃ d, new_box meshed lf = Some d
                     ∧ leaf_box (annotate meshed lf) = Some d)
        (leaves (ShapesGroup parts)).
Proof.
  intros Hrun Hother.
  destruct (add_bb_tree meshed (ShapesGroup parts) overall t overall' Hrun)
    as (-> & _ & Hboxed).
  pose proof (leaves_map_leaves (annotate meshed) (ShapesGroup parts)) as Hl.
  change (map_leaves (annotate meshed) (ShapesGroup parts))
    with (ShapesGroup (map (map_leaves (annotate meshed)) parts)) in Hl |- *.
  assert (Hkeys : Forall (λ lf, is_Some (l_bb lf))
            (leaves (ShapesGroup (map (map_leaves (annotate meshed)) parts)))).
  { rewrite Hl. apply Forall_fmap.
    revert Hboxed Hother. generalize (leaves (ShapesGroup parts)).
    induction 1 as [|lf ls Hb _ IH]; intros Ho; [constructor|].
    inversion_clear Ho as [|? ? Ho1 Ho2]. constructor; [|by apply IH].
    simpl. unfold annotate. unfold leaf_boxed in Hb.
    destruct (leaf_bbox meshed lf) as [r|] eqn:Hlb.
    - destruct Hb as [d ->]. simpl. eauto.
    - apply Ho1. unfold leaf_bbox in Hlb.
      destruct (String.eqb (l_type lf) "shapes"); [|done].
      by destruct (meshed !! l_ref lf), (l_loc lf) as [[??]|]. }
  assert (Hcomb : ∃ bb,
    combined_bb (ShapesGroup (map (map_leaves (annotate meshed)) parts)) = Ok bb
    ∧ spans bb (seeds (leaves (ShapesGroup (map (map_leaves (annotate meshed)) parts))))).
  { unfold combined_bb.
    destruct (c_bb_run (ShapesGroup (map (map_leaves (annotate meshed)) parts)) None)
      as [(_ & acc' & Hrun' & _ & _ & Hs)|[Hex _]].
    - rewrite Hrun'. exists acc'. split; [done|]. by apply (Hs []).
    - exfalso. apply Exists_exists in Hex as (lf & Hin & Hlf).
      rewrite Forall_forall in Hkeys. destruct (Hkeys lf Hin) as [? ?]. congruence. }
  destruct Hcomb as (bb & Hc & Hs).
  exists bb. split; [exact Hc|]. split; [by rewrite <- Hl|].
  clear -Hboxed. revert Hboxed. generalize (leaves (ShapesGroup parts)).
  induction 1 as [|lf ls Hb _ IH]; constructor; [|exact IH].
  intros Hty. unfold leaf_boxed in Hb. unfold new_box, annotate.
  destruct (leaf_bbox meshed lf) as [r|] eqn:Hlb.
  - destruct Hb as [d ->]. exists d. split; [done|]. unfold leaf_box. done.
  - unfold leaf_bbox in Hlb. rewrite Hty in Hlb.
    by destruct (meshed !! l_ref lf), (l_loc lf) as [[??]|].
Qed.

End AddThenCombine.

Lemma add_bb_annotates_witness :
  ∃ t overall',
    @_add_bb Toy.kernel Toy.package [Toy.mesh_of (Toy.cube 2 0)]
      (ShapesGroup [ShapesLeaf (mkLeaf "shapes" 0 (Some (None, None)) None);
                    ShapesGroup [ShapesLeaf (mkLeaf "edges" 7 None (Some None))]])
      BoundingBox_empty = Ok (t, overall')
    ∧ t = ShapesGroup
            [ShapesLeaf (mkLeaf "shapes" 0 (Some (None, None))
                           (Some (Some (BBoxDict 0 2 0 2 0 2))));
             ShapesGroup [ShapesLeaf (mkLeaf "edges" 7 None (Some None))]].
Proof.
  eexists; eexists. split; [reflexivity|].
  match goal with |- ?t = _ =>
    destruct (@add_bb_annotates Toy.kernel Toy.package [Toy.mesh_of (Toy.cube 2 0)]
      [ShapesLeaf (mkLeaf "shapes" 0 (Some (None, None)) None);
       ShapesGroup [ShapesLeaf (mkLeaf "edges" 7 None (Some None))]]
      BoundingBox_empty _ t eq_refl) as [-> _] end.
  reflexivity.
Defined.

Lemma combined_bb_spans_seeds_witness :
  ∃ bb, combined_bb
          (ShapesGroup [ShapesLeaf (mkLeaf "edges" 7 None (Some None));
                        ShapesGroup [ShapesLeaf (mkLeaf "shapes" 0 None
                                       (Some (Some (BBoxDict 1 2 1 2 1 2))))]])
        = Ok (Some bb)
    ∧ extents bb = (0, 2, 0, 2, 0, 2).
Proof.
  destruct (combined_bb_spans_seeds
              [ShapesLeaf (mkLeaf "edges" 7 None (Some None));
               ShapesGroup [ShapesLeaf (mkLeaf "shapes" 0 None
                              (Some (Some (BBoxDict 1 2 1 2 1 2))))]])
    as (bb & Hc & _ & _).
  - repeat constructor; simpl; eauto.
  - vm_compute in Hc. injection Hc as <-. eexists. split; reflexivity.
Defined.

Lemma add_bb_then_combined_bb_witness :
  ∃ t overall' bb,
    @_add_bb Toy.kernel Toy.package [Toy.mesh_of (Toy.cube 2 0)]
      (ShapesGroup [ShapesLeaf (mkLeaf "shapes" 0 (Some (None, None)) None)])
      BoundingBox_empty = Ok (t, overall')
    ∧ combined_bb t = Ok bb
    ∧ spans bb [BBoxDict 0 2 0 2 0 2].
Proof.
  eexists; eexists.
  match goal with |- ∃ bb, ?run = Ok (?t, ?o) ∧ _ =>
    destruct (@add_bb_then_combined_bb Toy.kernel Toy.package
      [Toy.mesh_of (Toy.cube 2 0)]
      [ShapesLeaf (mkLeaf "shapes" 0 (Some (None, None)) None)]
      BoundingBox_empty _ _ eq_refl) as (bb & Hc & Hs & _) end.
  - repeat constructor. simpl. done.
  - exists bb. split_and!; [reflexivity|exact Hc|exact Hs].
Defined.

Section TopologyProps.
Context {K : Kernel}.

Lemma get_topo_from_spec (items : list Shape) :
  ∀ hashes, ∃ kept,
    _get_topo_from items hashes = downcast <$> kept
    ∧ sublist kept items
    ∧ NoDup (HashCode <$> kept)
    ∧ (∀ x, x ∈ kept → HashCode x ∉ hashes)
    ∧ (∀ x, x ∈ items → HashCode x ∈ hashes ∨ HashCode x ∈ HashCode <$> kept)
    ∧ (∀ pre x post, items = pre ++ x :: post →
         HashCode x ∉ hashes → HashCode x ∉ HashCode <$> pre →
         ∃ kpre kpost, kept = kpre ++ x :: kpost
           ∧ sublist kpre pre ∧ sublist kpost post).
Proof.
  induction items as [|item rest IH]; intros hashes.
  - exists []. split_and!; [done|done|constructor|..].
    + intros x Hx; by apply elem_of_nil in Hx.
    + intros x Hx; by apply elem_of_nil in Hx.
    + intros [|p pre] x post Heq; discriminate Heq.
  - simpl. case_bool_decide as Hin.
    + destruct (IH hashes) as (kept & Heq & Hsub & Hnd & Hfresh & Hall & Hfirst).
      exists kept. split_and!; [done|by apply sublist_cons|done|done| |].
      * intros x [->|Hx]%elem_of_cons; [by left|by apply Hall].
      * intros [|p pre] x post Hitems Hx Hpre.
        -- injection Hitems as <- <-. done.
        -- injection Hitems as <- ->.
           destruct (Hfirst pre x post eq_refl Hx) as (kpre & kpost & -> & H1 & H2).
           { intros H. apply Hpre. rewrite fmap_cons. by right. }
           exists kpre, kpost. split_and!; [done | by apply sublist_cons | done].
    + destruct (IH (HashCode item :: hashes))
        as (kept & Heq & Hsub & Hnd & Hfresh & Hall & Hfirst).
      exists (item :: kept). split_and!.
      * by rewrite Heq.
      * by apply sublist_skip.
      * simpl. constructor; [|done].
        intros (y & Hy & Hin')%list_elem_of_fmap.
        apply (Hfresh y Hin'). rewrite <- Hy. by left.
      * intros x [->|Hx]%elem_of_cons; [done|].
        intros Hh. apply (Hfresh x Hx). by right.
      * intros x [->|Hx]%elem_of_cons; [right; by left|].
        destruct (Hall x Hx) as [[->|Hh]%elem_of_cons|Hk].
        -- right. by left.
        -- by left.
        -- right. by right.
      * intros [|p pre] x post Hitems Hx Hpre.
        -- injection Hitems as <- <-. exists [], kept. by split_and!.
        -- injection Hitems as <- ->.
           destruct (Hfirst pre x post eq_refl) as (kpre & kpost & -> & H1 & H2).
           { intros [Hh | Hh]%elem_of_cons; [|done].
             apply Hpre. rewrite fmap_cons, Hh. by left. }
           { intros H. apply Hpre. rewrite fmap_cons. by right. }
           exists (item :: kpre), kpost.
           split_and!; [done | by apply sublist_skip | done].
Qed.

(** X12. [_get_topo] yields the sub-shapes the explorer visits, downcast
    and in the explorer's order, one for each hash code: no two of the
    yielded items have the same hash code, and every visited item has the
    hash code of a yielded one.  The item yielded for a hash code is the
    first the explorer visits with it: a visited item with no item of its
    hash code before it is yielded, after what is yielded of the items
    before it and before what is yielded of the items after it; so of two
    different sub-shapes whose hash codes collide only the first is
    returned. *)
Theorem get_topo_dedup (s : Shape) (topo : TopAbs_ShapeEnum) :
  ∃ kept,
    _get_topo s topo = downcast <$> kept
    ∧ sublist kept (TopExp_Explorer s topo)
    ∧ NoDup (HashCode <$> kept)
    ∧ (∀ x, x ∈ TopExp_Explorer s topo → HashCode x ∈ HashCode <$> kept)
    ∧ (_get_topo s topo = [] ↔ TopExp_Explorer s topo = [])
    ∧ (∀ pre x post, TopExp_Explorer s topo = pre ++ x :: post →
         HashCode x ∉ HashCode <$> pre →
         ∃ kpre kpost, kept = kpre ++ x :: kpost
           ∧ sublist kpre pre ∧ sublist kpost post)
    ∧ (∀ pre x y post, TopExp_Explorer s topo = pre ++ x :: post →
         HashCode x ∉ HashCode <$> pre →
         y ∈ post → HashCode y = HashCode x → y ≠ x → y ∉ kept).
Proof.
  unfold _get_topo.
  destruct (get_topo_from_spec (TopExp_Explorer s topo) [])
    as (kept & Heq & Hsub & Hnd & _ & Hall & Hfirst).
  assert (Hfirst' : ∀ pre x post, TopExp_Explorer s topo = pre ++ x :: post →
         HashCode x ∉ HashCode <$> pre →
         ∃ kpre kpost, kept = kpre ++ x :: kpost
           ∧ sublist kpre pre ∧ sublist kpost post).
  { intros pre x post Hitems Hpre. apply Hfirst; [done | | done].
    intros H. by apply elem_of_nil in H. }
  exists kept. split_and!; [done..| | |done|].
  - intros x Hx. destruct (Hall x Hx) as [H|H]; [by apply elem_of_nil in H|done].
  - split.
    + intros Hnil. destruct (TopExp_Explorer s topo) as [|x xs]; [done|].
      simpl in Hnil. done.
    + by intros ->.
  - intros pre x y post Hitems Hpre Hy Hhash Hne Hk.
    destruct (Hfirst' pre x post Hitems Hpre) as (kpre & kpost & -> & H1 & H2).
    rewrite fmap_app, fmap_cons in Hnd.
    apply list.NoDup_app in Hnd as (_ & Hdisj & Hnd2).
    apply list.NoDup_cons in Hnd2 as [Hx _].
    apply elem_of_app in Hk as [Hk | Hk].
    + apply (Hdisj (HashCode y)).
      * apply list_elem_of_fmap. by exists y.
      * rewrite Hhash. by left.
    + apply elem_of_cons in Hk as [Hk | Hk]; [done|].
      apply Hx. rewrite <- Hhash. apply list_elem_of_fmap. by exists y.
Qed.

Lemma has_next_get_topo (s : Shape) (topo : TopAbs_ShapeEnum) :
  has_next (_get_topo s topo) = true ↔ TopExp_Explorer s topo ≠ [].
Proof.
  unfold _get_topo. destruct (TopExp_Explorer s topo) as [|x xs]; simpl; [|done].
  split; [done|]. by intros H.
Qed.

Lemma has_next_false (s : Shape) (topo : TopAbs_ShapeEnum) :
  has_next (_get_topo s topo) = false ↔ TopExp_Explorer s topo = [].
Proof.
  unfold _get_topo. destruct (TopExp_Explorer s topo) as [|x xs]; simpl; done.
Qed.

(** X13. [get_downcasted_shape] returns the sub-shapes of the first kind,
    in the order solids, faces, wires, edges, vertices, of which the shape
    has any: a shape with a solid is returned as its solids alone.  The
    list it returns is never empty, and it raises (here [None]) exactly
    when the shape has no sub-shape of any of the five kinds, which for a
    compound is when none of [is_solids_compound], ...,
    [is_vertices_compound] holds. *)
Theorem get_downcasted_shape_priority (s : Shape) :
  match get_downcasted_shape s with
  | None =>
      ∀ topo, topo ∈ [TopAbs_SOLID; TopAbs_FACE; TopAbs_WIRE; TopAbs_EDGE; TopAbs_VERTEX]
              → TopExp_Explorer s topo = []
  | Some l =>
      l ≠ []
      ∧ ∃ pre topo post,
          [TopAbs_SOLID; TopAbs_FACE; TopAbs_WIRE; TopAbs_EDGE; TopAbs_VERTEX]
          = pre ++ topo :: post
          ∧ (∀ t, t ∈ pre → TopExp_Explorer s t = [])
          ∧ TopExp_Explorer s topo ≠ []
          ∧ l = downcast <$> _get_topo s topo
  end
  ∧ (is_topods_compound s = true →
     is_solids_compound s || is_faces_compound s || is_wires_compound s
     || is_edges_compound s || is_vertices_compound s
     = bool_decide (is_Some (get_downcasted_shape s))).
Proof.
  split.
  - unfold get_downcasted_shape, get_solids, get_faces, get_wires, get_edges, get_vertices.
    destruct (has_next (_get_topo s TopAbs_SOLID)) eqn:H1;
      [|destruct (has_next (_get_topo s TopAbs_FACE)) eqn:H2;
        [|destruct (has_next (_get_topo s TopAbs_WIRE)) eqn:H3;
          [|destruct (has_next (_get_topo s TopAbs_EDGE)) eqn:H4;
            [|destruct (has_next (_get_topo s TopAbs_VERTEX)) eqn:H5]]]].
    all: repeat match goal with
         | H : has_next _ = false |- _ => apply has_next_false in H
         end.
    all: try match goal with
         | H : has_next ?e = true |- _ =>
             split; [destruct e; [done|done]|]; apply has_next_get_topo in H
         end.
    + exists [], TopAbs_SOLID, [TopAbs_FACE; TopAbs_WIRE; TopAbs_EDGE; TopAbs_VERTEX].
      split_and!; [done| |done|done]. intros t Ht. by apply elem_of_nil in Ht.
    + exists [TopAbs_SOLID], TopAbs_FACE, [TopAbs_WIRE; TopAbs_EDGE; TopAbs_VERTEX].
      split_and!; [done| |done|done]. intros t Ht.
      repeat (apply elem_of_cons in Ht as [->|Ht]; [done|]). by apply elem_of_nil in Ht.
    + exists [TopAbs_SOLID; TopAbs_FACE], TopAbs_WIRE, [TopAbs_EDGE; TopAbs_VERTEX].
      split_and!; [done| |done|done]. intros t Ht.
      repeat (apply elem_of_cons in Ht as [->|Ht]; [done|]). by apply elem_of_nil in Ht.
    + exists [TopAbs_SOLID; TopAbs_FACE; TopAbs_WIRE], TopAbs_EDGE, [TopAbs_VERTEX].
      split_and!; [done| |done|done]. intros t Ht.
      repeat (apply elem_of_cons in Ht as [->|Ht]; [done|]). by apply elem_of_nil in Ht.
    + exists [TopAbs_SOLID; TopAbs_FACE; TopAbs_WIRE; TopAbs_EDGE], TopAbs_VERTEX, [].
      split_and!; [done| |done|done]. intros t Ht.
      repeat (apply elem_of_cons in Ht as [->|Ht]; [done|]). by apply elem_of_nil in Ht.
    + intros t Ht.
      repeat (apply elem_of_cons in Ht as [->|Ht]; [done|]). by apply elem_of_nil in Ht.
  - intros Hc.
    unfold is_solids_compound, is_faces_compound, is_wires_compound, is_edges_compound,
      is_vertices_compound, get_downcasted_shape.
    rewrite Hc.
    destruct (has_next (get_solids s)), (has_next (get_faces s)),
      (has_next (get_wires s)), (has_next (get_edges s)), (has_next (get_vertices s));
      cbn [orb]; symmetry;
      first [apply bool_decide_eq_true_2; by eexists
            |apply bool_decide_eq_false_2; by intros [? ?]].
Qed.

(** X14. The five list predicates hold of the empty list all at once, and
    of a list that is not empty at most one of them holds. *)
Theorem shape_list_predicates (l : list Shape) :
  (l = [] →
   is_solid_list l = true ∧ is_face_list l = true ∧ is_wire_list l = true
   ∧ is_edge_list l = true ∧ is_vertex_list l = true)
  ∧ (l ≠ [] →
     (Nat.b2n (is_solid_list l) + Nat.b2n (is_face_list l) + Nat.b2n (is_wire_list l)
      + Nat.b2n (is_edge_list l) + Nat.b2n (is_vertex_list l) <= 1)%nat).
Proof.
  split; [by intros ->|].
  destruct l as [|x l]; [done|]. intros _.
  unfold is_solid_list, is_face_list, is_wire_list, is_edge_list, is_vertex_list.
  cbn [forallb].
  unfold is_topods_solid, is_topods_face, is_topods_wire, is_topods_edge,
    is_topods_vertex.
  destruct (ShapeType x); repeat case_bool_decide; try done; simpl;
    repeat match goal with |- context [forallb ?f ?l] => destruct (forallb f l) end;
    simpl; lia.
Qed.

End TopologyProps.

Section Kinds.
Context {K : Kernel} {P : Package}.

(** X15. The kind of a shape, [get_kind(get_type(s))], is decided by its
    shape type: a shell counts as a face and a wire as an edge, a compound
    or compsolid has no kind ([ValueError]).  Whatever string it is given,
    [get_kind] returns one of the four kinds edge, face, solid and vertex or
    raises [ValueError]: it never returns the kind shell. *)
Theorem kind_of_shape (s : Shape) (typ : string) :
  (get_type s ≫= get_kind)
  = match ShapeType s with
    | TopAbs_SOLID => Ok "solid"
    | TopAbs_SHELL | TopAbs_FACE => Ok "face"
    | TopAbs_WIRE | TopAbs_EDGE => Ok "edge"
    | TopAbs_VERTEX => Ok "vertex"
    | TopAbs_COMPOUND | TopAbs_COMPSOLID => Raise (ValueError "Unknown type")
    end
  ∧ match get_kind typ with
    | Ok kd => kd ∈ ["edge"; "face"; "solid"; "vertex"]
    | Raise e => e = ValueError "Unknown type"
    end.
Proof.
  split.
  - unfold get_type, class_name. by destruct (ShapeType s).
  - unfold get_kind. cbn [dict_get].
    repeat match goal with |- context [String.eqb ?a typ] =>
      destruct (String.eqb a typ) end;
    try reflexivity;
    repeat first [apply list_elem_of_here | apply list_elem_of_further].
Qed.

End Kinds.

Section UnifyMany.
Context {K : Kernel} {P : Package}.

Lemma all_shapes_GShape (ss : list Shape) : all_shapes (GShape <$> ss) = Ok ss.
Proof.
  induction ss as [|s ss IH]; [done|]. rewrite fmap_cons. cbn [all_shapes].
  by rewrite IH.
Qed.

Lemma serialize_all_GShape (ss : list Shape) :
  serialize_all (GShape <$> ss) = Ok (String.concat "" (serialize <$> ss)).
Proof.
  induction ss as [|s ss IH]; [done|]. rewrite !fmap_cons. cbn [serialize_all].
  rewrite IH. cbn [fmap result_fmap]. f_equal.
  destruct ss as [|s' ss]; [|rewrite fmap_cons; reflexivity]. cbn [fmap list_fmap String.concat].
  generalize (serialize s). intros str. induction str as [|ch str IHs]; [done|].
  change (String ch str +:+ "") with (String ch (str +:+ "")). by rewrite IHs.
Qed.

Lemma solid_kind_colour (kd : string) (g : colored) (c : option color_value) :
  kd ∈ ["solid"; "face"; "shell"] →
  ∃ col, get_color_for_object g c None (Some kd) = Ok col.
Proof.
  intros Hkd. unfold get_color_for_object. destruct c as [c|]; simpl; [by eexists|].
  destruct (own_color g); [by eexists|].
  repeat (apply elem_of_cons in Hkd as [->|Hkd]; [by eexists|]).
  by apply elem_of_nil in Hkd.
Qed.

(** What [get_instance] returns and leaves for a shape. *)
Lemma get_instance_entry (s : Shape) kd nm col cid (st : state) :
  ∃ st' i e,
    get_instance (GShape s) kd nm col cid st
    = (Ok (referential kd i nm (Shape_Location s) col cid), st')
    ∧ instances st' !! i = Some e
    ∧ (shape_eqb e.1 (relocated s) = true ∧ instances st' = instances st
       ∨ e = (relocated s, cid) ∧ i = length (instances st)
         ∧ instances st' = instances st ++ [(relocated s, cid)]).
Proof.
  rewrite get_instance_unfold.
  destruct (scan (instances st) (relocated s)) as [[i e]|] eqn:Hscan.
  - unfold scan in Hscan. apply list_find_Some in Hscan as (Hi & He & _).
    eexists _, i, e. split; [reflexivity|].
    assert (Hinst : instances (if progress st
                               then with_stdout st (stdout st ++ [Text "-"])
                               else st) = instances st) by by destruct (progress st).
    rewrite Hinst. split; [done|]. left. split; [|done]. by apply Is_true_true.
  - eexists _, (length (instances st)), (relocated s, cid). split; [reflexivity|].
    simpl. split; [|by right].
    rewrite lookup_app_r by done. by rewrite Nat.sub_diag.
Qed.

(** [unify] on any number of shapes but one, for an instanced kind, is
    [get_instance] on the compound of the shapes. *)
Lemma unify_many_unfold (ss : list Shape) (kd nm : string)
    (c : option color_value) (alpha : Q) (st : state) :
  length ss ≠ 1%nat → kd ∈ ["solid"; "face"; "shell"] →
  ∃ col,
    unify (GShape <$> ss) kd nm c alpha st
    = get_instance (GShape (make_compound ss)) kd nm col
        (sha256_hexdigest (String.concat "" (serialize <$> ss))) st.
Proof.
  intros Hlen Hkd.
  assert (Hin : str_in kd ["solid"; "face"; "shell"] = true)
    by (by apply bool_decide_eq_true_2).
  assert (Hobj : (match GShape <$> ss with
      | [GShape s] =>
          if is_topods_compound s then
            match list_topods_compound s with
            | [x] => Ok (GShape (downcast x))
            | ocp_objs =>
                if str_in kd ["edge"; "vertex"] then Ok (GList (GShape <$> ocp_objs))
                else Ok (GShape s)
            end
          else Ok (GShape s)
      | [g] => Ok g
      | _ =>
          if str_in kd ["solid"; "face"; "shell"] then
            (λ ss, GShape (make_compound ss)) <$> all_shapes (GShape <$> ss)
          else Ok (GList (GShape <$> ss))
      end) = Ok (GShape (make_compound ss))).
  { destruct ss as [|s1 [|s2 ss]]; [|done|].
    - by rewrite Hin.
    - change (GShape <$> s1 :: s2 :: ss) with (GShape s1 :: GShape s2 :: (GShape <$> ss)).
      cbv iota. rewrite Hin.
      change (GShape s1 :: GShape s2 :: (GShape <$> ss)) with (GShape <$> s1 :: s2 :: ss).
      by rewrite all_shapes_GShape. }
  destruct (solid_kind_colour kd (colored_of_geom (GShape (make_compound ss))) c Hkd)
    as [col Hcol].
  exists (if Qlt_le_dec alpha 1 then set_a col alpha else col).
  unfold unify. rewrite Hobj.
  unfold mbind at 1, M_bind at 1, lift at 1.
  unfold mbind at 1, M_bind at 1, lift at 1. simpl first_or_self. cbv iota beta.
  unfold mbind at 1, M_bind at 1, lift at 1. rewrite Hcol. cbv iota beta.
  rewrite Hin.
  unfold mbind at 1, M_bind at 1, lift at 1.
  unfold create_cache_id. rewrite serialize_all_GShape. reflexivity.
Qed.


(** X17. [unify] of an empty list for a kind that is not solid, face or
    shell raises [IndexError] and leaves the converter as it was; of a list
    of two or more shapes for such a kind it returns, for the kinds edge and
    vertex, the list itself as the payload of an object without [ref],
    again leaving the instance table as it was. *)
Theorem unify_inline_lists (ss : list Shape) (kd nm : string)
    (c : option color_value) (alpha : Q) (st : state) :
  str_in kd ["solid"; "face"; "shell"] = false →
  unify [] kd nm c alpha st = (Raise (IndexError "list index out of range"), st)
  ∧ ((2 <= length ss)%nat → kd ∈ ["edge"; "vertex"] →
     ∃ o, unify (GShape <$> ss) kd nm c alpha st = (Ok o, st)
       ∧ obj o = Some (GList (GShape <$> ss)) ∧ ref o = None ∧ kind o = kd).
Proof.
  intros Hin. split.
  - unfold unify. rewrite Hin. reflexivity.
  - intros Hlen Hkd. destruct ss as [|s1 [|s2 ss]]; [simpl in Hlen; lia..|].
    unfold unify.
    change (GShape <$> s1 :: s2 :: ss) with (GShape s1 :: GShape s2 :: (GShape <$> ss)).
    cbv iota. rewrite Hin.
    unfold mbind at 1, M_bind at 1, lift at 1.
    unfold mbind at 1, M_bind at 1, lift at 1. simpl first_or_self. cbv iota beta.
    assert (Hcol : ∃ col, get_color_for_object (colored_of_geom (GShape s1)) c None (Some kd)
                          = Ok col).
    { unfold get_color_for_object. destruct c as [c|]; simpl; [by eexists|].
      repeat (apply elem_of_cons in Hkd as [->|Hkd]; [by eexists|]).
      by apply elem_of_nil in Hkd. }
    destruct Hcol as [col Hcol].
    unfold mbind at 1, M_bind at 1, lift at 1. rewrite Hcol. cbv iota beta.
    eexists. split; [reflexivity|]. done.
Qed.

End UnifyMany.


Lemma unify_inline_lists_witness :
  @unify Toy.kernel Toy.package [] "edge" "none" None 1 Toy.st0
  = (Raise (IndexError "list index out of range"), Toy.st0).
Proof.
  apply (@unify_inline_lists Toy.kernel Toy.package [] "edge" "none" None 1 Toy.st0).
  reflexivity.
Defined.

(** ** Invariants of a whole conversion *)

Section PyobjInd.
Context {K : Kernel}.

Lemma pyobj_nested_ind (Pr : pyobj → Prop) :
  (∀ ty, Pr (PyScalar ty)) → (∀ ty, Pr (PyOpaque ty)) →
  (∀ xs, Forall Pr xs → Pr (PyList xs)) →
  (∀ items, Forall (λ kv, Pr kv.2) items → Pr (PyDict items)) →
  (∀ s, Pr (PyTopoDS s)) →
  (∀ label col wrapped iterable children,
     Forall Pr children → Pr (PyB123d label col wrapped iterable children)) →
  (∀ ty, Pr (PyOther ty)) →
  ∀ x, Pr x.
Proof.
  intros H1 H2 H3 H4 H5 H6 H7. fix IH 1. intros [ty|ty|xs|items|s|label col w it ch|ty].
  - apply H1.
  - apply H2.
  - apply H3. induction xs as [|x xs IHxs]; constructor; auto.
  - apply H4. induction items as [|[k v] items IHi]; constructor; auto.
  - apply H5.
  - apply H6. induction ch as [|x xs IHxs]; constructor; auto.
  - apply H7.
Qed.

End PyobjInd.

Section Keeps.
Context {K : Kernel} {P : Package}.
Variable R : state → state → Prop.
Hypothesis R_refl : ∀ st, R st st.
Hypothesis R_trans : ∀ a b c, R a b → R b c → R a c.
Hypothesis R_print : ∀ p st, R st (print p st).2.
Hypothesis R_intern : ∀ g kd nm c cid, keeps R (get_instance g kd nm c cid).

Lemma keeps_ret {A} (x : A) : keeps R (mret x).
Proof. intros st. apply R_refl. Qed.

Lemma keeps_raise {A} (e : exception) : keeps R (raise e : M A).
Proof. intros st. apply R_refl. Qed.

Lemma keeps_lift {A} (r : result A) : keeps R (lift r).
Proof. intros st. apply R_refl. Qed.

Lemma keeps_bind {A B} (m : M A) (f : A → M B) :
  keeps R m → (∀ a, keeps R (f a)) → keeps R (m ≫= f).
Proof.
  intros Hm Hf st. unfold mbind, M_bind. specialize (Hm st).
  destruct (m st) as [[a|e] st1]; [|exact Hm].
  eapply R_trans; [exact Hm|]. apply Hf.
Qed.

Lemma keeps_fmap {A B} (g : A → B) (m : M A) : keeps R m → keeps R (g <$> m).
Proof.
  intros Hm st. unfold fmap, M_fmap. specialize (Hm st).
  by destruct (m st) as [[a|e] st1].
Qed.

Lemma keeps_print (p : printed) : keeps R (print p).
Proof. intros st. apply R_print. Qed.

Lemma keeps_debug (level : nat) (msg : string) (nm : option string) :
  keeps R (_debug level msg nm).
Proof. unfold _debug. simpl. apply keeps_print. Qed.

Lemma keeps_unify objs kd nm c alpha : keeps R (unify objs kd nm c alpha).
Proof.
  unfold unify. apply keeps_bind; [apply keeps_lift|]. intros ocp_obj.
  apply keeps_bind; [apply keeps_lift|]. intros first.
  apply keeps_bind; [apply keeps_lift|]. intros col.
  destruct (str_in kd ["solid"; "face"; "shell"]).
  - apply keeps_bind; [apply keeps_lift|]. intros cid. apply R_intern.
  - apply keeps_ret.
Qed.

Lemma keeps_handle_shapes x nm col sl lvl : keeps R (handle_shapes x nm col sl lvl).
Proof.
  unfold handle_shapes. apply keeps_bind.
  { destruct x; first [apply keeps_ret|apply keeps_raise]. }
  intros tobj. apply keeps_bind; [apply keeps_debug|]. intros _.
  destruct (if is_topods_wire tobj.2 then _ else _) as [typ arg].
  apply keeps_bind; [apply keeps_lift|]. intros kd. apply keeps_unify.
Qed.

Lemma keeps_to_ocp_loop todo :
  Forall (λ t : (option string → option rgba → M (option OcpNode))
                * (option string * option rgba),
            keeps R (t.1 t.2.1 t.2.2)) todo →
  ∀ group, keeps R (to_ocp_loop todo group).
Proof.
  induction 1 as [|[body [nm col]] rest Hb _ IH]; intros group.
  - apply keeps_ret.
  - simpl. apply keeps_bind; [exact Hb|]. intros [n|]; apply IH.
Qed.

Lemma keeps_to_ocp_gen bodies names colors alphas l :
  Forall (λ body : option string → option rgba → M (option OcpNode),
            ∀ nm col, keeps R (body nm col)) bodies →
  keeps R (to_ocp_gen bodies names colors alphas l).
Proof.
  intros Hb. unfold to_ocp_gen.
  apply keeps_bind.
  { unfold validate_names. destruct names as [ns|]; [|apply keeps_ret].
    case_bool_decide; [apply keeps_raise|apply keeps_ret]. }
  intros ns. apply keeps_bind.
  { unfold validate_alphas. case_bool_decide; [apply keeps_raise|apply keeps_ret]. }
  intros als. apply keeps_bind.
  { unfold validate_colors. destruct colors as [cs|]; [|apply keeps_ret].
    case_bool_decide; [apply keeps_raise|apply keeps_ret]. }
  intros cs. apply keeps_bind; [|intros g; apply keeps_ret].
  apply keeps_to_ocp_loop.
  generalize (zip ns cs). clear -Hb.
  induction Hb as [|b bs Hb _ IH]; intros l'; [constructor|].
  destruct l' as [|[nm col] l']; [constructor|].
  simpl. constructor; [apply Hb|apply IH].
Qed.

Lemma keeps_self_call (o : pyobj) :
  (∀ sl hs lvl nm col, keeps R (to_ocp_body o sl hs lvl nm col)) →
  ∀ names colors sl hs lvl, keeps R (self_call o names colors sl hs lvl).
Proof.
  intros Ho names colors sl hs lvl. unfold self_call.
  apply keeps_to_ocp_gen. constructor; [|constructor]. intros nm col. apply Ho.
Qed.

Lemma keeps_handle_list_tuple (self : to_ocp_call) (xs : list pyobj) nm col sl hs lvl :
  Forall (λ o, ∀ names colors sl hs lvl, keeps R (self o names colors sl hs lvl)) xs →
  keeps R (handle_list_tuple self (PyList xs) nm col sl hs lvl).
Proof.
  intros Hxs. unfold handle_list_tuple.
  apply keeps_bind; [apply keeps_debug|]. intros _.
  apply keeps_bind; [|intros g; apply keeps_ret].
  generalize (OcpGroup (get_name (PyList xs) nm "List") None []).
  generalize (get_name (PyList xs) nm). intros name_of.
  induction Hxs as [|o rest Ho _ IH]; intros g.
  - apply keeps_ret.
  - apply keeps_bind; [apply Ho|]. intros r. apply IH.
Qed.

Lemma keeps_handle_dict (self : to_ocp_call) (items : list (string * pyobj))
    nm col sl hs lvl :
  Forall (λ kv, ∀ names colors sl hs lvl, keeps R (self kv.2 names colors sl hs lvl))
    items →
  keeps R (handle_dict self (PyDict items) nm col sl hs lvl).
Proof.
  intros Hxs. unfold handle_dict.
  apply keeps_bind; [apply keeps_debug|]. intros _.
  generalize (OcpGroup (get_name (PyDict items) nm "Dict") None []).
  induction Hxs as [|[k o] rest Ho _ IH]; intros g.
  - apply keeps_ret.
  - apply keeps_bind; [apply Ho|]. intros r. apply IH.
Qed.

Lemma to_ocp_body_unfold (cad_obj : pyobj) sketch_local helper_scale level obj_name
    rgba_color :
  to_ocp_body cad_obj sketch_local helper_scale level obj_name rgba_color
  = (if is_silently_skipped cad_obj then mret None
     else if negb (passes_filter cad_obj) then
       _ ← print (Text (skipping_message obj_name cad_obj));
       mret None
     else
       let rgba_color := prepare_color cad_obj rgba_color in
       ocp_obj ←
         match cad_obj with
         | PyList _ =>
             handle_list_tuple self_call cad_obj obj_name rgba_color sketch_local
               helper_scale level
         | PyDict _ =>
             handle_dict self_call cad_obj obj_name rgba_color sketch_local
               helper_scale level
         | PyB123d _ _ _ _ _ =>
             if is_build123d_assembly cad_obj then
               _ ← handle_build123d_assembly self_call cad_obj
                     [ArgName obj_name; ArgColor rgba_color; ArgBool sketch_local;
                      ArgInt level];
               handle_build123d_assembly self_call cad_obj
                 [ArgName obj_name; ArgColor rgba_color; ArgNum helper_scale;
                  ArgBool sketch_local; ArgInt level]
             else OcpLeaf <$> handle_shapes cad_obj obj_name rgba_color sketch_local level
         | PyTopoDS _ =>
             OcpLeaf <$> handle_shapes cad_obj obj_name rgba_color sketch_local level
         | _ => raise (ValueError ("Unknown object type: " +:+ py_str cad_obj))
         end;
       _ ← (if DEBUG then print (Text (indent level +:+ "=> " +:+ repr_node ocp_obj))
            else mret tt);
       mret (Some ocp_obj)).
Proof. by destruct cad_obj. Qed.

Lemma keeps_to_ocp_body (x : pyobj) :
  ∀ sl hs lvl nm col, keeps R (to_ocp_body x sl hs lvl nm col).
Proof.
  induction x as [ty|ty|xs IH|items IH|s|label c w it ch IH|ty] using pyobj_nested_ind;
    intros sl hs lvl nm col; rewrite to_ocp_body_unfold.
  - apply keeps_ret.
  - simpl. apply keeps_bind; [apply keeps_print|]. intros _. apply keeps_ret.
  - cbn [is_silently_skipped passes_filter is_wrapped is_iterable_or_dict orb negb].
    cbv zeta. apply keeps_bind.
    + apply keeps_handle_list_tuple.
      eapply Forall_impl; [|exact IH]. intros o Ho. by apply keeps_self_call.
    + intros n. apply keeps_bind; [apply keeps_print|]. intros _. apply keeps_ret.
  - cbn [is_silently_skipped passes_filter is_wrapped is_iterable_or_dict orb negb].
    cbv zeta. apply keeps_bind.
    + apply keeps_handle_dict.
      eapply Forall_impl; [|exact IH]. intros o Ho. by apply keeps_self_call.
    + intros n. apply keeps_bind; [apply keeps_print|]. intros _. apply keeps_ret.
  - cbn [is_silently_skipped passes_filter is_wrapped is_iterable_or_dict
         has_other_capability is_topods_shape orb negb].
    cbv zeta. apply keeps_bind.
    + apply keeps_fmap, keeps_handle_shapes.
    + intros n. apply keeps_bind; [apply keeps_print|]. intros _. apply keeps_ret.
  - cbn [is_silently_skipped passes_filter is_wrapped is_iterable_or_dict orb negb].
    cbv zeta. apply keeps_bind.
    + destruct (is_build123d_assembly _).
      * apply keeps_bind; [apply keeps_raise|]. intros n.
        unfold handle_build123d_assembly.
        apply keeps_bind; [apply keeps_debug|]. intros _.
        apply keeps_bind; [apply keeps_lift|]. intros l.
        generalize (OcpGroup (get_name (PyB123d label c w it ch) nm "Assembly") l []).
        induction IH as [|o rest Ho _ IHl]; intros g; [apply keeps_ret|].
        apply keeps_bind; [apply keeps_lift|]. intros lab.
        apply keeps_bind; [by apply keeps_self_call|]. intros sub. apply IHl.
      * apply keeps_fmap, keeps_handle_shapes.
    + intros n. apply keeps_bind; [apply keeps_print|]. intros _. apply keeps_ret.
  - cbn [is_silently_skipped passes_filter is_wrapped is_iterable_or_dict
         has_other_capability is_topods_shape orb negb].
    cbv zeta. apply keeps_bind; [apply keeps_raise|].
    intros n. apply keeps_bind; [apply keeps_print|]. intros _. apply keeps_ret.
Qed.

Lemma keeps_to_ocp cad_objs names colors alphas l hs sl lvl :
  keeps R (to_ocp cad_objs names colors alphas l hs sl lvl).
Proof.
  unfold to_ocp. apply keeps_to_ocp_gen. apply Forall_fmap.
  induction cad_objs as [|o os IH]; constructor; [|exact IH].
  intros nm col. apply keeps_to_ocp_body.
Qed.

End Keeps.

Section WholeRun.
Context {K : Kernel} {P : Package}.

Lemma extends_refl (st : state) : extends st st.
Proof. split_and!; [exists []|exists []|done|done]; by rewrite app_nil_r. Qed.

Lemma extends_trans (a b c : state) : extends a b → extends b c → extends a c.
Proof.
  intros ([e1 H1] & [o1 H2] & H3 & H4) ([e2 H5] & [o2 H6] & H7 & H8).
  split_and!; [exists (e1 ++ e2)|exists (o1 ++ o2)|congruence|congruence].
  - by rewrite H5, H1, app_assoc.
  - by rewrite H6, H2, app_assoc.
Qed.

Lemma extends_print (p : printed) (st : state) : extends st (print p st).2.
Proof. split_and!; [exists []|exists [p]|done|done]; simpl; by rewrite ?app_nil_r. Qed.

Lemma extends_intern (g : geom) kd nm c cid : keeps extends (get_instance g kd nm c cid).
Proof.
  intros st. destruct g as [s|l]; [|apply extends_refl].
  rewrite get_instance_unfold. destruct (scan _ _) as [[i e]|]; simpl.
  - destruct (progress st); [|apply extends_refl].
    split_and!; [exists []|by eexists|done|done]. simpl. by rewrite app_nil_r.
  - split_and!; [by eexists|exists []|done|done]. simpl. by rewrite app_nil_r.
Qed.

(** X18. A call of [to_ocp], whether it returns or raises, only appends to
    the instance table and to the standard output: no entry of the table is
    removed, replaced or moved, so every [ref] handed out before the call
    still points to the same instance; the memo table of [bounding_box] and
    the progress reporter are not touched. *)
Theorem to_ocp_only_appends (cad_objs : list pyobj)
    (names : option (list (option string)))
    (colors : option (list (option color_value)))
    (alphas : option (list (option Q)))
    (l : option Location) (helper_scale : Q) (sketch_local : bool) (level : nat)
    (st : state) :
  extends st (to_ocp cad_objs names colors alphas l helper_scale sketch_local level st).2.
Proof.
  apply (keeps_to_ocp extends extends_refl extends_trans extends_print extends_intern).
Qed.

Context {L : KernelLaws K}.

Lemma stays_distinct_intern (g : geom) kd nm c cid :
  keeps stays_distinct (get_instance g kd nm c cid).
Proof.
  intros st Hd. destruct g as [s|l]; [|exact Hd].
  destruct (intern_first s kd nm c cid st Hd) as (i & st1 & e & -> & _ & _ & Hd1 & _).
  exact Hd1.
Qed.

(** [to_ocp] takes a table without duplicates to one without. *)
Lemma to_ocp_stays_distinct cad_objs names colors alphas l helper_scale sketch_local
    level :
  keeps stays_distinct
    (to_ocp cad_objs names colors alphas l helper_scale sketch_local level).
Proof.
  apply (keeps_to_ocp stays_distinct).
  - by intros ? ?.
  - intros a b c Hab Hbc Ha. by apply Hbc, Hab.
  - by intros p st' ?.
  - apply stays_distinct_intern.
Qed.

(** X19. The instance table stays free of duplicates through a whole
    conversion: if no two entries hold equal shapes before a call of
    [to_ocp], then none do after it, whatever objects are converted and
    whether the call returns or raises. *)
Theorem to_ocp_keeps_distinct (cad_objs : list pyobj)
    (names : option (list (option string)))
    (colors : option (list (option color_value)))
    (alphas : option (list (option Q)))
    (l : option Location) (helper_scale : Q) (sketch_local : bool) (level : nat)
    (st : state) :
  distinct_table (instances st) →
  distinct_table
    (instances (to_ocp cad_objs names colors alphas l helper_scale sketch_local level st).2).
Proof.
  intros Hd.
  by apply (to_ocp_stays_distinct cad_objs names colors alphas l helper_scale
              sketch_local level st).
Qed.

(** X20. [to_assembly] starts from an empty instance table whatever was
    converted before, and the list of instances it returns is the table of
    that one conversion, in order, with no shape twice: two entries of the
    list with equal shapes are the same entry. *)
Theorem to_assembly_instances_distinct (cad_objs : list pyobj)
    (names : option (list (option string)))
    (colors : option (list (option color_value)))
    (alphas : option (list (option Q)))
    (helper_scale : Q) (show_sketch_local : bool) (l : option Location)
    (st st' : state) (group : OcpNode) (insts : list instance) :
  to_assembly cad_objs names colors alphas helper_scale show_sketch_local l st
  = (Ok (group, insts), st') →
  insts = (λ i, mkInstance i.1 i.2) <$> instances st'
  ∧ (to_ocp cad_objs names colors alphas l helper_scale show_sketch_local 0
       (mkState [] true (stdout st) (cache st)) = (Ok group, st'))
  ∧ ∀ i j a b, insts !! i = Some a → insts !! j = Some b →
      shape_eqb (i_obj a) (i_obj b) = true → i = j.
Proof.
  unfold to_assembly, OcpConverter_init. intros Hrun.
  pose proof (to_ocp_stays_distinct cad_objs names colors alphas l helper_scale
                show_sketch_local 0 (mkState [] true (stdout st) (cache st))) as Hd.
  unfold stays_distinct in Hd.
  destruct (to_ocp _ _ _ _ _ _ _ _ _) as [[g|e] st1]; [|done].
  injection Hrun as <- <- <-. split; [done|]. split; [done|].
  intros i j a b Hi Hj Hab.
  rewrite list_lookup_fmap in Hi, Hj.
  destruct (instances st1 !! i) as [x|] eqn:Hx; [|done].
  destruct (instances st1 !! j) as [y|] eqn:Hy; [|done].
  injection Hi as <-. injection Hj as <-.
  apply (Hd ltac:(intros ? ? ? ? H; simpl in H; by rewrite lookup_nil in H) i j x y Hx Hy Hab).
Qed.

End WholeRun.

Lemma to_ocp_keeps_distinct_witness :
  distinct_table
    (instances
       (@to_ocp Toy.kernel Toy.package
          [PyTopoDS (Toy.cube 1 0); PyList [PyTopoDS (Toy.cube 1 5); PyTopoDS (Toy.cube 2 0)]]
          None None None None 1 true 0 Toy.st0).2).
Proof.
  apply (@to_ocp_keeps_distinct Toy.kernel Toy.package Toy_kernel_laws).
  intros i j x y H. simpl in H. by rewrite lookup_nil in H.
Defined.

Lemma to_assembly_instances_distinct_witness :
  ∃ group insts st',
    @to_assembly Toy.kernel Toy.package
      [PyTopoDS (Toy.cube 1 0); PyTopoDS (Toy.cube 1 5); PyTopoDS (Toy.cube 2 0)]
      None None None 1 true None Toy.st0 = (Ok (group, insts), st')
    ∧ length insts = 2%nat
    ∧ ∀ i j a b, insts !! i = Some a → insts !! j = Some b →
        shape_eqb (i_obj a) (i_obj b) = true → i = j.
Proof.
  eexists; eexists; eexists. split; [vm_compute; reflexivity|]. split; [reflexivity|].
  eapply (@to_assembly_instances_distinct Toy.kernel Toy.package Toy_kernel_laws
            [PyTopoDS (Toy.cube 1 0); PyTopoDS (Toy.cube 1 5); PyTopoDS (Toy.cube 2 0)]
            None None None 1 true None Toy.st0).
  vm_compute. reflexivity.
Defined.

Section RefsValid.
Context {K : Kernel} {P : Package}.

Lemma refs_valid_mono (n : OcpNode) (st st' : state) :
  refs_valid n st → extends st st' → refs_valid n st'.
Proof.
  intros Hv ([ext Hext] & _). unfold refs_valid in *. rewrite Hext, length_app.
  eapply Forall_impl; [|exact Hv]. simpl. intros i Hi. lia.
Qed.

Lemma refs_valid_sub (n m : OcpNode) (st : state) :
  (∀ i, i ∈ node_refs m → i ∈ node_refs n) → refs_valid n st → refs_valid m st.
Proof.
  intros Hsub Hv. unfold refs_valid in *. rewrite Forall_forall in Hv |- *.
  intros i Hi. apply Hv, list_elem_of_In, Hsub, list_elem_of_In, Hi.
Qed.

Lemma refs_valid_add (g n : OcpNode) (st : state) :
  refs_valid g st → refs_valid n st → refs_valid (add g n) st.
Proof.
  intros Hg Hn. destruct g as [gn gl objs|o]; [|exact Hg].
  unfold refs_valid in *. simpl. rewrite flat_map_app. apply Forall_app. split; [exact Hg|].
  simpl. by rewrite app_nil_r.
Qed.

Lemma run_extends {A} (m : M A) (st st' : state) (r : result A) :
  keeps extends m → m st = (r, st') → extends st st'.
Proof. intros Hk Hrun. specialize (Hk st). by rewrite Hrun in Hk. Qed.

Lemma fmap_Ok_inv {A B} (g : A → B) (m : M A) (st st' : state) (b : B) :
  (g <$> m) st = (Ok b, st') → ∃ a, m st = (Ok a, st') ∧ b = g a.
Proof.
  unfold fmap, M_fmap. destruct (m st) as [[a|e] st1]; [|done].
  intros [= <- <-]. by exists a.
Qed.

Lemma unify_ref_valid objs kd nm c alpha (st st' : state) (o : OcpObject) :
  unify objs kd nm c alpha st = (Ok o, st') → refs_valid (OcpLeaf o) st'.
Proof.
  unfold unify. intros Hrun.
  apply bind_Ok_inv in Hrun as (ocp_obj & st1 & H1 & Hrun).
  apply lift_Ok_inv in H1 as [_ ->].
  apply bind_Ok_inv in Hrun as (first & st1 & H1 & Hrun).
  apply lift_Ok_inv in H1 as [_ ->].
  apply bind_Ok_inv in Hrun as (col & st1 & H1 & Hrun).
  apply lift_Ok_inv in H1 as [_ ->].
  destruct (str_in kd ["solid"; "face"; "shell"]).
  - apply bind_Ok_inv in Hrun as (cid & st1 & H1 & Hrun).
    apply lift_Ok_inv in H1 as [_ ->].
    apply get_instance_Ok in Hrun as (s & i & _ & -> & Hi & _).
    unfold refs_valid. simpl. by repeat constructor.
  - apply ret_Ok_inv in Hrun as [<- _]. unfold refs_valid. simpl. constructor.
Qed.

Lemma handle_shapes_ref_valid x nm col sl lvl (st st' : state) (o : OcpObject) :
  handle_shapes x nm col sl lvl st = (Ok o, st') → refs_valid (OcpLeaf o) st'.
Proof.
  unfold handle_shapes. intros Hrun.
  apply bind_Ok_inv in Hrun as (tobj & st1 & _ & Hrun).
  apply bind_Ok_inv in Hrun as (u & st2 & _ & Hrun).
  destruct (if is_topods_wire tobj.2 then _ else _) as [typ arg].
  apply bind_Ok_inv in Hrun as (kd & st3 & _ & Hrun).
  by apply unify_ref_valid in Hrun.
Qed.

Hypothesis cleanup_refs : ∀ n i, i ∈ node_refs (cleanup n) → i ∈ node_refs n.
Hypothesis unique_refs : ∀ n i, i ∈ node_refs (make_unique_names n) → i ∈ node_refs n.

Lemma refs_valid_finish (g : OcpNode) (st : state) :
  refs_valid g st → refs_valid (finish_group g) st.
Proof.
  intros Hg. unfold finish_group.
  assert (Hu : refs_valid (make_unique_names g) st)
    by (eapply refs_valid_sub; [apply unique_refs|exact Hg]).
  destruct (make_unique_names g) as [gn gl [|[gn' gl' objs'|o] [|y ys]]|o]; try exact Hu.
  eapply refs_valid_sub; [apply cleanup_refs|exact Hu].
Qed.

Lemma to_ocp_loop_refs todo :
  Forall (λ t : (option string → option rgba → M (option OcpNode))
                * (option string * option rgba), good_body t.1) todo →
  ∀ group st g st',
    refs_valid group st → to_ocp_loop todo group st = (Ok g, st') → refs_valid g st'.
Proof.
  induction 1 as [|[body [nm col]] rest Hb _ IH]; intros group st g st' Hg Hrun.
  - apply ret_Ok_inv in Hrun as [<- <-]. exact Hg.
  - simpl in Hrun. apply bind_Ok_inv in Hrun as (r & st1 & Hbody & Hrun).
    destruct (Hb nm col) as [Hext Hpost]. simpl in Hext, Hpost.
    pose proof (run_extends _ _ _ _ Hext Hbody) as He.
    destruct r as [n|].
    + apply (IH _ _ _ _ (refs_valid_add _ _ _ (refs_valid_mono _ _ _ Hg He)
                           (Hpost _ _ _ Hbody)) Hrun).
    + apply (IH _ _ _ _ (refs_valid_mono _ _ _ Hg He) Hrun).
Qed.

Lemma validate_names_state n names (st st' : state) r :
  validate_names n names st = (r, st') → st' = st.
Proof.
  unfold validate_names. destruct names as [ns|]; [|by intros [= _ <-]].
  case_bool_decide; by intros [= _ <-].
Qed.

Lemma validate_alphas_state n alphas (st st' : state) r :
  validate_alphas n alphas st = (r, st') → st' = st.
Proof. unfold validate_alphas. case_bool_decide; by intros [= _ <-]. Qed.

Lemma validate_colors_state n colors alphas (st st' : state) r :
  validate_colors n colors alphas st = (r, st') → st' = st.
Proof.
  unfold validate_colors. destruct colors as [cs|]; [|by intros [= _ <-]].
  case_bool_decide; by intros [= _ <-].
Qed.

Lemma to_ocp_gen_refs bodies names colors alphas l (st st' : state) (g : OcpNode) :
  Forall good_body bodies →
  to_ocp_gen bodies names colors alphas l st = (Ok g, st') → refs_valid g st'.
Proof.
  intros Hb Hrun. unfold to_ocp_gen in Hrun.
  apply bind_Ok_inv in Hrun as (ns & st1 & H1 & Hrun).
  apply validate_names_state in H1 as ->.
  apply bind_Ok_inv in Hrun as (als & st1 & H1 & Hrun).
  apply validate_alphas_state in H1 as ->.
  apply bind_Ok_inv in Hrun as (cs & st1 & H1 & Hrun).
  apply validate_colors_state in H1 as ->.
  apply bind_Ok_inv in Hrun as (g1 & st1 & Hloop & Hrun).
  apply ret_Ok_inv in Hrun as [<- <-].
  apply refs_valid_finish.
  eapply to_ocp_loop_refs; [| |exact Hloop].
  - generalize (zip ns cs). clear -Hb.
    induction Hb as [|b bs Hb _ IH]; intros l'; [constructor|].
    destruct l' as [|[nm col] l']; [constructor|].
    simpl. constructor; [exact Hb|apply IH].
  - unfold refs_valid. simpl. constructor.
Qed.

Lemma keeps_extends_body (o : pyobj) sl hs lvl nm col :
  keeps extends (to_ocp_body o sl hs lvl nm col).
Proof.
  apply (keeps_to_ocp_body extends extends_refl extends_trans extends_print
           extends_intern).
Qed.

Lemma good_self_call (o : pyobj) :
  (∀ sl hs lvl, good_body (to_ocp_body o sl hs lvl)) → good_call self_call o.
Proof.
  intros Ho names colors sl hs lvl. split.
  - apply (keeps_self_call extends);
      try first [exact extends_refl|exact extends_trans|exact extends_print
                |exact extends_intern].
    intros. apply keeps_extends_body.
  - intros st g st' Hrun. unfold self_call in Hrun.
    eapply to_ocp_gen_refs; [|exact Hrun]. constructor; [apply Ho|constructor].
Qed.

Lemma handle_list_tuple_refs (self : to_ocp_call) (xs : list pyobj) nm col sl hs lvl
    (st st' : state) (g : OcpNode) :
  Forall (good_call self) xs →
  handle_list_tuple self (PyList xs) nm col sl hs lvl st = (Ok g, st') →
  refs_valid g st'.
Proof.
  intros Hxs Hrun. unfold handle_list_tuple in Hrun.
  apply bind_Ok_inv in Hrun as (u & st1 & _ & Hrun).
  apply bind_Ok_inv in Hrun as (g1 & st2 & Hloop & Hrun).
  apply ret_Ok_inv in Hrun as [<- <-].
  eapply refs_valid_sub; [apply cleanup_refs|].
  eapply refs_valid_sub; [apply unique_refs|].
  revert Hloop.
  assert (Hg0 : refs_valid (OcpGroup (get_name (PyList xs) nm "List") None []) st1)
    by (unfold refs_valid; simpl; constructor).
  revert Hg0.
  generalize (OcpGroup (get_name (PyList xs) nm "List") None []).
  generalize (get_name (PyList xs) nm). intros name_of. revert st1.
  induction Hxs as [|o rest Ho _ IH]; intros st1 g0 Hg0 Hloop.
  - apply ret_Ok_inv in Hloop as [<- <-]. exact Hg0.
  - apply bind_Ok_inv in Hloop as (r & st3 & Hcall & Hloop).
    destruct (Ho (Some [Some (name_of (type_name o))]) (Some [rgba_value <$> col]) sl hs
                (S lvl)) as [Hext Hpost].
    apply (IH st3 (add g0 (cleanup r))); [|exact Hloop].
    apply refs_valid_add.
    + eapply refs_valid_mono; [exact Hg0|]. eapply run_extends; [exact Hext|exact Hcall].
    + eapply refs_valid_sub; [apply cleanup_refs|]. by eapply Hpost.
Qed.

Lemma handle_dict_refs (self : to_ocp_call) (items : list (string * pyobj))
    nm col sl hs lvl (st st' : state) (g : OcpNode) :
  Forall (λ kv, good_call self kv.2) items →
  handle_dict self (PyDict items) nm col sl hs lvl st = (Ok g, st') →
  refs_valid g st'.
Proof.
  intros Hxs Hrun. unfold handle_dict in Hrun.
  apply bind_Ok_inv in Hrun as (u & st1 & _ & Hloop).
  revert Hloop.
  assert (Hg0 : refs_valid (OcpGroup (get_name (PyDict items) nm "Dict") None []) st1)
    by (unfold refs_valid; simpl; constructor).
  revert Hg0.
  generalize (OcpGroup (get_name (PyDict items) nm "Dict") None []). revert st1.
  induction Hxs as [|[k o] rest Ho _ IH]; intros st1 g0 Hg0 Hloop.
  - apply ret_Ok_inv in Hloop as [<- <-]. exact Hg0.
  - apply bind_Ok_inv in Hloop as (r & st3 & Hcall & Hloop).
    destruct (Ho (Some [Some k]) (Some [rgba_value <$> col]) sl hs (S lvl))
      as [Hext Hpost].
    apply (IH st3 (add g0 (cleanup r))); [|exact Hloop].
    apply refs_valid_add.
    + eapply refs_valid_mono; [exact Hg0|]. eapply run_extends; [exact Hext|exact Hcall].
    + eapply refs_valid_sub; [apply cleanup_refs|]. by eapply Hpost.
Qed.

Lemma to_ocp_body_refs (x : pyobj) : ∀ sl hs lvl, good_body (to_ocp_body x sl hs lvl).
Proof.
  induction x as [ty|ty|xs IH|items IH|s|label c w it ch IH|ty] using pyobj_nested_ind;
    intros sl hs lvl nm col; (split; [apply keeps_extends_body|]);
    intros st n st'; rewrite to_ocp_body_unfold.
  - by intros [= ].
  - simpl. unfold mbind, M_bind. simpl. by intros [= ].
  - cbn [is_silently_skipped passes_filter is_wrapped is_iterable_or_dict orb negb].
    cbv zeta. intros Hrun.
    apply bind_Ok_inv in Hrun as (g & st1 & Hh & Hrun).
    apply bind_Ok_inv in Hrun as (u & st2 & Hp & Hrun).
    apply ret_Ok_inv in Hrun as [[= <-] <-].
    eapply refs_valid_mono; [|eapply run_extends; [|exact Hp]].
    + eapply handle_list_tuple_refs; [|exact Hh].
      eapply Forall_impl; [|exact IH]. intros o Ho. by apply good_self_call.
    + simpl. intros st0. apply extends_print.
  - cbn [is_silently_skipped passes_filter is_wrapped is_iterable_or_dict orb negb].
    cbv zeta. intros Hrun.
    apply bind_Ok_inv in Hrun as (g & st1 & Hh & Hrun).
    apply bind_Ok_inv in Hrun as (u & st2 & Hp & Hrun).
    apply ret_Ok_inv in Hrun as [[= <-] <-].
    eapply refs_valid_mono; [|eapply run_extends; [|exact Hp]].
    + eapply handle_dict_refs; [|exact Hh].
      eapply Forall_impl; [|exact IH]. intros o Ho. by apply good_self_call.
    + simpl. intros st0. apply extends_print.
  - cbn [is_silently_skipped passes_filter is_wrapped is_iterable_or_dict
         has_other_capability is_topods_shape orb negb].
    cbv zeta. intros Hrun.
    apply bind_Ok_inv in Hrun as (g & st1 & Hh & Hrun).
    apply bind_Ok_inv in Hrun as (u & st2 & Hp & Hrun).
    apply ret_Ok_inv in Hrun as [[= <-] <-].
    eapply refs_valid_mono; [|eapply run_extends; [|exact Hp]].
    + apply fmap_Ok_inv in Hh as (o & Hh & ->). by eapply handle_shapes_ref_valid.
    + simpl. intros st0. apply extends_print.
  - cbn [is_silently_skipped passes_filter is_wrapped is_iterable_or_dict orb negb].
    cbv zeta. intros Hrun.
    apply bind_Ok_inv in Hrun as (g & st1 & Hh & Hrun).
    apply bind_Ok_inv in Hrun as (u & st2 & Hp & Hrun).
    apply ret_Ok_inv in Hrun as [[= <-] <-].
    eapply refs_valid_mono; [|eapply run_extends; [|exact Hp]].
    + destruct (is_build123d_assembly _).
      * apply bind_Ok_inv in Hh as (? & ? & Hraise & _). done.
      * apply fmap_Ok_inv in Hh as (o & Hh & ->). by eapply handle_shapes_ref_valid.
    + simpl. intros st0. apply extends_print.
  - cbn [is_silently_skipped passes_filter is_wrapped is_iterable_or_dict
         has_other_capability is_topods_shape orb negb].
    cbv zeta. intros Hrun.
    apply bind_Ok_inv in Hrun as (g & st1 & Hh & Hrun). done.
Qed.

(** X21. Every [ref] in the tree [to_ocp] returns is an index into the
    instance table as the call leaves it, for every nesting of lists and
    dictionaries, provided [cleanup] and [make_unique_names] of
    [cad_objects] bring no new [ref] into a tree; and every [ref] in the
    tree [to_assembly] returns is an index into the list of instances
    returned with it. *)
Theorem to_ocp_refs_valid (cad_objs : list pyobj)
    (names : option (list (option string)))
    (colors : option (list (option color_value)))
    (alphas : option (list (option Q)))
    (l : option Location) (helper_scale : Q) (sketch_local : bool) (level : nat)
    (st : state) :
  match to_ocp cad_objs names colors alphas l helper_scale sketch_local level st with
  | (Ok group, st') => Forall (λ i, (i < length (instances st'))%nat) (node_refs group)
  | (Raise _, _) => True
  end
  ∧ match to_assembly cad_objs names colors alphas helper_scale sketch_local l st with
    | (Ok (group, insts), _) => Forall (λ i, (i < length insts)%nat) (node_refs group)
    | (Raise _, _) => True
    end.
Proof.
  assert (Hto : ∀ lvl st0 g st',
    to_ocp cad_objs names colors alphas l helper_scale sketch_local lvl st0 = (Ok g, st')
    → refs_valid g st').
  { intros lvl st0 g st' Hrun. unfold to_ocp in Hrun.
    eapply to_ocp_gen_refs; [|exact Hrun]. apply Forall_fmap.
    clear Hrun. induction cad_objs as [|o os IH]; constructor; [|exact IH].
    apply to_ocp_body_refs. }
  split.
  - destruct (to_ocp _ _ _ _ _ _ _ _ st) as [[g|e] st'] eqn:Hrun; [|done].
    by apply (Hto level st).
  - unfold to_assembly.
    destruct (to_ocp _ _ _ _ _ _ _ _ (OcpConverter_init true st)) as [[g|e] st'] eqn:Hrun;
      [|done].
    rewrite length_fmap. by apply (Hto 0%nat (OcpConverter_init true st)).
Qed.

End RefsValid.

Section ShapeListProps.
Context {K : Kernel} {P : Package}.
Variable flatten : list (list shape_obj) → list shape_obj.

Lemma debug_run (level : nat) (msg : string) (nm : option string) (st : state) :
  ∃ line, _debug level msg nm st = (Ok tt, with_stdout st (stdout st ++ [Text line])).
Proof. unfold _debug. simpl. by eexists. Qed.

Lemma plain_colour (cls : string) (c : option color_value) :
  ∃ col, get_color_for_object (mkColored None cls) c None None = Ok col.
Proof. unfold get_color_for_object. destruct c; simpl; by eexists. Qed.

(** X22. [handle_shapelist] on an empty build123d [ShapeList] raises
    [IndexError], and on one whose first element is a compound or a
    compsolid it raises [ValueError]; in both cases only the debug line has
    been printed and the instance table is as before. *)
Theorem handle_shapelist_errors (o : shape_obj) (rest : list shape_obj)
    (obj_name : option string) (rgba_color : option rgba) (sketch_local : bool)
    (level : nat) (st : state) :
  (∃ line,
     handle_shapelist flatten (B123dShapeList []) obj_name rgba_color sketch_local level st
     = (Raise (IndexError "list index out of range"),
        with_stdout st (stdout st ++ [Text line])))
  ∧ (ShapeType (so_wrapped o) = TopAbs_COMPOUND
     ∨ ShapeType (so_wrapped o) = TopAbs_COMPSOLID →
     ∃ line,
       handle_shapelist flatten (B123dShapeList (o :: rest)) obj_name rgba_color
         sketch_local level st
       = (Raise (ValueError "Unknown type"),
          with_stdout st (stdout st ++ [Text line]))).
Proof.
  split.
  - destruct (debug_run level "handle_shapelist (build123d ShapeList)" obj_name st)
      as [line Hd].
    exists line. unfold handle_shapelist.
    unfold mbind at 1, M_bind at 1. unfold mbind at 1, M_bind at 1. rewrite Hd.
    reflexivity.
  - intros Hty.
    destruct (debug_run level "handle_shapelist (build123d ShapeList)" obj_name st)
      as [line Hd].
    exists line. unfold handle_shapelist.
    unfold mbind at 1, M_bind at 1. unfold mbind at 1, M_bind at 1. rewrite Hd.
    cbv zeta. cbn [mret M_ret fst snd].
    unfold is_topods_wire.
    rewrite bool_decide_eq_false_2 by (destruct Hty as [-> | ->]; done).
    unfold mbind at 1, M_bind at 1, lift at 1.
    cbn [fmap list_fmap first_item mbind result_bind].
    unfold get_type, class_name. by destruct Hty as [-> | ->].
Qed.


(** X24. A build123d [ShapeList] whose first element is a wire is turned
    into the edges of all its elements: the object returned has the kind
    edge, the stroke width [LINE_WIDTH], no [ref], and for payload the
    wrapped edges of every element in order; the instance table is not
    touched.  When the elements have no edge at all the call raises
    [IndexError]. *)
Theorem handle_shapelist_wires (o : shape_obj) (rest : list shape_obj)
    (obj_name : option string) (rgba_color : option rgba) (sketch_local : bool)
    (level : nat) (st : state) :
  ShapeType (so_wrapped o) = TopAbs_WIRE →
  let es := flat_map so_edges (o :: rest) in
  ∃ line,
    let st' := with_stdout st (stdout st ++ [Text line]) in
    match es with
    | [] =>
        handle_shapelist flatten (B123dShapeList (o :: rest)) obj_name rgba_color
          sketch_local level st
        = (Raise (IndexError "list index out of range"), st')
    | _ :: _ =>
        ∃ r,
          handle_shapelist flatten (B123dShapeList (o :: rest)) obj_name rgba_color
            sketch_local level st = (Ok r, st')
          ∧ kind r = "edge" ∧ width r = Some LINE_WIDTH ∧ ref r = None
          ∧ obj r = Some (GList (GShape <$> es))
          ∧ name r = default "ShapeList(Wire)" obj_name
    end.
Proof.
  intros Hty es.
  destruct (debug_run level "handle_shapelist (build123d ShapeList)" obj_name st)
    as [line Hd].
  exists line. cbv zeta.
  assert (Hwire : is_topods_wire (so_wrapped o) = true)
    by (by apply bool_decide_eq_true_2).
  assert (Hstart :
    handle_shapelist flatten (B123dShapeList (o :: rest)) obj_name rgba_color
      sketch_local level st
    = (first ← lift (first_item es);
       col ← lift (get_color_for_object (mkColored None (class_name first))
                     (rgba_value <$> rgba_color) None None);
       mret (mkOcpObject "edge" (Some (GList (GShape <$> es))) None
               (get_name (PyList []) obj_name "ShapeList(Wire)") None (Some col)
               (Some LINE_WIDTH) None))
        (with_stdout st (stdout st ++ [Text line]))).
  { unfold handle_shapelist.
    unfold mbind at 1, M_bind at 1. unfold mbind at 1, M_bind at 1. rewrite Hd.
    cbv zeta. cbn [mret M_ret fst snd]. rewrite Hwire.
    unfold mbind at 1, M_bind at 1, lift at 1. cbn [fst snd].
    unfold mbind at 1, M_bind at 1, lift at 1. reflexivity. }
  rewrite Hstart. fold es. destruct es as [|e0 es']; [reflexivity|].
  destruct (plain_colour (class_name e0) (rgba_value <$> rgba_color)) as [col Hcol].
  unfold mbind at 1, M_bind at 1, lift at 1. cbn [first_item].
  unfold mbind at 1, M_bind at 1, lift at 1. rewrite Hcol.
  eexists. split; [reflexivity|]. split_and!; reflexivity.
Qed.

End ShapeListProps.

Section Scalars.
Context {K : Kernel} {P : Package}.

(** X25. A value that is silently skipped (an enum, a colour, a number, a
    string, an array) among the objects of a call without names and
    colours is as if it were not there: the call returns the same tree,
    prints the same lines and leaves the same instance table as the call
    without that value. *)
Theorem scalar_is_transparent (ty : string) (pre post : list pyobj)
    (l : option Location) (helper_scale : Q) (sketch_local : bool) (level : nat)
    (st : state) :
  to_ocp (pre ++ PyScalar ty :: post) None None None l helper_scale sketch_local level st
  = to_ocp (pre ++ post) None None None l helper_scale sketch_local level st.
Proof.
  rewrite !to_ocp_unnamed. unfold fmap, M_fmap, unnamed.
  rewrite !fmap_app, fmap_cons, !to_ocp_loop_app.
  destruct (to_ocp_loop _ (empty_group l) st) as [[g|e] st1]; [|done].
  reflexivity.
Qed.

End Scalars.

Section OrchestratorTree.
Context {K : Kernel} {P : Package}.

(** X26. What [tessellate_group] returns besides the meshes: the states and
    the mapping are those of the group, and the shapes dictionary is the
    one [collect] made, with the ["bb"] of every leaf of type ["shapes"]
    set to the box of the mesh of the instance the leaf refers to, placed
    by the leaf's location; nothing else in the dictionary is changed.  The
    same assumptions on the memo table as for the meshes. *)
Theorem tessellate_group_annotates (group : OcpNode) (insts : list instance)
    (kw : kwargs) (st st1 st2 : state) (ms : Mapping * shapes)
    (meshes : list Mesh) (sh : shapes) (states : States) (mapping : Mapping) :
  collect group insts st = (Ok ms, st1) →
  cache_sound insts (cache st1) → collision_free insts →
  tessellate_group group insts kw st = (Ok (meshes, sh, states, mapping), st2) →
  sh = map_leaves (annotate meshes) ms.2
  ∧ Forall (leaf_boxed meshes) (leaves ms.2)
  ∧ states = to_state group ∧ mapping = ms.1
  ∧ instances st2 = instances st1.
Proof.
  intros Hcollect Hsound Hfree Hret.
  set (deviation := preset "deviation" (kw_deviation kw)).
  set (angular_tolerance := preset "angular_tolerance" (kw_angular_tolerance kw)).
  set (render_edges := preset_flag "render_edges" (kw_render_edges kw)).
  destruct (mesh_loop_spec deviation angular_tolerance render_edges insts insts
              Hfree (λ i Hi, Hi) [] st1 Hsound) as (st2' & Hloop & Hinst).
  unfold tessellate_group in Hret.
  unfold mbind at 1, M_bind at 1 in Hret. simpl in Hret.
  unfold mbind at 1, M_bind at 1 in Hret. rewrite Hcollect in Hret.
  unfold mbind at 1, M_bind at 1 in Hret.
  fold deviation angular_tolerance render_edges in Hret. rewrite Hloop in Hret.
  destruct (mesh_all deviation angular_tolerance render_edges insts)
    as [meshes'|e]; simpl in Hret; [|done].
  unfold mbind at 1, M_bind at 1, lift in Hret.
  destruct (_add_bb meshes' ms.2 _) as [[t o']|e] eqn:Hadd; [|done].
  simpl in Hret. injection Hret as <- <- <- <- <-.
  destruct (ms.2) as [parts|lf] eqn:Hms; [|done].
  destruct (add_bb_tree meshes' (ShapesGroup parts) _ _ _ Hadd) as (-> & _ & Hboxed).
  done.
Qed.

End OrchestratorTree.

Lemma tessellate_group_annotates_witness :
  ∃ meshes sh st2,
    @tessellate_group Toy.kernel ToyLeaves.package
      (OcpGroup "Group" None [])
      [mkInstance (Toy.cube 1 0) "a"; mkInstance (Toy.cube 2 0) "b"]
      (mkKwargs None None None None) Toy.st0
    = (Ok (meshes, sh, tt, tt), st2)
    ∧ sh = ShapesGroup
             [ShapesLeaf
                (mkLeaf "shapes" 0 (Some (Some (0, 0, 0), Some (0, 0, 0, 1)))
                   (Some (Some (BBoxDict 0 1 0 1 0 1))));
              ShapesLeaf
                (mkLeaf "shapes" 1 (Some (Some (1, 0, 0), Some (0, 0, 0, 1)))
                   (Some (Some (BBoxDict 1 3 0 2 0 2))));
              ShapesLeaf (mkLeaf "edges" 0 None None)]
    ∧ Forall (@leaf_boxed Toy.kernel ToyLeaves.package meshes)
        [mkLeaf "shapes" 0 (Some (Some (0, 0, 0), Some (0, 0, 0, 1))) None;
         mkLeaf "shapes" 1 (Some (Some (1, 0, 0), Some (0, 0, 0, 1))) None;
         mkLeaf "edges" 0 None None]
    ∧ @instances Toy.kernel st2 = [].
Proof.
  eexists; eexists; eexists. split; [vm_compute; reflexivity|].
  match goal with |- ?sh = _ ∧ Forall (leaf_boxed ?meshes) _ ∧ instances ?st2 = _ =>
    destruct (@tessellate_group_annotates Toy.kernel ToyLeaves.package
                (OcpGroup "Group" None [])
                [mkInstance (Toy.cube 1 0) "a"; mkInstance (Toy.cube 2 0) "b"]
                (mkKwargs None None None None) Toy.st0 Toy.st0 st2
                (tt,
                 ShapesGroup
                   [ShapesLeaf
                      (mkLeaf "shapes" 0 (Some (Some (0, 0, 0), Some (0, 0, 0, 1))) None);
                    ShapesLeaf
                      (mkLeaf "shapes" 1 (Some (Some (1, 0, 0), Some (0, 0, 0, 1))) None);
                    ShapesLeaf (mkLeaf "edges" 0 None None)])
                meshes sh tt tt)
      as (Hsh & Hboxed & _ & _ & Hi)
  end.
  - reflexivity.
  - intros inst bb _ Hl. discriminate Hl.
  - intros i j Hi Hj Hh.
    apply elem_of_cons in Hi as [-> | Hi%list_elem_of_singleton];
      apply elem_of_cons in Hj as [-> | Hj%list_elem_of_singleton];
      subst; first [reflexivity | discriminate Hh].
  - vm_compute. reflexivity.
  - split_and!; [exact Hsh | exact Hboxed | exact Hi].
Defined.

Lemma to_ocp_refs_valid_witness :
  ∃ g st',
    @to_ocp Toy.kernel Toy.package
      [PyTopoDS (Toy.cube 1 0); PyList [PyTopoDS (Toy.cube 2 0)]]
      None None None None 1 true 0 Toy.st0 = (Ok g, st')
    ∧ length (node_refs g) = 2%nat
    ∧ Forall (λ i, (i < length (instances st'))%nat) (node_refs g).
Proof.
  pose proof (@to_ocp_refs_valid Toy.kernel Toy.package
                (λ n i H, H) (λ n i H, H)
                [PyTopoDS (Toy.cube 1 0); PyList [PyTopoDS (Toy.cube 2 0)]]
                None None None None 1 true 0%nat Toy.st0) as [H _].
  destruct (@to_ocp Toy.kernel Toy.package _ _ _ _ _ _ _ _ _) as [[g|e] st'] eqn:Hrun;
    [|vm_compute in Hrun; discriminate Hrun].
  exists g, st'. split; [reflexivity|]. split; [|exact H].
  vm_compute in Hrun. injection Hrun as <- _. reflexivity.
Defined.


Lemma handle_shapelist_wires_witness :
  ∃ r st',
    @handle_shapelist Toy.kernel Toy.package (λ ll, concat ll)
      (B123dShapeList
         [ShapeObj (Toy.mkShape TopAbs_WIRE 1 0 : @Shape Toy.kernel) [Toy.edge 1 0; Toy.edge 2 0] []])
      None None true 0 Toy.st0 = (Ok r, st')
    ∧ obj r = Some (GList [GShape (Toy.edge 1 0); GShape (Toy.edge 2 0)])
    ∧ ref r = None.
Proof.
  destruct (@handle_shapelist_wires Toy.kernel Toy.package (λ ll, concat ll)
              (ShapeObj (Toy.mkShape TopAbs_WIRE 1 0 : @Shape Toy.kernel) [Toy.edge 1 0; Toy.edge 2 0] []) []
              None None true 0%nat Toy.st0 eq_refl)
    as (line & r & Hrun & _ & _ & Hr & Ho & _).
  eexists r, _. split; [exact Hrun|]. split; [exact Ho|exact Hr].
Defined.

Lemma handle_shapelist_errors_witness :
  ∃ line,
    @handle_shapelist Toy.kernel Toy.package (λ ll, concat ll)
      (B123dShapeList [ShapeObj (Toy.compound 1 0) [] []; ShapeObj (Toy.cube 1 0) [] []])
      None None true 0 Toy.st0
    = (Raise (ValueError "Unknown type"),
       with_stdout Toy.st0 (stdout Toy.st0 ++ [Text line])).
Proof.
  apply (@handle_shapelist_errors Toy.kernel Toy.package (λ ll, concat ll)
           (ShapeObj (Toy.compound 1 0) [] []) [ShapeObj (Toy.cube 1 0) [] []]
           None None true 0%nat Toy.st0).
  by left.
Defined.

Lemma combined_bb_consumes_witness :
  combined_bb
    (ShapesGroup [ShapesLeaf (mkLeaf "shapes" 0 None None);
                  ShapesLeaf (mkLeaf "shapes" 1 None (Some None))])
  = Raise (KeyError "bb")
  ∧ combined_bb
      (map_leaves (λ lf, set_bb lf None)
         (ShapesGroup [ShapesLeaf (mkLeaf "shapes" 0 None
                                     (Some (Some (BBoxDict 0 1 0 1 0 1))))]))
    = Raise (KeyError "bb").
Proof.
  split.
  - apply (combined_bb_consumes
             [ShapesLeaf (mkLeaf "shapes" 0 None None);
              ShapesLeaf (mkLeaf "shapes" 1 None (Some None))]
             (mkLeaf "shapes" 0 None None)).
    by left.
  - destruct (combined_bb_consumes
               [ShapesLeaf (mkLeaf "shapes" 0 None (Some (Some (BBoxDict 0 1 0 1 0 1))))]
               (mkLeaf "shapes" 0 None None)) as (_ & _ & H).
    destruct (H _ _ eq_refl) as (_ & Hagain & _). by apply Hagain.
Defined.

Lemma shape_list_predicates_witness :
  is_solid_list ([] : list (@Shape Toy.kernel)) = true
  ∧ is_edge_list ([] : list (@Shape Toy.kernel)) = true
  ∧ (Nat.b2n (is_solid_list [Toy.cube 1 0; Toy.cube 2 0])
     + Nat.b2n (is_face_list [Toy.cube 1 0; Toy.cube 2 0])
     + Nat.b2n (is_wire_list [Toy.cube 1 0; Toy.cube 2 0])
     + Nat.b2n (is_edge_list [Toy.cube 1 0; Toy.cube 2 0])
     + Nat.b2n (is_vertex_list [Toy.cube 1 0; Toy.cube 2 0]) <= 1)%nat.
Proof.
  destruct (@shape_list_predicates Toy.kernel []) as [H _].
  destruct (H eq_refl) as (H1 & _ & _ & H4 & _).
  split; [exact H1|]. split; [exact H4|].
  by apply (@shape_list_predicates Toy.kernel [Toy.cube 1 0; Toy.cube 2 0]).
Defined.

(** ** [get_accuracies] and [get_normal_len] *)

Lemma acc_shapes_nested_ind (Pr : acc_shapes → Prop) :
  (∀ type id accuracy, Pr (AccNode None type id accuracy)) →
  (∀ ps type id accuracy, Forall Pr ps → Pr (AccNode (Some ps) type id accuracy)) →
  ∀ s, Pr s.
Proof.
  intros H0 H. fix IH 1. intros [[ps|] type id accuracy]; [|apply H0].
  apply H. induction ps as [|x xs IHxs]; constructor; auto.
Qed.

Lemma dict_set_fresh {V} (d : list (string * V)) (k : string) (v : V) :
  k ∉ d.*1 → dict_set d k v = d ++ [(k, v)].
Proof.
  induction d as [|[k' v'] d IH]; [done|]. intros Hk. simpl.
  destruct (String.eqb k' k) eqn:Heq.
  - apply String.eqb_eq in Heq as ->. destruct Hk. by left.
  - rewrite IH; [done|]. intros Hin. apply Hk. by right.
Qed.

Lemma get_accuracies_loop_pairs
    (rec : acc_shapes → list (string * Q) → result (list (string * Q)))
    (todo : list acc_shapes) :
  Forall (λ s, ∀ acc pairs, recorded s = wrap_pair <$> pairs →
            NoDup (acc ++ pairs).*1 → rec s acc = Ok (acc ++ pairs)) todo →
  ∀ acc pairs, flat_map recorded todo = wrap_pair <$> pairs →
    NoDup (acc ++ pairs).*1 →
    _get_accuracies_loop rec todo acc = Ok (acc ++ pairs).
Proof.
  induction 1 as [|x rest Hx _ IH]; intros acc pairs Hrec Hnd.
  - simpl in Hrec. symmetry in Hrec. apply fmap_nil_inv in Hrec as ->.
    by rewrite app_nil_r.
  - simpl in Hrec. symmetry in Hrec.
    apply fmap_app_inv in Hrec as (p1 & p2 & H1 & H2 & ->).
    simpl. rewrite (Hx acc p1); [| done |].
    + simpl. rewrite app_assoc. apply IH; [done|]. by rewrite <- app_assoc.
    + rewrite app_assoc, fmap_app in Hnd. by apply list.NoDup_app in Hnd as [? _].
Qed.

Lemma get_accuracies_leaf (type id : option string) (accuracy : option Q)
    (acc pairs : list (string * Q)) :
  (if bool_decide (type = Some "shapes") then [(id, accuracy)] else [])
  = wrap_pair <$> pairs →
  NoDup (acc ++ pairs).*1 →
  (if bool_decide (type = Some "shapes") then
     match accuracy, id with
     | None, _ => Raise (KeyError "accuracy")
     | Some _, None => Raise (KeyError "id")
     | Some value, Some key => Ok (dict_set acc key value)
     end
   else Ok acc) = Ok (acc ++ pairs).
Proof.
  intros Hrec Hnd. case_bool_decide.
  - destruct pairs as [|[k v] [|p ps]]; [done| |done].
    injection Hrec as -> ->. rewrite dict_set_fresh; [done|].
    rewrite fmap_app in Hnd. apply list.NoDup_app in Hnd as (_ & Hd & _).
    intros Hin. apply (Hd k Hin). by left.
  - symmetry in Hrec. apply fmap_nil_inv in Hrec as ->. by rewrite app_nil_r.
Qed.

Lemma get_accuracies_pairs (s : acc_shapes) :
  ∀ acc pairs, recorded s = wrap_pair <$> pairs → NoDup (acc ++ pairs).*1 →
    _get_accuracies s acc = Ok (acc ++ pairs).
Proof.
  induction s as [type id accuracy|parts type id accuracy IH]
    using acc_shapes_nested_ind; intros acc pairs Hrec Hnd.
  - by apply get_accuracies_leaf.
  - destruct parts as [|p ps]; [by apply get_accuracies_leaf|].
    change (_get_accuracies (AccNode (Some (p :: ps)) type id accuracy) acc)
      with (_get_accuracies_loop _get_accuracies (p :: ps) acc).
    apply get_accuracies_loop_pairs; [exact IH|exact Hrec|exact Hnd].
Qed.

(** X27. [get_accuracies] returns the accuracy of every leaf of type
    ["shapes"] under its ["id"], in the order of the leaves, when the ids
    are distinct; a node with a non-empty ["parts"] is walked and its own
    type is not looked at.  [get_normal_len] is then four times the
    greatest of these accuracies divided by the deviation; it is 0 without
    [render_normals], whatever the dictionary; and with [render_normals] it
    raises [ValueError] on a dictionary without any such leaf, and
    [ZeroDivisionError] on a deviation of zero. *)
Theorem get_normal_len_spec (s : acc_shapes) (pairs : list (string * Q))
    (deviation : Q) :
  recorded s = wrap_pair <$> pairs → NoDup pairs.*1 →
  get_accuracies s = Ok pairs
  ∧ get_normal_len false s deviation = inr 0
  ∧ (pairs = [] →
     get_normal_len true s deviation
     = inl (NormalLenRaise (ValueError "max() arg is an empty sequence")))
  ∧ (pairs ≠ [] → deviation == 0 →
     get_normal_len true s deviation
     = inl (ZeroDivisionError "float division by zero"))
  ∧ (pairs ≠ [] → ¬ deviation == 0 →
     ∃ m, greatest m pairs.*2
       ∧ get_normal_len true s deviation = inr (m / deviation * 4)).
Proof.
  intros Hrec Hnd.
  assert (Hacc : get_accuracies s = Ok pairs)
    by (by apply (get_accuracies_pairs s [] pairs)).
  split; [exact Hacc|]. split; [done|].
  unfold get_normal_len. rewrite Hacc. split_and!.
  - by intros ->.
  - intros Hne Hz. destruct pairs as [|[k v] ps]; [done|]. simpl.
    by rewrite (proj2 (Qeq_bool_iff _ _) Hz).
  - intros Hne Hz. destruct pairs as [|[k v] ps]; [done|]. simpl.
    destruct (Qeq_bool deviation 0) eqn:Hq; [by apply Qeq_bool_iff in Hq|].
    eexists. split; [|reflexivity]. apply py_max_list_greatest.
Qed.

Lemma get_normal_len_spec_witness :
  ∃ m, greatest m [1 # 2; 3]
    ∧ get_normal_len true
        (AccNode (Some [AccNode None (Some "shapes") (Some "/a") (Some (1 # 2));
                        AccNode (Some []) (Some "edges") (Some "/b") None;
                        AccNode (Some [AccNode None (Some "shapes") (Some "/c") (Some 3)])
                          (Some "shapes") None None])
           None None None) (1 # 10)
      = inr (m / (1 # 10) * 4).
Proof.
  destruct (get_normal_len_spec
    (AccNode (Some [AccNode None (Some "shapes") (Some "/a") (Some (1 # 2));
                    AccNode (Some []) (Some "edges") (Some "/b") None;
                    AccNode (Some [AccNode None (Some "shapes") (Some "/c") (Some 3)])
                      (Some "shapes") None None])
       None None None)
    [("/a", 1 # 2); ("/c", 3)] (1 # 10))
    as (_ & _ & _ & _ & H).
  - reflexivity.
  - simpl. apply list.NoDup_cons. split; [|apply NoDup_singleton].
    rewrite list_elem_of_singleton. discriminate.
  - apply H; done.
Defined.
